(** * EIA 923 / EIA 860 ingest: a shallow embedding of [pudl/eia923.py]
    and [pudl/transform/eia860.py], and the properties of their
    column reconciliation and value cleaning.

    Tables are pandas data frames.  A frame is modelled by its row labels
    (the index) and a finite map from column names to columns; a column is
    the list of its cells, in row order.  Column order and cell dtypes are
    not represented: the code under study addresses columns by name only.
    Text is ASCII: a [string] is a sequence of code points below 128, on
    which Python's [str] methods are modelled. *)

From Stdlib Require Import ZArith String Ascii List Bool Lia PrimFloat Uint63.
From Stdlib Require Import DecimalString DecimalZ DecimalPos.
From stdpp Require Import base option list gmap strings fin_maps sorting.

Local Open Scope string_scope.
Local Open Scope Z_scope.
Local Open Scope list_scope.

(** ** Python values, exceptions and [str] methods *)

Module Py.

(** The exceptions the modelled code can raise. *)
Inductive exn : Set :=
| AssertionError
| KeyError
| ValueError
| TypeError
| AttributeError.

(** A computation either returns or raises. *)
Inductive result (A : Type) : Type :=
| Ok (a : A)
| Raise (e : exn).

Arguments Ok {A} a.
Arguments Raise {A} e.

#[export] Instance result_ret : MRet result := fun A a => Ok a.

#[export] Instance result_bind : MBind result :=
  fun A B f m => match m with Ok a => f a | Raise e => Raise e end.

(** The value of a run that returned, for the worked examples. *)
Definition returned {A : Type} `{Empty A} (r : result A) : A :=
  match r with Ok a => a | Raise _ => ∅ end.

(** [assert b] *)
Definition assert (b : bool) : result unit :=
  if b then Ok tt else Raise AssertionError.

(** The cells of a frame.  [NA] stands for every missing marker pandas uses
    ([None], [NaN], [NaT]); [Num] is a binary64 float, [Date] a timestamp
    at midnight. *)
Inductive value : Type :=
| NA
| Str (s : string)
| Int (z : Z)
| Num (f : float)
| Bool (b : bool)
| Date (year month day : Z).

(** [pandas.isna] on a cell: [NaN] is missing too. *)
Definition isna (v : value) : bool :=
  match v with
  | NA => true
  | Num f => PrimFloat.is_nan f
  | _ => false
  end.

(** [str.isspace] on one ASCII character, which is also what [\s] matches in
    a [str] pattern: tab, line feed, vertical tab, form feed, carriage
    return, the four separators 28-31, and the space. *)
Definition isspace (c : ascii) : bool :=
  let n := N_of_ascii c in
  ((9 <=? n) && (n <=? 13) || (28 <=? n) && (n <=? 32))%N.

Definition islower (c : ascii) : bool :=
  let n := N_of_ascii c in ((97 <=? n) && (n <=? 122))%N.

Definition isupper (c : ascii) : bool :=
  let n := N_of_ascii c in ((65 <=? n) && (n <=? 90))%N.

Definition isdigit (c : ascii) : bool :=
  let n := N_of_ascii c in ((48 <=? n) && (n <=? 57))%N.

Definition upper_char (c : ascii) : ascii :=
  if islower c then ascii_of_N (N_of_ascii c - 32) else c.

Definition lower_char (c : ascii) : ascii :=
  if isupper c then ascii_of_N (N_of_ascii c + 32) else c.

Fixpoint map_chars (f : ascii -> ascii) (s : string) : string :=
  match s with
  | EmptyString => EmptyString
  | String c r => String (f c) (map_chars f r)
  end.

Fixpoint all_chars (p : ascii -> bool) (s : string) : bool :=
  match s with
  | EmptyString => true
  | String c r => p c && all_chars p r
  end.

(** [s.upper()], [s.lower()] *)
Definition upper : string -> string := map_chars upper_char.
Definition lower : string -> string := map_chars lower_char.

(** [s.lstrip()], [s.rstrip()], [s.strip()] *)
Fixpoint lstrip (s : string) : string :=
  match s with
  | EmptyString => EmptyString
  | String c r => if isspace c then lstrip r else s
  end.

Fixpoint rstrip (s : string) : string :=
  match s with
  | EmptyString => EmptyString
  | String c r =>
      match rstrip r with
      | EmptyString => if isspace c then EmptyString else String c EmptyString
      | r' => String c r'
      end
  end.

Definition strip (s : string) : string := rstrip (lstrip s).

(** [s[:n]] *)
Fixpoint take_chars (n : nat) (s : string) : string :=
  match n, s with
  | S n', String c r => String c (take_chars n' r)
  | _, _ => EmptyString
  end.

(** [s.startswith(p)] *)
Fixpoint startswith (p s : string) : bool :=
  match p, s with
  | EmptyString, _ => true
  | String a p', String b s' => if Ascii.eqb a b then startswith p' s' else false
  | String _ _, EmptyString => false
  end.

(** [s[n:]] *)
Fixpoint drop_chars (n : nat) (s : string) : string :=
  match n, s with
  | S n', String _ r => drop_chars n' r
  | _, _ => s
  end.

(** [s.isnumeric()] on ASCII text: at least one character, and digits
    only. *)
Definition isnumeric (s : string) : bool :=
  match s with
  | EmptyString => false
  | _ => all_chars isdigit s
  end.

(** [s.endswith(c)] for one character [c]. *)
Fixpoint endswith_char (c : ascii) (s : string) : bool :=
  match s with
  | EmptyString => false
  | String a EmptyString => Ascii.eqb a c
  | String _ r => endswith_char c r
  end.

(** ['{}'.format(n)] for an integer [n]. *)
Definition format_int (n : Z) : string := NilZero.string_of_int (Z.to_int n).

(** [os.path.join(a, b)] on a POSIX system: an absolute [b] stands alone,
    and a separator is put between the two parts unless [a] is empty or
    ends with one. *)
Definition path_join (a b : string) : string :=
  if startswith "/" b then b
  else match a with
       | EmptyString => b
       | _ => if endswith_char "/" a then String.append a b
              else String.append a (String "/" b)
       end.

End Py.

Export Py.

(** ** pandas data frames *)

Module Pandas.

(** A frame: the row labels and, by name, the columns.  In a well-formed
    frame every column has one cell per row label. *)
Record DataFrame : Type := mkDF {
  index : list Z;
  columns : gmap string (list value)
}.

(** [pd.DataFrame()] *)
Definition empty_frame : DataFrame := mkDF [] ∅.

(** [len(df)] *)
Definition nrows (df : DataFrame) : nat := length (index df).

Definition well_formed (df : DataFrame) : Prop :=
  map_Forall (fun _ col => length col = nrows df) (columns df).

#[export] Instance well_formed_dec df : Decision (well_formed df).
Proof. unfold well_formed. apply _. Defined.

(** [df[c]] *)
Definition getcol (df : DataFrame) (c : string) : result (list value) :=
  match columns df !! c with
  | Some col => Ok col
  | None => Raise KeyError
  end.

(** [df.c], the attribute spelling of a column read. *)
Definition getattr (df : DataFrame) (c : string) : result (list value) :=
  match columns df !! c with
  | Some col => Ok col
  | None => Raise AttributeError
  end.

(** [df[c] = col], for a column [col] computed from [df] itself: it carries
    the row labels of [df], so pandas stores its cells as they are. *)
Definition setcol (df : DataFrame) (c : string) (col : list value) : DataFrame :=
  mkDF (index df) (<[c := col]> (columns df)).

(** [df.c = col]: pandas stores into the column when the frame has one of
    that name, and otherwise sets a plain attribute on the object, which
    leaves the table as it is. *)
Definition setattr (df : DataFrame) (c : string) (col : list value) : DataFrame :=
  match columns df !! c with
  | Some _ => setcol df c col
  | None => df
  end.

(** [df[c] = v] for a scalar [v]. *)
Definition setcol_scalar (df : DataFrame) (c : string) (v : value) : DataFrame :=
  setcol df c (replicate (nrows df) v).

(** [df[c] = df[c].<method>], cell by cell. *)
Definition update_col (f : list value -> list value) (c : string)
    (df : DataFrame) : result DataFrame :=
  col ← getcol df c; mret (setcol df c (f col)).

(** Selection by a boolean mask, as in [df.loc[mask]]. *)
Fixpoint select {A : Type} (mask : list bool) (l : list A) : list A :=
  match mask, l with
  | b :: mask', x :: l' => if b then x :: select mask' l' else select mask' l'
  | _, _ => []
  end.

Definition loc_rows (mask : list bool) (df : DataFrame) : DataFrame :=
  mkDF (select mask (index df)) (select mask <$> columns df).

(** A cell-by-cell rewrite of the whole table. *)
Definition applymap (f : value -> value) (df : DataFrame) : DataFrame :=
  mkDF (index df) ((fun col : list value => f <$> col) <$> columns df).

(** A column a frame lacks reads as missing in every row when frames are
    stacked. *)
Definition column_or_missing (n : nat) (o : option (list value)) : list value :=
  default (replicate n NA) o.

(** [a.append(b)], [pd.concat([a, b])]: the rows of [a], then the rows of
    [b], over the union of their columns; no row label is changed. *)
Definition append_frames (a b : DataFrame) : DataFrame :=
  mkDF (index a ++ index b)
       (merge (fun oa ob =>
                 match oa, ob with
                 | None, None => None
                 | _, _ => Some (column_or_missing (nrows a) oa ++
                                 column_or_missing (nrows b) ob)
                 end)
              (columns a) (columns b)).

(** [pd.concat(frames)] *)
Definition concat (frames : list DataFrame) : DataFrame :=
  foldl append_frames empty_frame frames.

(** [df.dropna(subset=cols)]: keeps the rows in which no cell of the listed
    columns is missing; a listed column the frame lacks is a [KeyError]. *)
Definition notna_mask (cols : list (list value)) (n : nat) : list bool :=
  foldl (fun mask col => zip_with andb mask ((fun v => negb (isna v)) <$> col))
        (replicate n true) cols.

Definition dropna (subset : list string) (df : DataFrame) : result DataFrame :=
  cols ← mapM (getcol df) subset;
  mret (loc_rows (notna_mask cols (nrows df)) df).

(** int64 to binary64, as numpy converts. *)
Definition float_of_Z (z : Z) : float :=
  if z <? 0 then PrimFloat.opp (PrimFloat.of_uint63 (Uint63.of_Z (- z)))
  else PrimFloat.of_uint63 (Uint63.of_Z z).

(** [cell == n] for an integer literal [n], with Python's numeric tower. *)
Definition equals_int (n : Z) (v : value) : bool :=
  match v with
  | Int z => z =? n
  | Num f => PrimFloat.eqb f (float_of_Z n)
  | Bool b => (if b then 1 else 0) =? n
  | _ => false
  end.

(** [cell == s] for a string literal [s]. *)
Definition equals_str (s : string) (v : value) : bool :=
  match v with
  | Str t => String.eqb t s
  | _ => false
  end.

(** [col.replace(to_replace, value)] for the cells a test [hit] picks. *)
Definition replace_where (hit : value -> bool) (new : value) (col : list value)
  : list value :=
  (fun v => if hit v then new else v) <$> col.

(** [col.replace(to_replace=s, value=None)]: with no replacement value
    pandas pads, that is, a cell equal to [s] takes the value of the nearest
    cell above it that is not equal to [s], and stays as it is when there is
    none. *)
Fixpoint replace_pad (hit : value -> bool) (prev : option value)
    (col : list value) : list value :=
  match col with
  | [] => []
  | v :: rest =>
      if hit v then default v prev :: replace_pad hit prev rest
      else v :: replace_pad hit (Some v) rest
  end.

(** [col.fillna(v)] *)
Definition fillna (new : value) (col : list value) : list value :=
  (fun v => if isna v then new else v) <$> col.

(** [col.str.<method>()]: a cell that is not a string comes out missing. *)
Definition str_method (f : string -> string) (v : value) : value :=
  match v with
  | Str s => Str (f s)
  | _ => NA
  end.

(** [col.replace(pattern, repl, regex=True)] acts inside the string cells
    and leaves every other cell alone. *)
Definition regex_replace (f : string -> string) (v : value) : value :=
  match v with
  | Str s => Str (f s)
  | _ => v
  end.

(** "The same element", as [unique] and [replace] see it: strings by their
    characters, missing cells all alike. *)
Definition same_cell (a b : value) : bool :=
  match a, b with
  | NA, NA => true
  | Str s, Str t => String.eqb s t
  | Int x, Int y => x =? y
  | Num f, Num g => PrimFloat.eqb f g || PrimFloat.is_nan f && PrimFloat.is_nan g
  | Bool x, Bool y => Bool.eqb x y
  | Date y1 m1 d1, Date y2 m2 d2 => (y1 =? y2) && (m1 =? m2) && (d1 =? d2)
  | _, _ => false
  end.

(** [col.unique()] *)
Fixpoint unique (col : list value) : list value :=
  match col with
  | [] => []
  | v :: rest => v :: List.filter (fun w => negb (same_cell v w)) (unique rest)
  end.

(** [df[cols]] for a list of names: the listed columns and nothing else; a
    name the frame lacks is a [KeyError]. *)
Definition getcols (df : DataFrame) (cols : list string) : result DataFrame :=
  picked ← mapM (fun c => col ← getcol df c; mret (c, col)) cols;
  mret (mkDF (index df) (list_to_map picked)).

(** [df.dropna()]: keeps the rows without a missing cell. *)
Definition dropna_all (df : DataFrame) : DataFrame :=
  loc_rows (notna_mask (map_to_list (columns df)).*2 (nrows df)) df.

(** [df[col.str.isnumeric()]]: the mask has a boolean for every string
    cell; pandas refuses a mask with a hole in it, which is what a cell
    that is not a string leaves. *)
Definition isnumeric_mask (col : list value) : result (list bool) :=
  mapM (fun v => match v with
                 | Str s => Ok (isnumeric s)
                 | _ => Raise ValueError
                 end) col.

End Pandas.

Export Pandas.

(** ** What the two modules take from outside

    [pudl.constants], [pudl.helpers], Python's [re] and the Excel reader are
    not part of the sources under study.  Each is an interface here; the
    properties below hold for every implementation of it, under the
    assumptions their statements spell out. *)

Module External.

(** Python's [re] on column names: [search pat s] tells whether [pat]
    matches somewhere in [s], [delete pat s] is [re.sub(pat, '', s)]. *)
Class Regex : Type := {
  search : string -> string -> bool;
  delete : string -> string -> string
}.

(** The Excel reader: [pd.read_excel(book, sheetname=n, skiprows=k)]. *)
Class Excel : Type := {
  workbook : Type;
  read_excel : workbook -> Z -> Z -> DataFrame
}.

(** [pudl.constants], as far as [eia923.py] reads it: the sheet number and
    the number of rows to skip per (year, page), the pages these two tables
    list as columns, and per page and year the dictionary from canonical
    column names to the names used that year.  A lookup outside a table is
    a [KeyError]. *)
Class Constants : Type := {
  tab_map_eia923 : Z -> string -> option Z;
  skiprows_eia923 : Z -> string -> option Z;
  tab_map_columns : list string;
  page_map_eia923 : string -> Z -> option (list (string * string))
}.

(** A categorical synonym map: in iteration order, each canonical key with
    the strings that stand for it. *)
Definition stringmap : Type := list (string * list string).

(** [pudl.helpers] and the numpy casts, as far as [transform/eia860.py]
    calls them.  The frame helpers are total here; a cast to [int] that
    numpy refuses is [None]. *)
Class Helpers : Type := {
  convert_to_date : DataFrame -> DataFrame;
  month_year_to_date : DataFrame -> DataFrame;
  strip_lower : DataFrame -> list string -> DataFrame;
  cleanstrings : list value -> stringmap -> list value;
  fuel_type_eia860_simple_map : stringmap;
  astype_int : value -> option value;
  astype_str : value -> value
}.

(** Modelled from the spec: [pudl.helpers.fix_eia_na] is not under src/.
    The spec has it replace "cells holding a single period character or
    pure whitespace with an explicit missing-value marker, uniformly across
    all columns"; the call sites add the empty string ("Replace empty
    strings, whitespace, and '.' fields with real NA values"). *)
Definition is_eia_na (s : string) : bool :=
  String.eqb s "." || all_chars isspace s.

Definition fix_eia_na_cell (v : value) : value :=
  match v with
  | Str s => if is_eia_na s then NA else v
  | _ => v
  end.

Definition fix_eia_na (df : DataFrame) : DataFrame :=
  applymap fix_eia_na_cell df.

(** A helper is a bystander of a column when it leaves the rows and that
    column as they are. *)
Definition bystander (h : DataFrame -> DataFrame) (c : string) : Prop :=
  forall df, index (h df) = index df /\ columns (h df) !! c = columns df !! c.

End External.

Export External.

(** ** [pudl/eia923.py] *)

Module Eia923.

(** *** Column renaming, filtering and joining *)

(** [df.columns = df.columns.map(f)], [df.rename(columns=...)].  The model
    keeps one column per name. *)
Definition rename_columns (f : string -> string) (df : DataFrame) : DataFrame :=
  mkDF (index df) (kmap (M2 := gmap string) f (columns df)).

(** [df.filter(regex=pat)], for a test on names. *)
Definition filter_columns (keep : string -> bool) (df : DataFrame) : DataFrame :=
  mkDF (index df) (filter (fun kv => keep kv.1 = true) (columns df)).

(** [df.drop(other.columns, axis=1)] *)
Definition drop_columns_of (other df : DataFrame) : DataFrame :=
  mkDF (index df) (columns df ∖ columns other).

(** The rows of a positional take, [col.take(pos)]. *)
Definition take_rows {A : Type} (d : A) (pos : list nat) (col : list A) : list A :=
  (fun i => default d (col !! i)) <$> pos.

(** The positions of the rows of [labels] that carry label [l]. *)
Fixpoint positions_from (start : nat) (l : Z) (labels : list Z) : list nat :=
  match labels with
  | [] => []
  | l' :: rest =>
      if bool_decide (l' = l) then start :: positions_from (S start) l rest
      else positions_from (S start) l rest
  end.

(** The row pairs of an inner join on the row labels: every row of the left
    frame with every row of the right frame that has the same label. *)
Fixpoint join_from (start : nat) (left right : list Z) : list (nat * nat) :=
  match left with
  | [] => []
  | l :: rest =>
      ((fun j => (start, j)) <$> positions_from 0 l right)
        ++ join_from (S start) rest right
  end.

Definition join_pairs (left right : list Z) : list (nat * nat) :=
  join_from 0 left right.

(** The same pairs in the order of the labels: the labels of the left frame
    in ascending order and, under one label, every left row, in row order,
    with every right row, in row order. *)
Definition join_sorted (left right : list Z) : list (nat * nat) :=
  flat_map (fun l =>
              flat_map (fun i => (fun j => (i, j)) <$> positions_from 0 l right)
                       (positions_from 0 l left))
           (merge_sort Z.le (remove_dups left)).

(** The order in which [Index.join] returns the pairs of an inner join.
    When the labels of both frames are pairwise distinct the rows follow
    the left frame.  When a label is repeated on either side the join goes
    through the path for non-unique indexes, which sorts by label. *)
Definition join_order (left right : list Z) : list (nat * nat) :=
  if bool_decide (NoDup left /\ NoDup right) then join_pairs left right
  else join_sorted left right.

(** [a.merge(b, left_index=True, right_index=True)]: the inner join on the
    row labels; a column name the two frames share comes out twice, with
    [_x] for the left one and [_y] for the right one. *)
Definition suffixed (other : gmap string (list value)) (suffix c : string)
  : string :=
  match other !! c with
  | Some _ => String.append c suffix
  | None => c
  end.

Definition merge_on_index (a b : DataFrame) : DataFrame :=
  let pairs := join_order (index a) (index b) in
  let from_a := (fun col : list value => take_rows NA pairs.*1 col) <$> columns a in
  let from_b := (fun col : list value => take_rows NA pairs.*2 col) <$> columns b in
  mkDF (take_rows 0 pairs.*1 (index a))
       (kmap (M2 := gmap string) (suffixed (columns b) "_x") from_a
          ∪ kmap (M2 := gmap string) (suffixed (columns a) "_y") from_b).

(** *** [get_eia923_column_map] *)

Section Registry.
Context `{Constants}.

(** A dictionary or table lookup. *)
Definition lookup_or_KeyError {A : Type} (o : option A) : result A :=
  match o with
  | Some a => Ok a
  | None => Raise KeyError
  end.

(** The keys of [page_to_df]. *)
Definition known_pages : list string :=
  ["generation_fuel"; "stocks"; "boiler_fuel"; "generator";
   "fuel_receipts_costs"; "plant_frame"].

(** The dictionary [d] maps canonical names to that year's names;
    [column_map] is its inverse, a later entry overwriting an earlier one
    with the same value. *)
Definition invert (d : list (string * string)) : gmap string string :=
  foldl (fun m kv => <[kv.2 := kv.1]> m) ∅ d.

Definition get_eia923_column_map (page : string) (year : Z)
  : result (Z * Z * gmap string string) :=
  sheetname ← lookup_or_KeyError (tab_map_eia923 year page);
  skiprows ← lookup_or_KeyError (skiprows_eia923 year page);
  _ ← (if bool_decide (page ∈ known_pages) then Ok tt else Raise KeyError);
  d ← lookup_or_KeyError (page_map_eia923 page year);
  mret (sheetname, skiprows, invert d).

End Registry.

(** *** [get_eia923_page] *)

(** [name.replace('[^0-9a-zA-Z]+', ' ')]: every run of characters that are
    neither digits nor letters becomes one space. *)
Definition isalnum (c : ascii) : bool := isdigit c || isupper c || islower c.

Fixpoint squash_non_alnum (in_run : bool) (s : string) : string :=
  match s with
  | EmptyString => EmptyString
  | String c r =>
      if isalnum c then String c (squash_non_alnum false r)
      else if in_run then squash_non_alnum true r
      else String " " (squash_non_alnum true r)
  end.

Definition underscore (c : ascii) : ascii :=
  if Ascii.eqb c " " then "_"%char else c.

Definition clean_column_name (s : string) : string :=
  map_chars underscore (lower (strip (squash_non_alnum false s))).

(** [c[:8] == 'reserved'] *)
Definition is_reserved (c : string) : bool :=
  String.eqb (take_chars 8 c) "reserved".

(** [min(years)] *)
Definition py_min (l : list Z) : result Z :=
  match l with
  | [] => Raise ValueError
  | x :: rest => Ok (foldl Z.min x rest)
  end.

Section Page.
Context `{Constants} `{Excel}.

Definition apply_map (m : gmap string string) (c : string) : string :=
  default c (m !! c).

(** The body of the loop up to the row filter: one year's sheet under
    canonical column names. *)
Definition canonical_sheet (page : string) (eia923_xlsx : gmap Z workbook)
    (yr : Z) : result DataFrame :=
  '(sheetname, skiprows, column_map) ← get_eia923_column_map page yr;
  book ← lookup_or_KeyError (eia923_xlsx !! yr);
  let newdata := read_excel book sheetname skiprows in
  let newdata := rename_columns clean_column_name newdata in
  let newdata := filter_columns (fun c => negb (is_reserved c)) newdata in
  let newdata :=
    if String.eqb page "stocks" then setcol_scalar newdata "year" (Int yr)
    else newdata in
  let newdata := rename_columns (apply_map column_map) newdata in
  let newdata :=
    if String.eqb page "stocks"
    then rename_columns
           (apply_map {[ "unnamed_0" := "census_division_and_state" ]}) newdata
    else newdata in
  mret newdata.

(** [newdata.loc[newdata['plant_id'] != 99999]] *)
Definition drop_state_rows (newdata : DataFrame) : result DataFrame :=
  ids ← getcol newdata "plant_id";
  mret (loc_rows ((fun v => negb (equals_int 99999 v)) <$> ids) newdata).

Definition read_year (page : string) (eia923_xlsx : gmap Z workbook)
    (df : DataFrame) (yr : Z) : result DataFrame :=
  newdata ← canonical_sheet page eia923_xlsx yr;
  newdata ← (if negb (String.eqb page "stocks") then drop_state_rows newdata
             else Ok newdata);
  mret (append_frames df newdata).

Fixpoint read_years (page : string) (eia923_xlsx : gmap Z workbook)
    (df : DataFrame) (years : list Z) : result DataFrame :=
  match years with
  | [] => Ok df
  | yr :: rest =>
      df' ← read_year page eia923_xlsx df yr;
      read_years page eia923_xlsx df' rest
  end.

Definition get_eia923_page (page : string) (eia923_xlsx : gmap Z workbook)
    (years : list Z) : result DataFrame :=
  first ← py_min years;
  _ ← assert (2009 <=? first);
  _ ← assert (bool_decide (page ∈ tab_map_columns)
               && negb (String.eqb page "year_index"));
  read_years page eia923_xlsx empty_frame years.

End Page.

(** *** [yearly_to_monthly_eia923] *)

Section Monthly.
Context `{Regex}.

(** One turn of the loop over [md]: the state is the pair of [yearly] and
    [monthly]. *)
Definition month_step (state : DataFrame * DataFrame) (entry : Z * string)
  : DataFrame * DataFrame :=
  let '(yearly, monthly) := state in
  let '(m, pat) := entry in
  let this_month := filter_columns (search pat) yearly in
  let yearly := drop_columns_of this_month yearly in
  let this_month := rename_columns (delete pat) this_month in
  let this_month := setcol_scalar this_month "month" (Int m) in
  (yearly, concat [monthly; this_month]).

(** The loop; [md] is the dictionary in iteration order: month number,
    pattern. *)
Definition month_loop (df : DataFrame) (md : list (Z * string))
  : DataFrame * DataFrame :=
  foldl month_step (df, empty_frame) md.

Definition yearly_to_monthly_eia923 (df : DataFrame) (md : list (Z * string))
  : DataFrame :=
  let '(yearly, monthly) := month_loop df md in
  merge_on_index yearly monthly.

End Monthly.

(** *** [cleanstringsEIA923] *)

(** [re.sub('[\s+]', ' ', s)]: the pattern is a character class, one
    whitespace character or one plus sign, so the substitution works one
    character at a time. *)
Definition in_class (c : ascii) : bool := isspace c || Ascii.eqb c "+".

Definition blank_class (c : ascii) : ascii :=
  if in_class c then " "%char else c.

(** [field.replace(synonyms, k)] *)
Definition replace_synonyms (kv : string * list string) (v : value) : value :=
  match v with
  | Str s => if bool_decide (s ∈ kv.2) then Str kv.1 else v
  | _ => v
  end.

Definition is_key (keys : list string) (v : value) : bool :=
  match v with
  | Str s => bool_decide (s ∈ keys)
  | _ => false
  end.

(** [setdiff1d(values, keys)]: the values that are not keys. *)
Definition setdiff1d (values : list value) (keys : list string) : list value :=
  List.filter (fun v => negb (is_key keys v)) values.

(** [unmapped] is [None] when the caller passes Python's [None] (the
    default), and [Some u] for any other replacement [u], [NaN] included. *)
Definition cleanstringsEIA923 (field : list value) (map : stringmap)
    (unmapped : option value) : list value :=
  let field := str_method (fun s => strip (upper s)) <$> field in
  let field := regex_replace (map_chars blank_class) <$> field in
  let field :=
    foldl (fun fld kv => replace_synonyms kv <$> fld) field map in
  match unmapped with
  | None => field
  | Some u =>
      let badstrings := setdiff1d (unique field) map.*1 in
      replace_where (fun v => existsb (same_cell v) badstrings) u field
  end.

(** *** [datadir], [get_eia923_file], [get_eia923_xlsx] *)

(** What the file search takes from outside: the directory
    [pudl.settings.EIA923_DATA_DIR], [glob.glob] with its matches in order,
    and [pd.ExcelFile]. *)
Class Files `{Excel} : Type := {
  EIA923_DATA_DIR : string;
  glob : string -> list string;
  ExcelFile : string -> workbook
}.

(** [paths[0]]: the first item, or [IndexError] when there is none.  No
    other function of the two modules raises [IndexError], so it is an
    outcome of its own here and not one of the exceptions of [result]. *)
Inductive subscript (A : Type) : Type :=
| Item (a : A)
| IndexError.

Arguments Item {A} a.
Arguments IndexError {A}.

Section FileSearch.
Context `{Files}.

Definition datadir (year : Z) : result string :=
  _ ← assert (bool_decide (2001 <= year < 2017));
  if year <? 2008
  then mret (path_join EIA923_DATA_DIR
               (String.append "f906920_" (format_int year)))
  else mret (path_join EIA923_DATA_DIR
               (String.append "f923_" (format_int year))).

Definition get_eia923_file (yr : Z) : result (subscript string) :=
  _ ← assert (2008 <? yr);
  dir ← datadir yr;
  mret (match glob (path_join dir "*2_3_4*") with
        | path :: _ => Item path
        | [] => IndexError
        end).

(** The loop of [get_eia923_xlsx], from the dictionary built so far. *)
Fixpoint get_eia923_xlsx_from (eia923_xlsx : gmap Z workbook) (years : list Z)
  : result (subscript (gmap Z workbook)) :=
  match years with
  | [] => Ok (Item eia923_xlsx)
  | yr :: rest =>
      file ← get_eia923_file yr;
      match file with
      | Item path =>
          get_eia923_xlsx_from (<[yr := ExcelFile path]> eia923_xlsx) rest
      | IndexError => Ok IndexError
      end
  end.

Definition get_eia923_xlsx (years : list Z)
  : result (subscript (gmap Z workbook)) :=
  get_eia923_xlsx_from ∅ years.

End FileSearch.

End Eia923.

(** ** [pudl/transform/eia860.py] *)

Module Eia860.

(** The raw pages and the accumulator of transformed tables are
    dictionaries from names to frames. *)
Abbreviation tables := (gmap string DataFrame).

Definition lookup_table (dfs : tables) (name : string) : result DataFrame :=
  match dfs !! name with
  | Some df => Ok df
  | None => Raise KeyError
  end.

(** Running a list of column updates, stopping at the first error. *)
Fixpoint for_each (step : string -> DataFrame -> result DataFrame)
    (cols : list string) (df : DataFrame) : result DataFrame :=
  match cols with
  | [] => Ok df
  | c :: rest => df' ← step c df; for_each step rest df'
  end.

(** [df.c = df.c.<method>] *)
Definition update_attr (f : list value -> list value) (c : string)
    (df : DataFrame) : result DataFrame :=
  col ← getattr df c; mret (setattr df c (f col)).

(** *** The boolean fix shared by three transformers

    [df[column] = df[column].fillna('False')] and then
    [df[column] = df[column].replace(to_replace=["Y", "N"],
    value=[True, False])]. *)
Definition yes_no (v : value) : value :=
  if equals_str "Y" v then Bool true
  else if equals_str "N" v then Bool false
  else v.

Definition fix_boolean_column (column : string) (df : DataFrame)
  : result DataFrame :=
  df ← update_col (fillna (Str "False")) column df;
  update_col (fmap yes_no) column df.

(** [col.replace(to_replace='X', value='N')] *)
Definition x_to_n : list value -> list value :=
  replace_where (equals_str "X") (Str "N").

(** [col.replace(to_replace='U', value=None)] *)
Definition u_to_none : list value -> list value :=
  replace_pad (equals_str "U") None.

(** [col.replace(to_replace=[" ", 0], value=np.nan)] *)
Definition blank_or_zero (v : value) : bool :=
  equals_str " " v || equals_int 0 v.

Section Transformers.
Context `{Helpers}.

(** [df[c] = df[c].astype(int)]; a refused cast is a [ValueError] (numpy
    raises [TypeError] for some cells, which the model does not tell
    apart). *)
Definition astype_int_column (c : string) (df : DataFrame) : result DataFrame :=
  col ← getcol df c;
  match mapM astype_int col with
  | Some col' => Ok (setcol df c col')
  | None => Raise ValueError
  end.

(** [df[c] = df[c].astype(str)] *)
Definition astype_str_column (c : string) (df : DataFrame) : result DataFrame :=
  update_col (fmap astype_str) c df.

(** *** [ownership] *)

(** [col.dt.year]: the year of each timestamp, [NaN] where the cell is
    [NaT]; the accessor refuses a column of anything else. *)
Definition dt_year (col : list value) : result (list (option Z)) :=
  mapM (fun v => match v with
                 | Date y _ _ => Ok (Some y)
                 | NA => Ok None
                 | _ => Raise AttributeError
                 end) col.

(** [min(series)], Python's built-in, over integers and [NaN]: a later item
    replaces the running minimum when it compares below it, and no
    comparison with [NaN] holds. *)
Definition below (a b : option Z) : bool :=
  match a, b with
  | Some x, Some y => x <? y
  | _, _ => false
  end.

Definition builtin_min (l : list (option Z)) : result (option Z) :=
  match l with
  | [] => Raise ValueError
  | x :: rest => Ok (foldl (fun m y => if below y m then y else m) x rest)
  end.

(** [m >= 2011] *)
Definition at_least (bound : Z) (m : option Z) : bool :=
  match m with
  | Some y => bound <=? y
  | None => false
  end.

(** [cell / 100] *)
Definition div100 (v : value) : result value :=
  match v with
  | NA => Ok NA
  | Num f => Ok (Num (PrimFloat.div f (float_of_Z 100)))
  | Int z => Ok (Num (PrimFloat.div (float_of_Z z) (float_of_Z 100)))
  | Bool b => Ok (Num (PrimFloat.div (float_of_Z (if b then 1 else 0))
                                     (float_of_Z 100)))
  | Str _ | Date _ _ _ => Raise TypeError
  end.

(** [o_df.loc[years == 2011, c] = o_df.loc[years == 2011, c] / 100]: the
    cells of the 2011 rows are divided, the others are not touched. *)
Fixpoint rescale_2011 (years : list (option Z)) (col : list value)
  : result (list value) :=
  match years, col with
  | y :: years', v :: col' =>
      v' ← (if bool_decide (y = Some 2011) then div100 v else Ok v);
      rest ← rescale_2011 years' col';
      mret (v' :: rest)
  | _, _ => Ok col
  end.

Definition ownership (eia860_dfs eia860_transformed_dfs : tables)
  : result tables :=
  o_df ← lookup_table eia860_dfs "ownership";
  let o_df := fix_eia_na o_df in
  let o_df := convert_to_date o_df in
  dates ← getattr o_df "report_date";
  years ← dt_year dates;
  first ← builtin_min years;
  _ ← assert (at_least 2011 first);
  fraction ← getcol o_df "fraction_owned";
  fraction ← rescale_2011 years fraction;
  let o_df := setcol o_df "fraction_owned" fraction in
  o_df ← astype_int_column "owner_utility_id_eia" o_df;
  o_df ← astype_int_column "utility_id_eia" o_df;
  o_df ← astype_int_column "plant_id_eia" o_df;
  mret (<["ownership_eia860" := o_df]> eia860_transformed_dfs).

(** *** [generators] *)

(** The numeric columns in which a zero stands for "not applicable". *)
Definition columns_to_fix : list string :=
  ["planned_retirement_month"; "planned_retirement_year";
   "planned_uprate_month"; "planned_uprate_year";
   "other_modifications_month"; "other_modifications_year";
   "planned_derate_month"; "planned_derate_year";
   "planned_repower_month"; "planned_repower_year";
   "planned_net_summer_capacity_derate_mw";
   "planned_net_summer_capacity_uprate_mw";
   "planned_net_winter_capacity_derate_mw";
   "planned_net_winter_capacity_uprate_mw";
   "planned_new_capacity_mw"; "nameplate_power_factor"; "minimum_load_mw";
   "winter_capacity_mw"; "summer_capacity_mw"].

(** [boolean_columns_to_fix] of [generators]. *)
Definition generators_boolean_columns : list string :=
  ["duct_burners"; "multiple_fuels"; "deliver_power_transgrid";
   "syncronized_transmission_grid"; "solid_fuel_gasification";
   "pulverized_coal_tech"; "fluidized_bed_tech"; "subcritical_tech";
   "supercritical_tech"; "ultrasupercritical_tech"; "carbon_capture";
   "stoker_tech"; "other_combustion_tech"; "cofire_fuels"; "switch_oil_gas";
   "heat_bypass_recovery"; "associated_combined_heat_power";
   "planned_modifications"; "other_planned_modifications";
   "uprate_derate_during_year"; "previously_canceled"].

(** The three tagged sub-tables in the order they are stacked: existing,
    proposed, retired. *)
Definition tagged (gp_df ge_df gr_df : DataFrame) : list DataFrame :=
  [setcol_scalar ge_df "operational_status_code" (Str "existing");
   setcol_scalar gp_df "operational_status_code" (Str "proposed");
   setcol_scalar gr_df "operational_status_code" (Str "retired")].

(** The stacked table without its unidentifiable records, with the
    missing-data markers and the zeros that stand for "not applicable"
    turned into missing cells. *)
Definition generators_stacked (gp_df ge_df gr_df : DataFrame)
  : result DataFrame :=
  let gens_df := concat (tagged gp_df ge_df gr_df) in
  gens_df ← dropna ["generator_id"; "plant_id_eia"] gens_df;
  let gens_df := fix_eia_na gens_df in
  for_each (update_col (replace_where blank_or_zero NA))
           columns_to_fix gens_df.

(** The "X" and "U" rewrites and the boolean fixes. *)
Definition generators_flags (gens_df : DataFrame) : result DataFrame :=
  gens_df ← update_attr x_to_n "duct_burners" gens_df;
  gens_df ← update_attr x_to_n "heat_bypass_recovery" gens_df;
  bypass ← getattr gens_df "heat_bypass_recovery";
  let gens_df := setattr gens_df "syncronized_transmission_grid" (x_to_n bypass) in
  gens_df ← update_attr u_to_none "multiple_fuels" gens_df;
  gens_df ← update_attr u_to_none "switch_oil_gas" gens_df;
  for_each fix_boolean_column generators_boolean_columns gens_df.

(** The dates, the fuel type, the identifier casts. *)
Definition generators_finish (gens_df : DataFrame) : result DataFrame :=
  let gens_df := month_year_to_date gens_df in
  codes ← getcol gens_df "energy_source_code_1";
  let gens_df :=
    setcol gens_df "fuel_type_code_pudl"
           (cleanstrings codes fuel_type_eia860_simple_map) in
  let gens_df :=
    strip_lower gens_df
      ["rto_iso_lmp_node_id"; "rto_iso_location_wholesale_reporting_id"] in
  gens_df ← astype_int_column "plant_id_eia" gens_df;
  gens_df ← astype_str_column "generator_id" gens_df;
  gens_df ← astype_int_column "utility_id_eia" gens_df;
  mret (convert_to_date gens_df).

Definition generators (eia860_dfs eia860_transformed_dfs : tables)
  : result tables :=
  gp_df ← lookup_table eia860_dfs "generator_proposed";
  ge_df ← lookup_table eia860_dfs "generator_existing";
  gr_df ← lookup_table eia860_dfs "generator_retired";
  gens_df ← generators_stacked gp_df ge_df gr_df;
  gens_df ← generators_flags gens_df;
  gens_df ← generators_finish gens_df;
  mret (<["generators_eia860" := gens_df]> eia860_transformed_dfs).

(** *** [plants] *)

(** [boolean_columns_to_fix] of [plants]. *)
Definition plants_boolean_columns : list string :=
  ["ferc_cogen_status"; "ferc_small_power_producer";
   "ferc_exempt_wholesale_generator"; "ash_impoundment";
   "ash_impoundment_lined"; "energy_storage"; "natural_gas_storage";
   "liquefied_natural_gas_storage"].

Definition plants (eia860_dfs eia860_transformed_dfs : tables)
  : result tables :=
  p_df ← lookup_table eia860_dfs "plant";
  let p_df := fix_eia_na p_df in
  p_df ← astype_str_column "zip_code" p_df;
  p_df ← update_attr x_to_n "ash_impoundment_lined" p_df;
  p_df ← update_attr x_to_n "natural_gas_storage" p_df;
  p_df ← update_attr x_to_n "liquefied_natural_gas_storage" p_df;
  p_df ← for_each fix_boolean_column plants_boolean_columns p_df;
  p_df ← astype_int_column "plant_id_eia" p_df;
  p_df ← astype_int_column "utility_id_eia" p_df;
  p_df ← astype_int_column "primary_purpose_naics_id" p_df;
  let p_df := convert_to_date p_df in
  mret (<["plants_eia860" := p_df]> eia860_transformed_dfs).

(** *** [utilities] *)

(** [boolean_columns_to_fix] of [utilities]. *)
Definition utilities_boolean_columns : list string :=
  ["plants_reported_owner"; "plants_reported_operator";
   "plants_reported_asset_manager"; "plants_reported_other_relationship"].

(** [col.replace({'QB': 'QC', 'Y': 'NY'})] *)
Definition fix_state (v : value) : value :=
  if equals_str "QB" v then Str "QC"
  else if equals_str "Y" v then Str "NY"
  else v.

Definition utilities (eia860_dfs eia860_transformed_dfs : tables)
  : result tables :=
  u_df ← lookup_table eia860_dfs "utility";
  let u_df := fix_eia_na u_df in
  state ← getattr u_df "state";
  let u_df := setcol u_df "state" (str_method upper <$> state) in
  state ← getattr u_df "state";
  let u_df := setcol u_df "state" (fix_state <$> state) in
  u_df ← for_each fix_boolean_column utilities_boolean_columns u_df;
  let u_df := convert_to_date u_df in
  u_df ← astype_int_column "utility_id_eia" u_df;
  mret (<["utilities_eia860" := u_df]> eia860_transformed_dfs).

End Transformers.

(** *** [boiler_generator_assn] *)

(** [df.duplicated()]: for each row, whether it repeats an earlier row.
    pandas compares cells through the dtype of their column, which a frame
    here does not carry, so the test is taken from outside. *)
Class Duplicates : Type := {
  duplicated : DataFrame -> list bool
}.

(** [df.drop_duplicates()] *)
Definition drop_duplicates `{Duplicates} (df : DataFrame) : DataFrame :=
  loc_rows (negb <$> duplicated df) df.

Definition b_g_cols : list string :=
  ["report_year"; "utility_id_eia"; "plant_id_eia"; "boiler_id";
   "generator_id"].

Section Association.
Context `{Helpers} `{Duplicates}.

Definition boiler_generator_assn (eia860_dfs eia860_transformed_dfs : tables)
  : result tables :=
  b_g_df ← lookup_table eia860_dfs "boiler_generator_assn";
  b_g_df ← getcols b_g_df b_g_cols;
  b_g_df ← astype_str_column "utility_id_eia" b_g_df;
  ids ← getattr b_g_df "utility_id_eia";
  mask ← isnumeric_mask ids;
  let b_g_df := loc_rows mask b_g_df in
  b_g_df ← astype_int_column "plant_id_eia" b_g_df;
  b_g_df ← astype_str_column "generator_id" b_g_df;
  b_g_df ← astype_str_column "boiler_id" b_g_df;
  let b_g_df := dropna_all (drop_duplicates b_g_df) in
  let b_g_df := convert_to_date b_g_df in
  mret (<["boiler_generator_assn_eia860" := b_g_df]> eia860_transformed_dfs).

(** *** [transform] *)

(** [eia860_transform_functions], in the order of the dictionary. *)
Definition eia860_transform_functions
  : list (string * (tables -> tables -> result tables)) :=
  [("ownership_eia860", ownership);
   ("generators_eia860", generators);
   ("plants_eia860", plants);
   ("boiler_generator_assn_eia860", boiler_generator_assn);
   ("utilities_eia860", utilities)].

(** One turn of the loop: the transformer runs when its table is asked
    for, and writes into the dictionary of transformed tables. *)
Definition transform_step (eia860_raw_dfs : tables) (eia860_tables : list string)
    (state : result tables)
    (entry : string * (tables -> tables -> result tables)) : result tables :=
  eia860_transformed_dfs ← state;
  if bool_decide (entry.1 ∈ eia860_tables)
  then entry.2 eia860_raw_dfs eia860_transformed_dfs
  else Ok eia860_transformed_dfs.

Definition transform (eia860_raw_dfs : tables) (eia860_tables : list string)
  : result tables :=
  if bool_decide (eia860_raw_dfs = ∅) then Ok ∅
  else foldl (transform_step eia860_raw_dfs eia860_tables) (Ok ∅)
             eia860_transform_functions.

End Association.

End Eia860.

(** ** Reference instances of the interfaces

    They stand in for the libraries in the worked examples. *)

Module Reference.

(** A pattern made of letters, digits and underscores matches itself and
    nothing else: searching is a substring test, and deleting removes the
    occurrences from left to right. *)
Fixpoint contains (p s : string) : bool :=
  startswith p s ||
  match s with
  | EmptyString => false
  | String _ r => contains p r
  end.

Fixpoint remove_from (p : string) (skip : nat) (s : string) : string :=
  match s with
  | EmptyString => EmptyString
  | String c r =>
      match skip with
      | S k => remove_from p k r
      | O =>
          if startswith p s then remove_from p (Nat.pred (String.length p)) r
          else String c (remove_from p 0 r)
      end
  end.

Definition remove_all (p s : string) : string :=
  match p with
  | EmptyString => s
  | _ => remove_from p 0 s
  end.

Definition literal_regex : Regex :=
  {| search := contains; delete := remove_all |}.

(** The twelve month patterns. *)
Definition month_dict : list (Z * string) :=
  [(1, "_january"); (2, "_february"); (3, "_march"); (4, "_april");
   (5, "_may"); (6, "_june"); (7, "_july"); (8, "_august");
   (9, "_september"); (10, "_october"); (11, "_november"); (12, "_december")].

Definition month_names : list string :=
  ["january"; "february"; "march"; "april"; "may"; "june"; "july"; "august";
   "september"; "october"; "november"; "december"].

(** An annual table with one month-pattern field group, [netgen], and one
    column that is the same all year, [plant_id]. *)
Definition annual_columns (ids : list value) (netgen : list value)
  : gmap string (list value) :=
  list_to_map
    (("plant_id", ids) ::
     ((fun name => (String.append "netgen_" name, netgen)) <$> month_names)).

Definition annual (labels : list Z) (ids netgen : list value) : DataFrame :=
  mkDF labels (annual_columns ids netgen).

(** An annual table with one field per month for the first months of the
    year, each with its own cells. *)
Definition quarter (labels : list Z) (ids : list value)
    (netgen : list (list value)) : DataFrame :=
  mkDF labels
    (list_to_map
       (("plant_id", ids) ::
        zip ((fun name => String.append "netgen_" name) <$> month_names)
            netgen)).

(** Helpers for frames that already carry [report_date] and have no
    month/year column pairs: the two date helpers then have nothing to do.
    The casts are the identity on cells that already have the target type. *)
Definition lower_columns (df : DataFrame) (cols : list string) : DataFrame :=
  foldl (fun d c =>
           match columns d !! c with
           | Some col => setcol d c (str_method (fun s => lower (strip s)) <$> col)
           | None => d
           end) df cols.

Definition keep_int (v : value) : option value :=
  match v with
  | Int z => Some (Int z)
  | _ => None
  end.

Definition show (v : value) : value :=
  match v with
  | Str s => Str s
  | Bool true => Str "True"
  | Bool false => Str "False"
  | _ => Str "nan"
  end.

Definition plain_helpers : Helpers :=
  {| convert_to_date := fun df => df;
     month_year_to_date := fun df => df;
     strip_lower := lower_columns;
     cleanstrings := fun field map => Eia923.cleanstringsEIA923 field map None;
     fuel_type_eia860_simple_map := [("COAL", ["BIT"; "SUB"]); ("GAS", ["NG"])];
     astype_int := keep_int;
     astype_str := show |}.

(** A workbook with a single sheet, and a registry that knows the six pages
    for every year, with [Plant Id] as that year's name of [plant_id]. *)
Definition one_sheet : Excel :=
  {| workbook := DataFrame; read_excel := fun book _ _ => book |}.

Definition small_registry : Constants :=
  {| tab_map_eia923 := fun _ _ => Some 0;
     skiprows_eia923 := fun _ _ => Some 5;
     tab_map_columns := "year_index" :: Eia923.known_pages;
     page_map_eia923 := fun _ _ => Some [("plant_id", "plant_id")] |}.

(** A frame from its columns, listed by name. *)
Definition frame (labels : list Z) (cols : list (string * list value))
  : DataFrame :=
  mkDF labels (list_to_map cols).

(** Every named column filled with one value per row. *)
Definition filled (names : list string) (col : list value)
  : list (string * list value) :=
  (fun name => (name, col)) <$> names.

(** A page of the generator tables: identifiers, the bypass and
    synchronisation flags, and every other column the transformer reads,
    filled with zeros (numeric columns) and "X" (flags). *)
Definition generator_page (labels : list Z) (gids pids bypass sync : list value)
  : DataFrame :=
  let n := length labels in
  frame labels
    ([("generator_id", gids); ("plant_id_eia", pids);
      ("heat_bypass_recovery", bypass);
      ("syncronized_transmission_grid", sync);
      ("utility_id_eia", replicate n (Int 9));
      ("energy_source_code_1", replicate n (Str "bit"));
      ("report_date", replicate n (Date 2016 1 1))]
     ++ filled Eia860.columns_to_fix (replicate n (Int 0))
     ++ filled Eia860.generators_boolean_columns (replicate n (Str "X"))).

(** One year's generation-fuel sheet with a single plant: the reader labels
    its row 0. *)
Definition fuel_sheet (plant net : Z) : DataFrame :=
  frame [0] (("Plant Id", [Int plant]) ::
             ((fun name => (String.append "Netgen " name, [Int net]))
                <$> month_names)).

Definition two_years : gmap Z DataFrame :=
  {[ 2011 := fuel_sheet 3 100; 2012 := fuel_sheet 4 200 ]}.

(** The tables that the transformers return on the pages of the worked
    examples, evaluated once. *)
Definition utilities_example : Eia860.tables :=
  Eval vm_compute in
    returned
      (Eia860.utilities (H := plain_helpers)
         {[ "utility" :=
              frame [0; 1; 2; 3]
                ([("state", [Str "qb"; Str "Y"; Str "tx"; Str "."]);
                  ("utility_id_eia", [Int 7; Int 8; Int 9; Int 10]);
                  ("report_date", [Date 2016 1 1; Date 2016 1 1;
                                   Date 2016 1 1; Date 2016 1 1])]
                 ++ filled Eia860.utilities_boolean_columns
                      [Str "Y"; Str "N"; NA; Str "X"]) ]} ∅).

Definition ownership_example : Eia860.tables :=
  Eval vm_compute in
    returned
      (Eia860.ownership (H := plain_helpers)
         {[ "ownership" :=
              frame [0; 1]
                [("report_date", [Date 2011 1 1; Date 2012 1 1]);
                 ("fraction_owned", [Int 45; Num 0.30]);
                 ("owner_utility_id_eia", [Int 1; Int 2]);
                 ("utility_id_eia", [Int 3; Int 4]);
                 ("plant_id_eia", [Int 5; Int 6])] ]} ∅).

Definition plants_example : Eia860.tables :=
  Eval vm_compute in
    returned
      (Eia860.plants (H := plain_helpers)
         {[ "plant" :=
              frame [0; 1; 2]
                ([("zip_code", [Int 2139; Int 80301; Int 94110]);
                  ("plant_id_eia", [Int 1; Int 2; Int 3]);
                  ("utility_id_eia", [Int 4; Int 5; Int 6]);
                  ("primary_purpose_naics_id", [Int 22; Int 22; Int 22]);
                  ("report_date", [Date 2016 1 1; Date 2016 1 1;
                                   Date 2016 1 1])]
                 ++ filled Eia860.plants_boolean_columns
                      [NA; Str "Y"; Str "X"]) ]} ∅).

Definition generators_example : Eia860.tables :=
  Eval vm_compute in
    returned
      (Eia860.generators (H := plain_helpers)
         {[ "generator_proposed" :=
              generator_page [0; 1] [Str "P1"; NA] [Int 1; Int 2]
                [Str "Y"; Str "N"] [Str "N"; Str "N"];
            "generator_existing" :=
              generator_page [0; 1; 2] [Str "E1"; Str "E2"; Str "E3"]
                [Int 1; NA; Int 3] [Str "Y"; Str "X"; NA]
                [Str "N"; Str "N"; Str "Y"];
            "generator_retired" :=
              generator_page [0] [Str "R1"] [Int 5] [Str "X"] [Str "Y"] ]} ∅).

Definition generators_same_pages_example : Eia860.tables :=
  Eval vm_compute in
    returned
      (let page :=
         generator_page [0; 1] [Str "E1"; Str "E2"] [Int 1; Int 2]
           [Str "Y"; Str "X"] [Str "N"; Str "Y"] in
       Eia860.generators (H := plain_helpers)
         {[ "generator_proposed" := page; "generator_existing" := page;
            "generator_retired" := page ]} ∅).

(** [duplicated] for frames whose cells compare as [same_cell] does: a row
    repeats an earlier one when it has the same cells in every column. *)
Definition row_cells (df : DataFrame) (i : nat) : list value :=
  (fun col : list value => default NA (col !! i))
    <$> (map_to_list (columns df)).*2.

Definition same_row (a b : list value) : bool :=
  bool_decide (Forall2 (fun x y => same_cell x y = true) a b).

Definition row_duplicates : Eia860.Duplicates :=
  {| Eia860.duplicated := fun df =>
       (fun i => existsb (fun j => same_row (row_cells df j) (row_cells df i))
                         (seq 0 i))
         <$> seq 0 (nrows df) |}.

(** A data directory with the workbooks of 2011 and 2012, each a single
    sheet, and a stray file next to the second. *)
Definition small_disk : @Eia923.Files one_sheet :=
  @Eia923.Build_Files one_sheet "data"
    (fun pattern =>
       if String.eqb pattern "data/f923_2011/*2_3_4*"
       then ["data/f923_2011/EIA923_Schedules_2_3_4_5_2011.xlsx"]
       else if String.eqb pattern "data/f923_2012/*2_3_4*"
       then ["data/f923_2012/EIA923_Schedules_2_3_4_5_2012.xlsx";
             "data/f923_2012/notes_2_3_4.txt"]
       else [])
    (fun path =>
       if contains "2011" path then fuel_sheet 3 100 else fuel_sheet 4 200).

(** The raw pages of the worked examples of [boiler_generator_assn] and
    [transform]: an association page with a note in place of a record and
    a record that comes twice, and a utility page. *)
Definition association_page : DataFrame :=
  frame [0; 1; 2; 3]
    [("report_year", [Int 2016; Int 2016; Int 2016; Int 2016]);
     ("utility_id_eia", [Str "7"; Str "NOTE"; Str "7"; Str "8"]);
     ("plant_id_eia", [Int 1; Int 0; Int 1; Int 2]);
     ("boiler_id", [Str "B1"; Str "x"; Str "B1"; Str "B2"]);
     ("generator_id", [Str "G1"; Str "x"; Str "G1"; Str "G2"]);
     ("comment", [NA; Str "see note"; NA; NA])].

Definition utility_page : DataFrame :=
  frame [0; 1]
    ([("state", [Str "qb"; Str "tx"]);
      ("utility_id_eia", [Int 7; Int 8]);
      ("report_date", [Date 2016 1 1; Date 2016 1 1])]
     ++ filled Eia860.utilities_boolean_columns [Str "Y"; NA]).

Definition raw_pages : Eia860.tables :=
  {[ "boiler_generator_assn" := association_page; "utility" := utility_page ]}.

Definition association_example : Eia860.tables :=
  Eval vm_compute in
    returned (Eia860.boiler_generator_assn (H := plain_helpers)
                (H0 := row_duplicates) raw_pages ∅).

Definition transform_example : Eia860.tables :=
  Eval vm_compute in
    returned (Eia860.transform (H := plain_helpers) (H0 := row_duplicates)
                raw_pages
                ["utilities_eia860"; "boiler_generator_assn_eia860";
                 "plants_of_the_moon"]).

Definition xlsx_example : gmap Z DataFrame :=
  Eval vm_compute in
    match Eia923.get_eia923_xlsx (H0 := small_disk) [2011; 2012] with
    | Ok (Eia923.Item books) => books
    | _ => ∅
    end.

Definition page_example : DataFrame :=
  Eval vm_compute in
    match Eia923.get_eia923_page (H := small_registry) (H0 := one_sheet)
            "generation_fuel" two_years [2011; 2012] with
    | Ok df => df
    | Raise _ => empty_frame
    end.

End Reference.

(** ** The vocabulary of the statements *)

Module Spec.

(** "collapses internal whitespace runs to single spaces" *)
Fixpoint collapse_runs (in_run : bool) (s : string) : string :=
  match s with
  | EmptyString => EmptyString
  | String c r =>
      if isspace c then
        if in_run then collapse_runs true r
        else String " " (collapse_runs true r)
      else String c (collapse_runs false r)
  end.

(** "upper-cases and trims values, collapses internal whitespace runs to
    single spaces" *)
Definition simplified (s : string) : string :=
  collapse_runs false (strip (upper s)).

(** No two whitespace characters in a row. *)
Fixpoint no_runs (s : string) : bool :=
  match s with
  | String a ((String b _) as r) => negb (isspace a && isspace b) && no_runs r
  | _ => true
  end.

(** "Already in normalized form": a canonical key, upper-cased, trimmed,
    with no internal whitespace runs. *)
Definition normalized (map : stringmap) (v : value) : bool :=
  match v with
  | Str s =>
      bool_decide (s ∈ map.*1) && String.eqb (upper s) s
        && String.eqb (strip s) s && no_runs s
  | _ => false
  end.

(** The only character of the class [[\s+]] in [s] is the space. *)
Definition spaces_only (s : string) : bool :=
  all_chars (fun c => negb (Eia923.in_class c) || Ascii.eqb c " ") s.

(** What the replacements of the map, run in the order of the map, make of
    the string [s]: at each entry, a string listed among the synonyms
    becomes the key. *)
Definition replaced (map : stringmap) (s : string) : string :=
  foldl (fun t (kv : string * list string) =>
           if bool_decide (t ∈ kv.2) then kv.1 else t) s map.

(** Normalized as above, with the space as the only character of the class
    [[\s+]], and left as it is by the replacements of the map. *)
Definition settled (map : stringmap) (v : value) : bool :=
  match v with
  | Str s =>
      normalized map v && spaces_only s && String.eqb (replaced map s) s
  | _ => false
  end.

(** The frame has no state-level row: no cell of [plant_id] is 99999. *)
Definition plant_level (df : DataFrame) : Prop :=
  forall ids, columns df !! "plant_id" = Some ids ->
              Forall (fun v => equals_int 99999 v = false) ids.

(** The rows of a sheet whose [plant_id] is not 99999. *)
Definition plant_rows (sheet : DataFrame) : DataFrame :=
  loc_rows ((fun v => negb (equals_int 99999 v))
              <$> default [] (columns sheet !! "plant_id")) sheet.

(** A report year that is there and is before [bound]. *)
Definition year_before (bound : Z) (y : option Z) : Prop :=
  exists z, y = Some z /\ z < bound.

(** The number a numeric cell holds. *)
Definition number (v : value) : option float :=
  match v with
  | Int z => Some (float_of_Z z)
  | Num f => Some f
  | _ => None
  end.

(** The column [c] of the frames stacked by [concat], a frame without it
    contributing missing cells. *)
Definition stacked (c : string) (frames : list DataFrame) : list value :=
  foldr (fun df rest =>
           column_or_missing (nrows df) (columns df !! c) ++ rest) [] frames.

(** The tags of the stacked generator tables, row by row. *)
Definition stacked_tags (gp_df ge_df gr_df : DataFrame) : list value :=
  replicate (nrows ge_df) (Str "existing")
    ++ replicate (nrows gp_df) (Str "proposed")
    ++ replicate (nrows gr_df) (Str "retired").

(** The rows of the stacked generator tables that have both identifiers. *)
Definition identified (frames : list DataFrame) : list bool :=
  zip_with (fun g p => negb (isna g) && negb (isna p))
           (stacked "generator_id" frames) (stacked "plant_id_eia" frames).

(** Two frames that differ at most in the cells of column [c]. *)
Definition same_but (c : string) (a b : DataFrame) : Prop :=
  index a = index b /\
  (forall c', c' <> c -> columns a !! c' = columns b !! c') /\
  (is_Some (columns a !! c) <-> is_Some (columns b !! c)).

(** Two runs that raise the same exception, or return frames that differ at
    most in column [c]. *)
Definition alike (c : string) (r1 r2 : result DataFrame) : Prop :=
  match r1, r2 with
  | Ok a, Ok b => same_but c a b
  | Raise e1, Raise e2 => e1 = e2
  | _, _ => False
  end.

(** The helpers that finish the generators table are bystanders of [c]. *)
Definition finishing_bystander `{Helpers} (c : string) : Prop :=
  bystander month_year_to_date c /\
  bystander (fun df => strip_lower df
               ["rto_iso_lmp_node_id";
                "rto_iso_location_wholesale_reporting_id"]) c /\
  bystander convert_to_date c.

(** [df'] has the rows of [df] and differs from it at most in the columns
    listed in [written]. *)
Definition touches (written : list string) (df df' : DataFrame) : Prop :=
  index df' = index df /\
  forall c, c ∉ written -> columns df' !! c = columns df !! c.

(** The characters of a cleaned column name: lower-case letters, digits and
    the underscore. *)
Definition name_char (c : ascii) : bool :=
  isdigit c || islower c || Ascii.eqb c "_".

(** The characters of a column name between the steps of the cleaning:
    letters, digits and the space. *)
Definition word_char (c : ascii) : bool :=
  Eia923.isalnum c || Ascii.eqb c " ".

(** The last two steps of the cleaning on one character, and the way back. *)
Definition to_name (c : ascii) : ascii := Eia923.underscore (lower_char c).

Definition to_space (c : ascii) : ascii :=
  if Ascii.eqb c "_" then " "%char else c.

Definition starts_with_char (c : ascii) (s : string) : bool :=
  match s with
  | String a _ => Ascii.eqb a c
  | EmptyString => false
  end.

(** No two [c] in a row. *)
Fixpoint no_double (c : ascii) (s : string) : bool :=
  match s with
  | String a ((String b _) as r) =>
      negb (Ascii.eqb a c && Ascii.eqb b c) && no_double c r
  | _ => true
  end.

(** [c] stands neither first nor last, and never twice in a row. *)
Definition separated_by (c : ascii) (s : string) : bool :=
  negb (starts_with_char c s) && negb (endswith_char c s) && no_double c s.

(** "lowercase, underscores instead of white space, no non-alphanumeric
    characters" *)
Definition tidy_name (s : string) : bool :=
  all_chars name_char s && separated_by "_" s.

(** A cell that holds a string. *)
Definition is_text (v : value) : bool :=
  match v with Str _ => true | _ => false end.

(** A cell that holds a string of digits. *)
Definition digits (v : value) : Prop :=
  exists s, v = Str s /\ isnumeric s = true.

(** Two frames with the same column names. *)
Definition same_names (a b : DataFrame) : Prop :=
  forall c, is_Some (columns a !! c) <-> is_Some (columns b !! c).

(** Storing the table of a run under [name], or failing as the run does. *)
Definition stores (name : string) (r : result DataFrame) (acc : Eia860.tables)
  : result Eia860.tables :=
  df ← r; mret (<[name := df]> acc).

(** A transformer that writes one table: whatever the dictionary of
    transformed tables holds, it comes back with the table of one run, that
    does not look at the dictionary, stored under [name]. *)
Definition writes_one (name : string)
    (f : Eia860.tables -> Eia860.tables -> result Eia860.tables) : Prop :=
  forall raw, exists r : result DataFrame,
    forall acc, f raw acc = stores name r acc.

(** The columns [plants] writes. *)
Definition plants_written : list string :=
  ["zip_code"; "ash_impoundment_lined"; "natural_gas_storage";
   "liquefied_natural_gas_storage"]
    ++ Eia860.plants_boolean_columns
    ++ ["plant_id_eia"; "utility_id_eia"; "primary_purpose_naics_id"].

Section Months.
Context `{Regex}.

(** The slice of one month: the columns of [yearly] that the pattern of the
    entry matches, under their names without the pattern, next to the month
    number. *)
Definition this_month_of (yearly : DataFrame) (entry : Z * string)
  : DataFrame :=
  setcol_scalar
    (Eia923.rename_columns (delete entry.2)
       (Eia923.filter_columns (search entry.2) yearly))
    "month" (Int entry.1).

(** What the loop has made of the table when the entries [earlier] are
    done: the columns that none of their patterns matches are still there,
    no column has been added, and the rows are the same. *)
Definition remainder (df : DataFrame) (earlier : list (Z * string))
    (yearly : DataFrame) : Prop :=
  (forall c, Forall (fun e : Z * string => search e.2 c = false) earlier ->
             columns yearly !! c = columns df !! c) /\
  columns yearly ⊆ columns df /\
  nrows yearly = nrows df.

(** The field of one month for the quantity [base]: the column of the table,
    with one cell per row, that the pattern of the entry matches and that
    takes the name [base] when the pattern is deleted.  No other column of
    the table becomes [base] under that pattern, and no pattern of an
    earlier entry matches the column. *)
Definition month_field (df : DataFrame) (base : string)
    (earlier : list (Z * string)) (entry : Z * string)
    (field : string * list value) : Prop :=
  columns df !! field.1 = Some field.2 /\
  length field.2 = nrows df /\
  search entry.2 field.1 = true /\
  delete entry.2 field.1 = base /\
  map_Forall (fun c (_ : list value) =>
                search entry.2 c = true -> delete entry.2 c = base ->
                c = field.1) (columns df) /\
  Forall (fun e : Z * string => search e.2 field.1 = false) earlier.

(** The fields of the quantity [base], one per entry of the dictionary, in
    the order of the dictionary. *)
Fixpoint month_fields (df : DataFrame) (base : string)
    (earlier md : list (Z * string)) (fields : list (string * list value))
  : Prop :=
  match md, fields with
  | [], [] => True
  | entry :: md', field :: fields' =>
      month_field df base earlier entry field /\
      month_fields df base (earlier ++ [entry]) md' fields'
  | _, _ => False
  end.

End Months.

End Spec.

Import Eia923 Eia860 Reference Spec.

(** * Properties *)

(** Closing a decidable goal by evaluation. *)
Ltac by_evaluation := apply (bool_decide_unpack _); vm_compute; exact I.

(** Closing an equation between two closed terms by evaluating both. *)
Ltac by_running :=
  lazymatch goal with
  | |- _ = ?b => vm_cast_no_check (eq_refl b)
  end.

(** ** Text *)

Lemma map_chars_fixed (f : ascii -> ascii) (s : string) :
  all_chars (fun c => Ascii.eqb (f c) c) s = true -> map_chars f s = s.
Proof.
  induction s as [|c r IH]; simpl; [done|].
  intros [Hc Hr]%andb_true_iff. apply Ascii.eqb_eq in Hc.
  by rewrite Hc, IH.
Qed.

Lemma map_chars_length (f : ascii -> ascii) (s : string) :
  String.length (map_chars f s) = String.length s.
Proof. induction s; simpl; congruence. Qed.

Lemma blank_class_fixed (s : string) :
  spaces_only s = true -> map_chars blank_class s = s.
Proof.
  intros Hs. apply map_chars_fixed. revert Hs. unfold spaces_only.
  induction s as [|c r IH]; simpl; [done|].
  intros [Hc Hr]%andb_true_iff. rewrite IH by done. rewrite andb_true_r.
  unfold blank_class. destruct (in_class c); simpl in Hc.
  - apply Ascii.eqb_eq in Hc. by subst c.
  - apply Ascii.eqb_refl.
Qed.

(** ** [cleanstringsEIA923] *)

Section CleanStrings.

Implicit Types (field : list value) (map : stringmap) (v : value).

Lemma settled_simplify map v :
  settled map v = true ->
  regex_replace (map_chars blank_class)
    (str_method (fun s => strip (upper s)) v) = v.
Proof.
  destruct v as [|s| | | |]; simpl; try done.
  rewrite !andb_true_iff. intros [[[[[_ Hu] Ht] _] Hp] _].
  apply String.eqb_eq in Hu, Ht. rewrite Hu, Ht.
  by rewrite blank_class_fixed.
Qed.

(** The loop over the map works cell by cell. *)
Lemma synonym_loop_cells (entries : stringmap) field :
  foldl (fun fld kv => replace_synonyms kv <$> fld) field entries
  = (fun v => foldl (fun w kv => replace_synonyms kv w) v entries) <$> field.
Proof.
  revert field. induction entries as [|kv rest IH]; intros field; simpl.
  - by rewrite list_fmap_id.
  - by rewrite IH, <- list_fmap_compose.
Qed.

Lemma synonym_loop_text (entries : stringmap) (s : string) :
  foldl (fun w kv => replace_synonyms kv w) (Str s) entries
  = Str (replaced entries s).
Proof.
  unfold replaced. revert s. induction entries as [|kv rest IH]; intros s;
    simpl; [done|].
  case_bool_decide; apply IH.
Qed.

Lemma settled_replace map v :
  settled map v = true ->
  foldl (fun w kv => replace_synonyms kv w) v map = v.
Proof.
  destruct v as [|s| | | |]; try done. unfold settled.
  rewrite !andb_true_iff. intros [_ Hfix].
  apply String.eqb_eq in Hfix. by rewrite synonym_loop_text, Hfix.
Qed.

Lemma unique_subset field v : v ∈ unique field -> v ∈ field.
Proof.
  revert v. induction field as [|w rest IH]; simpl; intros v Hv; [done|].
  apply list_elem_of_In in Hv. destruct Hv as [->|Hv]; [left|].
  apply filter_In in Hv as [Hv _]. right. apply IH. by apply list_elem_of_In.
Qed.

Lemma no_badstrings map field :
  Forall (fun v => settled map v = true) field ->
  setdiff1d (unique field) map.*1 = [].
Proof.
  intros Hall. unfold setdiff1d.
  assert (Forall (fun v => is_key map.*1 v = true) (unique field)) as Hkeys.
  { apply Forall_forall. intros v Hv%unique_subset.
    rewrite Forall_forall in Hall. specialize (Hall v Hv).
    destruct v as [|s| | | |]; simpl in *; try done.
    rewrite !andb_true_iff in Hall. by destruct Hall as [[[[[? _] _] _] _] _]. }
  induction Hkeys as [|v l Hv _ IH]; simpl; [done|]. by rewrite Hv.
Qed.

End CleanStrings.

(** The whitespace step of the code rewrites characters one by one, so it
    never shortens a string: no run is ever collapsed. *)
Lemma whitespace_step_keeps_length (s : string) :
  String.length (map_chars blank_class s) = String.length s.
Proof. apply map_chars_length. Qed.

(** C3, at the failing input: a value with two spaces in a row comes out of
    [cleanstringsEIA923] upper-cased and trimmed but with both spaces still
    there, before any synonym is replaced (the map is empty); the
    specification's wording gives a single space. *)
Theorem cleanstrings_keeps_whitespace_runs :
  cleanstringsEIA923 [Str " natural  gas "] [] None = [Str "NATURAL  GAS"] /\
  simplified " natural  gas " = "NATURAL GAS".
Proof. split; reflexivity. Qed.

(** C8 (amended): a column whose values are canonical keys, upper-cased,
    trimmed, without internal whitespace runs, free of plus signs and of
    whitespace other than the space, and left as they are by the
    replacements of the map run in order, comes back unchanged, whatever
    the unmapped policy. *)
Theorem cleanstrings_fixes_settled_columns (field : list value)
    (map : stringmap) (unmapped : option value) :
  Forall (fun v => settled map v = true) field ->
  cleanstringsEIA923 field map unmapped = field.
Proof.
  intros Hall. unfold cleanstringsEIA923.
  assert (regex_replace (map_chars blank_class) <$>
            (str_method (fun s => strip (upper s)) <$> field) = field) as ->.
  { rewrite <- list_fmap_compose. rewrite <- (list_fmap_id field) at 2.
    apply list_fmap_ext. intros i v Hv. simpl.
    apply (settled_simplify map). rewrite Forall_forall in Hall.
    apply Hall. by eapply list_elem_of_lookup_2. }
  assert (foldl (fun fld kv => replace_synonyms kv <$> fld) field map = field)
    as ->.
  { rewrite synonym_loop_cells. rewrite <- (list_fmap_id field) at 2.
    apply list_fmap_ext. intros i v Hv. simpl.
    apply settled_replace. rewrite Forall_forall in Hall.
    apply Hall. by eapply list_elem_of_lookup_2. }
  destruct unmapped as [u|]; [|done].
  rewrite (no_badstrings map) by done. unfold replace_where. simpl.
  apply list_fmap_id.
Qed.

Lemma cleanstrings_fixes_settled_columns_witness :
  cleanstringsEIA923 [Str "COAL"; Str "NATURAL GAS"]
    [("COAL", ["BIT"; "COAL"]); ("NATURAL GAS", ["NG"])] (Some NA)
  = [Str "COAL"; Str "NATURAL GAS"].
Proof.
  apply cleanstrings_fixes_settled_columns.
  repeat (constructor; [vm_compute; reflexivity|]). constructor.
Defined.

(** Two keys that list each other: the replacements take ["B"] to ["A"] and
    back, so the column is settled and comes back unchanged. *)
Example cleanstrings_keys_listing_each_other :
  let map := [("A", ["B"]); ("B", ["A"])] in
  settled map (Str "B") = true /\
  cleanstringsEIA923 [Str "B"] map None = [Str "B"].
Proof. split; reflexivity. Qed.

(** C8, as stated, fails in three ways, each on a column of canonical keys
    that are upper-cased, trimmed and without whitespace runs.  ["OIL"] is
    an output of the function, and the second pass turns it into ["GAS"],
    the earlier key that lists it.  A key with a plus sign comes back with
    a space in its place, and so does a key with a tab. *)
Lemma cleanstrings_not_idempotent :
  let map := [("GAS", ["NG"; "OIL"]); ("OIL", ["DFO"])] in
  cleanstringsEIA923 [Str "dfo"] map None = [Str "OIL"] /\
  Forall (fun v => normalized map v = true) [Str "OIL"] /\
  cleanstringsEIA923 [Str "OIL"] map None = [Str "GAS"] /\
  cleanstringsEIA923 [Str "OIL"] map None <> [Str "OIL"] /\
  (let plus := [("A+B", ["AB"])] in
   Forall (fun v => normalized plus v = true) [Str "A+B"] /\
   cleanstringsEIA923 [Str "A+B"] plus None = [Str "A B"]) /\
  (let a_tab_b := String "A" (String "009" "B") in
   let tab := [(a_tab_b, ["AB"])] in
   Forall (fun v => normalized tab v = true) [Str a_tab_b] /\
   cleanstringsEIA923 [Str a_tab_b] tab None = [Str "A B"]).
Proof.
  simpl. split; [reflexivity|]. split; [by repeat constructor|].
  split; [reflexivity|]. split; [vm_compute; discriminate|].
  split; (split; [by repeat constructor|reflexivity]).
Qed.

(** ** [get_eia923_page] *)

Section PageReader.
Context `{Constants} `{Excel}.

Implicit Types (df sheet : DataFrame) (page : string) (years : list Z).

Lemma foldl_min_bound (bound x : Z) (rest : list Z) :
  bound <= x -> Forall (fun y => bound <= y) rest ->
  bound <= foldl Z.min x rest.
Proof.
  intros Hx Hrest. revert x Hx.
  induction Hrest as [|y rest Hy _ IH]; simpl; intros x Hx; [done|].
  apply IH. lia.
Qed.

Lemma py_min_bound (bound : Z) years :
  years <> [] -> Forall (fun y => bound <= y) years ->
  exists m, py_min years = Ok m /\ bound <= m.
Proof.
  destruct years as [|x rest]; [done|]. intros _ Hall.
  apply Forall_cons in Hall as [Hx Hrest].
  eexists. split; [reflexivity|]. by apply foldl_min_bound.
Qed.

Lemma select_mask_Forall {A : Type} (keep : A -> bool) (l : list A) :
  Forall (fun x => keep x = true) (select (keep <$> l) l).
Proof.
  induction l as [|x l IH]; simpl; [constructor|].
  destruct (keep x) eqn:Hx; [by constructor|done].
Qed.

Lemma plant_level_empty : plant_level empty_frame.
Proof. intros ids. unfold empty_frame. simpl. by rewrite lookup_empty. Qed.

Lemma plant_level_append (a b : DataFrame) :
  plant_level a -> plant_level b -> plant_level (append_frames a b).
Proof.
  intros Ha Hb ids. unfold append_frames. simpl. rewrite lookup_merge.
  assert (forall n df, plant_level df ->
            Forall (fun v => equals_int 99999 v = false)
                   (column_or_missing n (columns df !! "plant_id"))) as Hcol.
  { intros n df Hdf. destruct (columns df !! "plant_id") as [col|] eqn:E; simpl.
    - by apply Hdf.
    - by apply Forall_replicate. }
  destruct (columns a !! "plant_id") as [ca|] eqn:Ea;
    destruct (columns b !! "plant_id") as [cb|] eqn:Eb; simpl; try done;
    intros [= <-]; apply Forall_app; split.
  - by apply Ha.
  - by apply Hb.
  - by apply Ha.
  - by apply Forall_replicate.
  - by apply Forall_replicate.
  - by apply Hb.
Qed.

Lemma plant_level_concat_from (acc : DataFrame) (frames : list DataFrame) :
  plant_level acc -> Forall plant_level frames ->
  plant_level (foldl append_frames acc frames).
Proof.
  intros Hacc Hall. revert acc Hacc.
  induction Hall as [|f frames Hf _ IH]; simpl; intros acc Hacc; [done|].
  apply IH. by apply plant_level_append.
Qed.

Lemma plant_rows_level sheet : plant_level (plant_rows sheet).
Proof.
  intros ids. unfold plant_rows, loc_rows. simpl. rewrite lookup_fmap.
  destruct (columns sheet !! "plant_id") as [col|]; simpl; [|done].
  intros [= <-].
  eapply Forall_impl; [apply (select_mask_Forall (fun v => negb (equals_int 99999 v)))|].
  intros v. simpl. by destruct (equals_int 99999 v).
Qed.

Lemma drop_state_rows_plant_rows sheet :
  is_Some (columns sheet !! "plant_id") ->
  drop_state_rows sheet = Ok (plant_rows sheet).
Proof.
  intros [col Hcol]. unfold drop_state_rows, plant_rows, getcol.
  by rewrite Hcol.
Qed.

(** The loop over the years, from any accumulated frame. *)
Lemma read_years_stocks (books : gmap Z workbook) years sheets df :
  Forall2 (fun yr sheet => canonical_sheet "stocks" books yr = Ok sheet)
          years sheets ->
  read_years "stocks" books df years = Ok (foldl append_frames df sheets).
Proof.
  intros Hall. revert df.
  induction Hall as [|yr sheet years sheets Hsheet _ IH];
    intros df; simpl; [done|].
  unfold read_year. rewrite Hsheet. simpl. apply IH.
Qed.

Lemma read_years_other page (books : gmap Z workbook) years sheets df :
  page <> "stocks" ->
  Forall2 (fun yr sheet => canonical_sheet page books yr = Ok sheet)
          years sheets ->
  Forall (fun sheet => is_Some (columns sheet !! "plant_id")) sheets ->
  read_years page books df years
  = Ok (foldl append_frames df (plant_rows <$> sheets)).
Proof.
  intros Hpage Hall. revert df.
  induction Hall as [|yr sheet years sheets Hsheet _ IH];
    intros df Hids; simpl; [done|].
  apply Forall_cons in Hids as [Hid Hids].
  unfold read_year. rewrite Hsheet. simpl.
  apply String.eqb_neq in Hpage. rewrite Hpage. simpl.
  rewrite drop_state_rows_plant_rows by done. simpl. by apply IH.
Qed.

(** C7: on a page other than "stocks" the output is the stack of the yearly
    sheets without their rows of plant 99999, and no row of the output has
    that plant id; on "stocks" the output is the stack of the yearly sheets
    with every row. *)
Theorem get_eia923_page_state_rows page (books : gmap Z workbook) years
    (sheets : list DataFrame) :
  years <> [] ->
  Forall (fun yr => 2009 <= yr) years ->
  page ∈ tab_map_columns ->
  page <> "year_index" ->
  Forall2 (fun yr sheet => canonical_sheet page books yr = Ok sheet)
          years sheets ->
  (page <> "stocks" ->
   Forall (fun sheet => is_Some (columns sheet !! "plant_id")) sheets) ->
  exists df,
    get_eia923_page page books years = Ok df /\
    (page = "stocks" -> df = concat sheets) /\
    (page <> "stocks" ->
     df = concat (plant_rows <$> sheets) /\ plant_level df).
Proof.
  intros Hne Hyears Hpage Hindex Hsheets Hids.
  destruct (py_min_bound 2009 years Hne Hyears) as (m & Hmin & Hm).
  unfold get_eia923_page. rewrite Hmin. simpl.
  assert ((2009 <=? m) = true) as -> by lia. simpl.
  rewrite bool_decide_eq_true_2 by done.
  apply String.eqb_neq in Hindex. rewrite Hindex. simpl.
  destruct (decide (page = "stocks")) as [->|Hother].
  - eexists. split; [by apply read_years_stocks|]. split; [done|done].
  - eexists. split; [by apply read_years_other; auto|].
    split; [done|]. intros _. split; [done|].
    apply plant_level_concat_from; [apply plant_level_empty|].
    apply Forall_fmap, Forall_forall. intros sheet _. apply plant_rows_level.
Qed.

End PageReader.

Lemma get_eia923_page_state_rows_witness :
  let sheet yr := frame [0; 1; 2]
                    [("Plant Id", [Int 3; Int 99999; Num 99999]);
                     ("YEAR", [Int yr; Int yr; Int yr])] in
  let books : gmap Z DataFrame := {[ 2011 := sheet 2011; 2012 := sheet 2012 ]} in
  let canonical yr := frame [0; 1; 2]
                        [("plant_id", [Int 3; Int 99999; Num 99999]);
                         ("year", [Int yr; Int yr; Int yr])] in
  exists df,
    get_eia923_page (H := small_registry) (H0 := one_sheet)
      "generation_fuel" books [2011; 2012] = Ok df /\
    ("generation_fuel" = "stocks" -> df = concat [canonical 2011; canonical 2012]) /\
    ("generation_fuel" <> "stocks" ->
     df = concat (plant_rows <$> [canonical 2011; canonical 2012]) /\
     plant_level df).
Proof.
  intros sheet books canonical.
  apply (get_eia923_page_state_rows (H := small_registry) (H0 := one_sheet)).
  - discriminate.
  - repeat constructor; lia.
  - vm_compute. repeat constructor.
  - discriminate.
  - repeat (constructor; [vm_compute; reflexivity|]). constructor.
  - intros _. repeat constructor; vm_compute; eauto.
Defined.

(** ** [yearly_to_monthly_eia923] *)

(** C1, at the failing input: the two-year generation-fuel table that
    [get_eia923_page] builds from two one-row sheets has two rows, both
    labelled 0, and its monthly expansion has 48 rows, not 24: the join on
    the row labels pairs each annual row with the months of both. *)
Theorem yearly_to_monthly_repeated_labels :
  exists t,
    get_eia923_page (H := small_registry) (H0 := one_sheet)
      "generation_fuel" two_years [2011; 2012] = Ok t /\
    index t = [0; 0] /\
    nrows (yearly_to_monthly_eia923 (H := literal_regex) t month_dict) = 48%nat /\
    (12 * nrows t = 24)%nat.
Proof. eexists. split; [vm_compute; reflexivity|]. by vm_compute. Qed.

(** ** Frames and the error monad *)

Lemma bind_Ok {A B : Type} (f : A -> result B) (m : result A) (b : B) :
  m ≫= f = Ok b -> exists a, m = Ok a /\ f a = Ok b.
Proof. destruct m as [a|e]; simpl; [eauto|discriminate]. Qed.

Lemma bind_Ok_l {A B : Type} (f : A -> result B) (a : A) : Ok a ≫= f = f a.
Proof. reflexivity. Qed.

(** Reading one step off a run that returned. *)
Ltac run_step H x Hx :=
  cbv zeta in H; simpl mret in H;
  apply bind_Ok in H as (x & Hx & H).

Tactic Notation "run" hyp(H) "as" ident(x) ident(Hx) := run_step H x Hx.

Section Frames.

Implicit Types (df : DataFrame) (c : string) (col : list value).

Lemma touches_refl written df : touches written df df.
Proof. by split. Qed.

Lemma touches_trans written df1 df2 df3 :
  touches written df1 df2 -> touches written df2 df3 ->
  touches written df1 df3.
Proof.
  intros [Hi1 Hc1] [Hi2 Hc2]. split; [congruence|].
  intros c Hc. rewrite Hc2, Hc1; done.
Qed.

Lemma touches_weaken written written' df df' :
  written ⊆ written' -> touches written df df' -> touches written' df df'.
Proof.
  intros Hsub [Hi Hc]. split; [done|]. intros c Hc'. apply Hc.
  intros Hin. apply Hc'. by apply Hsub.
Qed.

Lemma setcol_touches df c col : touches [c] df (setcol df c col).
Proof.
  split; [done|]. intros c' Hc'. simpl. apply lookup_insert_ne.
  intros ->. apply Hc'. left.
Qed.

Lemma setcol_lookup df c col : columns (setcol df c col) !! c = Some col.
Proof. simpl. apply lookup_insert_eq. Qed.

Lemma setcol_setcol df c col col' :
  setcol (setcol df c col) c col' = setcol df c col'.
Proof. unfold setcol. simpl. by rewrite insert_insert_eq. Qed.

Lemma update_col_inv (f : list value -> list value) c df df' :
  update_col f c df = Ok df' ->
  exists col, columns df !! c = Some col /\ df' = setcol df c (f col).
Proof.
  unfold update_col, getcol.
  destruct (columns df !! c) as [col|]; simpl; [|discriminate].
  intros [= <-]. eauto.
Qed.

Lemma update_attr_inv (f : list value -> list value) c df df' :
  update_attr f c df = Ok df' ->
  exists col, columns df !! c = Some col /\ df' = setcol df c (f col).
Proof.
  unfold update_attr, getattr, setattr.
  destruct (columns df !! c) as [col|] eqn:E; simpl; [|discriminate].
  intros [= <-]. eauto.
Qed.

Lemma fix_boolean_column_inv c df df' :
  fix_boolean_column c df = Ok df' ->
  exists col, columns df !! c = Some col /\
    df' = setcol df c (yes_no <$> fillna (Str "False") col).
Proof.
  unfold fix_boolean_column.
  intros (d & (col & Hcol & ->)%update_col_inv
            & (col' & Hcol' & ->)%update_col_inv)%bind_Ok.
  rewrite setcol_lookup in Hcol'. injection Hcol' as <-.
  exists col. by rewrite setcol_setcol.
Qed.

Lemma for_each_touches (step : string -> DataFrame -> result DataFrame)
    (cols : list string) df df' :
  (forall c d d', step c d = Ok d' -> touches [c] d d') ->
  for_each step cols df = Ok df' -> touches cols df df'.
Proof.
  intros Hstep. revert df.
  induction cols as [|c cols IH]; simpl; intros df.
  - intros [= <-]. apply touches_refl.
  - intros (d & Hd & Hrest)%bind_Ok.
    eapply touches_trans.
    + eapply touches_weaken; [|by apply Hstep].
      intros x ->%list_elem_of_singleton. left.
    + eapply touches_weaken; [|by apply IH]. intros x Hx. by right.
Qed.

Lemma fix_boolean_column_touches c df df' :
  fix_boolean_column c df = Ok df' -> touches [c] df df'.
Proof.
  intros (col & _ & ->)%fix_boolean_column_inv. apply setcol_touches.
Qed.

(** After the loop over a list of distinct columns, each of them has been
    through the boolean fix exactly once. *)
Lemma for_each_fix_boolean (cols : list string) df df' c col :
  NoDup cols -> c ∈ cols ->
  for_each fix_boolean_column cols df = Ok df' ->
  columns df !! c = Some col ->
  columns df' !! c = Some (yes_no <$> fillna (Str "False") col).
Proof.
  intros Hnd. revert df.
  induction Hnd as [|c0 cols Hc0 Hnd IH]; intros df Hin; [by inversion Hin|].
  simpl. intros (d & Hd & Hrest)%bind_Ok Hcol.
  destruct (decide (c = c0)) as [->|Hne].
  - apply fix_boolean_column_inv in Hd as (col' & Hcol' & ->).
    rewrite Hcol in Hcol'. injection Hcol' as <-.
    apply (for_each_touches _ _ _ _ fix_boolean_column_touches) in Hrest
      as [_ Hkeep].
    rewrite Hkeep by done. apply setcol_lookup.
  - apply elem_of_cons in Hin as [?|Hin]; [done|].
    apply IH with (df := d); [done|done|].
    apply fix_boolean_column_touches in Hd as [_ Hkeep].
    rewrite Hkeep; [done|]. by intros ->%list_elem_of_singleton.
Qed.

End Frames.

(** ** [utilities] *)

Lemma upper_char_space (c : ascii) : isspace c = true -> upper_char c = c.
Proof.
  destruct c as [[] [] [] [] [] [] [] []]; vm_compute; congruence.
Qed.

Lemma upper_eia_na (s : string) : is_eia_na s = true -> upper s = s.
Proof.
  unfold is_eia_na. intros [->%String.eqb_eq|Hs]%orb_true_iff; [done|].
  apply map_chars_fixed.
  induction s as [|c r IH]; simpl in *; [done|].
  apply andb_true_iff in Hs as [Hc Hr].
  rewrite (upper_char_space c Hc), Ascii.eqb_refl. by apply IH.
Qed.

(** What the transformer makes of one cell of the state column. *)
Lemma state_cell (s : string) :
  let out := fix_state (str_method upper (fix_eia_na_cell (Str s))) in
  (upper s = "QB" -> out = Str "QC") /\
  (upper s = "Y" -> out = Str "NY") /\
  (upper s <> "QB" -> upper s <> "Y" -> is_eia_na s = false ->
   out = Str (upper s)) /\
  (is_eia_na s = true -> out = NA).
Proof.
  simpl. destruct (is_eia_na s) eqn:Hna.
  - rewrite (upper_eia_na s Hna).
    repeat split; try done; intros ->; by vm_compute in Hna.
  - simpl. unfold fix_state. simpl. repeat split; [| | |done].
    + by intros ->.
    + by intros ->.
    + intros Hqb%String.eqb_neq Hy%String.eqb_neq _. by rewrite Hqb, Hy.
Qed.

Section Utilities.
Context `{Helpers}.

(** C9 (amended): in the output of [utilities] a state that upper-cases to
    "QB" is "QC", one that upper-cases to "Y" is "NY", a state that is a
    missing-data marker (a period, or nothing but whitespace) is missing,
    and any other state string is its upper-cased form. *)
Theorem utilities_state_codes (dfs acc acc' : tables) (u_df : DataFrame)
    (states : list value) :
  bystander convert_to_date "state" ->
  dfs !! "utility" = Some u_df ->
  columns u_df !! "state" = Some states ->
  utilities dfs acc = Ok acc' ->
  exists out states',
    acc' !! "utilities_eia860" = Some out /\
    index out = index u_df /\
    columns out !! "state" = Some states' /\
    length states' = length states /\
    forall i s, states !! i = Some (Str s) ->
      (upper s = "QB" -> states' !! i = Some (Str "QC")) /\
      (upper s = "Y" -> states' !! i = Some (Str "NY")) /\
      (upper s <> "QB" -> upper s <> "Y" -> is_eia_na s = false ->
       states' !! i = Some (Str (upper s))) /\
      (is_eia_na s = true -> states' !! i = Some NA).
Proof.
  intros Hdate Hu Hstates Hrun. unfold utilities in Hrun.
  unfold lookup_table in Hrun. rewrite Hu in Hrun.
  run Hrun as u0 Hu0. injection Hu0 as <-.
  run Hrun as state Hstate.
  unfold getattr, fix_eia_na, applymap in Hstate. cbn [columns] in Hstate.
  rewrite lookup_fmap, Hstates in Hstate. injection Hstate as <-.
  run Hrun as state' Hstate'.
  unfold getattr in Hstate'. rewrite setcol_lookup in Hstate'.
  injection Hstate' as <-.
  run Hrun as d1 Hd1. run Hrun as d2 Hd2. injection Hrun as <-.
  apply (for_each_touches _ _ _ _ fix_boolean_column_touches) in Hd1
    as [Hi1 Hc1].
  specialize (Hc1 "state"). rewrite setcol_lookup in Hc1.
  unfold astype_int_column in Hd2. run Hd2 as ids Hids.
  destruct (mapM astype_int ids) as [ids'|]; [|discriminate].
  injection Hd2 as <-.
  destruct (Hdate d1) as [Hi2 Hc2].
  eexists _, _. split; [apply lookup_insert_eq|].
  split; [simpl; by rewrite Hi2, Hi1|].
  split.
  { simpl. rewrite lookup_insert_ne by done. rewrite Hc2. apply Hc1.
    rewrite list_elem_of_In. simpl. intuition discriminate. }
  split; [by rewrite !length_fmap|].
  intros i s Hi. rewrite !list_lookup_fmap, Hi. simpl.
  destruct (state_cell s) as (Hqb & Hy & Hother & Hmarker).
  repeat split; intros; f_equal; auto.
Qed.

End Utilities.

Lemma plain_bystander (c : string) :
  bystander (@convert_to_date plain_helpers) c.
Proof. intros df. by split. Qed.

Lemma utilities_state_codes_witness :
  let states := [Str "qb"; Str "Y"; Str "tx"; Str "."] in
  let u_df :=
    frame [0; 1; 2; 3]
      ([("state", states);
        ("utility_id_eia", [Int 7; Int 8; Int 9; Int 10]);
        ("report_date", [Date 2016 1 1; Date 2016 1 1; Date 2016 1 1;
                         Date 2016 1 1])]
       ++ filled utilities_boolean_columns [Str "Y"; Str "N"; NA; Str "X"]) in
  exists acc',
    utilities (H := plain_helpers) {[ "utility" := u_df ]} ∅ = Ok acc' /\
    exists out states',
      acc' !! "utilities_eia860" = Some out /\
      index out = index u_df /\
      columns out !! "state" = Some states' /\
      length states' = length states /\
      forall i s, states !! i = Some (Str s) ->
        (upper s = "QB" -> states' !! i = Some (Str "QC")) /\
        (upper s = "Y" -> states' !! i = Some (Str "NY")) /\
        (upper s <> "QB" -> upper s <> "Y" -> is_eia_na s = false ->
         states' !! i = Some (Str (upper s))) /\
        (is_eia_na s = true -> states' !! i = Some NA).
Proof.
  intros states u_df.
  exists utilities_example.
  split; [by_running|].
  eapply (utilities_state_codes (H := plain_helpers)
            {[ "utility" := u_df ]} ∅ _ u_df states).
  - apply plain_bystander.
  - reflexivity.
  - reflexivity.
  - by_running.
Defined.

(** C9, as stated, fails: a state that is a period is neither "QB" nor "Y"
    when upper-cased, and it does not come out as its upper-cased form: it
    comes out missing, as the blank state next to it does. *)
Lemma utilities_marker_state_is_missing :
  let states := [Str "."; Str " "] in
  let u_df :=
    frame [0; 1]
      ([("state", states);
        ("utility_id_eia", [Int 7; Int 8]);
        ("report_date", [Date 2016 1 1; Date 2016 1 1])]
       ++ filled utilities_boolean_columns [Str "Y"; Str "N"]) in
  upper "." <> "QB" /\ upper "." <> "Y" /\
  (acc' ← utilities (H := plain_helpers) {[ "utility" := u_df ]} ∅;
   mret (d ← acc' !! "utilities_eia860"; columns d !! "state"))
  = Ok (Some [NA; NA]) /\
  [NA; NA] <> [Str (upper "."); Str (upper " ")].
Proof.
  intros states u_df. split; [discriminate|]. split; [discriminate|].
  split; [by_running|discriminate].
Qed.

(** ** [ownership] *)

Lemma bind_Raise {A B : Type} (f : A -> result B) (m : result A) (e : exn) :
  m ≫= f = Raise e -> m = Raise e \/ exists a, m = Ok a /\ f a = Raise e.
Proof. destruct m as [a|e']; simpl; [eauto|]. intros [= ->]. by left. Qed.

Lemma builtin_min_years (x : Z) (rest : list Z) :
  builtin_min (Some <$> x :: rest) = Ok (Some (foldl Z.min x rest)).
Proof.
  simpl. f_equal. revert x.
  induction rest as [|y rest IH]; intros x; simpl; [done|].
  destruct (Z.ltb_spec y x); rewrite IH; do 2 f_equal; lia.
Qed.


Lemma running_min_missing (rest : list (option Z)) :
  foldl (fun m y => if below y m then y else m) None rest = None.
Proof.
  induction rest as [|y rest IH]; [done|]. simpl.
  by destruct y.
Qed.

Lemma running_min_year (x : Z) (rest : list (option Z)) :
  exists m,
    foldl (fun m y => if below y m then y else m) (Some x) rest = Some m /\
    forall bound, m < bound <-> x < bound \/ Exists (year_before bound) rest.
Proof.
  revert x. induction rest as [|y rest IH]; intros x.
  { exists x. split; [done|]. intros bound. rewrite Exists_nil. tauto. }
  simpl. destruct y as [z|]; simpl.
  - destruct (Z.ltb_spec z x) as [Hlt|Hge].
    + destruct (IH z) as (m & -> & Hm). exists m. split; [done|].
      intros bound. rewrite Hm, Exists_cons. unfold year_before at 2.
      split.
      * intros [?|?]; [|tauto]. right. left. eauto.
      * intros [?|[(z' & [= <-] & ?)|?]]; [lia|tauto|tauto].
    + destruct (IH x) as (m & -> & Hm). exists m. split; [done|].
      intros bound. rewrite Hm, Exists_cons. unfold year_before at 2.
      split; [tauto|].
      intros [?|[(z' & [= <-] & ?)|?]]; [tauto|lia|tauto].
  - destruct (IH x) as (m & -> & Hm). exists m. split; [done|].
    intros bound. rewrite Hm, Exists_cons. unfold year_before at 2.
    split; [tauto|]. intros [?|[(z' & [=] & ?)|?]]; tauto.
Qed.

Lemma dt_year_raises (dates : list value) (e : exn) :
  dt_year dates = Raise e -> e = AttributeError.
Proof.
  unfold dt_year. induction dates as [|v dates IH]; [done|].
  cbn [mapM]. intros [Hv | (y & _ & Hrest)]%bind_Raise.
  - destruct v; congruence.
  - apply bind_Raise in Hrest as [Hrest | (? & _ & ?)]; [by apply IH|done].
Qed.

Lemma rescale_2011_lookup (years : list (option Z)) (col col' : list value) :
  rescale_2011 years col = Ok col' ->
  length col' = length col /\
  forall i y v, years !! i = Some y -> col !! i = Some v ->
    (y = Some 2011 -> exists v', div100 v = Ok v' /\ col' !! i = Some v') /\
    (y <> Some 2011 -> col' !! i = Some v).
Proof.
  revert col col'. induction years as [|y0 years IH]; intros col col'.
  - simpl. intros [= <-]. split; [done|]. intros i y v Hy. by destruct i.
  - destruct col as [|v0 col]; simpl.
    { intros [= <-]. split; [done|]. intros i y v _ Hv. by destruct i. }
    intros Hrun. run Hrun as v0' Hv0. run Hrun as rest Hrest.
    injection Hrun as <-. destruct (IH _ _ Hrest) as [Hlen Hat].
    split; [simpl; by rewrite Hlen|].
    intros [|i] y v; simpl.
    + intros [= ->] [= ->]. case_bool_decide as Hy.
      * split; [eauto|done].
      * injection Hv0 as <-. split; [done|done].
    + apply Hat.
Qed.

Lemma rescale_2011_raises (years : list (option Z)) (col : list value) e :
  rescale_2011 years col = Raise e -> e = TypeError.
Proof.
  revert col. induction years as [|y0 years IH]; intros [|v0 col]; simpl;
    try discriminate.
  intros [Hv|(v' & _ & [Hr|(rest & _ & Hr)]%bind_Raise)]%bind_Raise.
  - case_bool_decide; [|discriminate].
    destruct v0; simpl in Hv; congruence.
  - by eapply IH.
  - discriminate.
Qed.

Section Ownership.
Context `{Helpers}.

Implicit Types (dfs acc : tables) (df : DataFrame).

Lemma astype_int_column_inv c df df' :
  astype_int_column c df = Ok df' ->
  exists col', df' = setcol df c col'.
Proof.
  unfold astype_int_column. intros Hrun. run Hrun as col Hcol.
  destruct (mapM astype_int col) as [col'|]; [|discriminate].
  injection Hrun as <-. eauto.
Qed.

Lemma astype_int_column_touches c df df' :
  astype_int_column c df = Ok df' -> touches [c] df df'.
Proof. intros [col' ->]%astype_int_column_inv. apply setcol_touches. Qed.

Lemma astype_int_column_raises c df e :
  astype_int_column c df = Raise e -> e <> AssertionError.
Proof.
  unfold astype_int_column, getcol.
  destruct (columns df !! c) as [col|]; simpl; [|by intros [= <-]].
  destruct (mapM astype_int col); [discriminate|by intros [= <-]].
Qed.

(** The steps after the assertion cannot fail it. *)
Lemma ownership_tail_raises df years acc e :
  (fraction ← getcol df "fraction_owned";
   fraction ← rescale_2011 years fraction;
   let o_df := setcol df "fraction_owned" fraction in
   o_df ← astype_int_column "owner_utility_id_eia" o_df;
   o_df ← astype_int_column "utility_id_eia" o_df;
   o_df ← astype_int_column "plant_id_eia" o_df;
   mret (<["ownership_eia860" := o_df]> acc)) = Raise e ->
  e <> AssertionError.
Proof.
  intros [Hg|(fr & _ & [Hr|(fr' & _ & Hrun)]%bind_Raise)]%bind_Raise.
  - unfold getcol in Hg. destruct (columns df !! _); by inversion Hg.
  - apply rescale_2011_raises in Hr. by subst e.
  - cbv zeta in Hrun.
    apply bind_Raise in Hrun as [Hr|(d1 & _ & Hrun)];
      [by eapply astype_int_column_raises|].
    apply bind_Raise in Hrun as [Hr|(d2 & _ & Hrun)];
      [by eapply astype_int_column_raises|].
    apply bind_Raise in Hrun as [Hr|(d3 & _ & Hrun)];
      [by eapply astype_int_column_raises|].
    discriminate.
Qed.

(** C5 (amended): [ownership] stops with an [AssertionError], storing no
    table, exactly when the ownership page is there with a [report_date]
    column of timestamps and missing dates, has at least one record, and
    either its first record has no report date or the report year of some
    record is before 2011. *)
Theorem ownership_asserts_iff_early_year dfs acc :
  ownership dfs acc = Raise AssertionError <->
  exists (o_df : DataFrame) (dates : list value) (y0 : option Z)
         (rest : list (option Z)),
    dfs !! "ownership" = Some o_df /\
    columns (convert_to_date (fix_eia_na o_df)) !! "report_date" = Some dates /\
    dt_year dates = Ok (y0 :: rest) /\
    (y0 = None \/ Exists (year_before 2011) (y0 :: rest)).
Proof.
  assert (forall o_df dates y0 rest,
            dfs !! "ownership" = Some o_df ->
            columns (convert_to_date (fix_eia_na o_df)) !! "report_date"
            = Some dates ->
            dt_year dates = Ok (y0 :: rest) ->
            ownership dfs acc = Raise AssertionError <->
            y0 = None \/ Exists (year_before 2011) (y0 :: rest)) as Hcore.
  { intros o_df dates y0 rest Ho Hdates Hyears.
    unfold ownership, lookup_table. rewrite Ho, bind_Ok_l.
    cbv zeta. unfold getattr. rewrite Hdates, bind_Ok_l.
    rewrite Hyears, bind_Ok_l. cbn [builtin_min]. rewrite bind_Ok_l.
    destruct y0 as [x|].
    - destruct (running_min_year x rest) as (m & -> & Hm).
      unfold at_least. specialize (Hm 2011).
      rewrite Exists_cons. unfold year_before at 1.
      destruct (Z.leb_spec 2011 m) as [Hmin|Hmin].
      + unfold assert. rewrite bind_Ok_l. split.
        * intros Hrun. by apply ownership_tail_raises in Hrun.
        * intros [?|[(z & [= <-] & ?)|?]]; [done|lia|].
          assert (m < 2011) by tauto. lia.
      + split; [|done]. intros _. right.
        destruct (proj1 Hm Hmin) as [?|?]; [left; eauto|by right].
    - rewrite running_min_missing. simpl. split; [by left|done]. }
  split.
  - intros Hrun. pose proof Hrun as Hraise.
    unfold ownership, lookup_table in Hrun.
    destruct (dfs !! "ownership") as [o_df|] eqn:Ho; [|done].
    rewrite bind_Ok_l in Hrun. cbv zeta in Hrun. unfold getattr in Hrun.
    destruct (columns (convert_to_date (fix_eia_na o_df)) !! "report_date")
      as [dates|] eqn:Hdates; [|done].
    rewrite bind_Ok_l in Hrun.
    destruct (dt_year dates) as [years|e] eqn:Hyears.
    2:{ simpl in Hrun. injection Hrun as ->.
        by apply dt_year_raises in Hyears. }
    destruct years as [|y0 rest]; [done|].
    exists o_df, dates, y0, rest. repeat split; try done.
    by apply (Hcore o_df dates y0 rest).
  - intros (o_df & dates & y0 & rest & Ho & Hdates & Hyears & Hearly).
    by apply (Hcore o_df dates y0 rest).
Qed.

(** C4: in the output of [ownership] the fraction of a 2011 record is the
    input number divided by 100, and the fraction of a record of any other
    year is the input number itself. *)
Theorem ownership_fraction_rescaled dfs acc (acc' : tables) (o_df : DataFrame)
    (fraction : list value) :
  bystander convert_to_date "fraction_owned" ->
  dfs !! "ownership" = Some o_df ->
  columns o_df !! "fraction_owned" = Some fraction ->
  ownership dfs acc = Ok acc' ->
  exists out dates years fraction',
    acc' !! "ownership_eia860" = Some out /\
    columns (convert_to_date (fix_eia_na o_df)) !! "report_date" = Some dates /\
    dt_year dates = Ok years /\
    columns out !! "fraction_owned" = Some fraction' /\
    length fraction' = length fraction /\
    forall i y v x,
      years !! i = Some y -> fraction !! i = Some v -> number v = Some x ->
      (y = Some 2011 ->
       fraction' !! i = Some (Num (PrimFloat.div x (float_of_Z 100)))) /\
      (y <> Some 2011 -> fraction' !! i = Some v).
Proof.
  intros Hdate Ho Hfraction Hrun. unfold ownership, lookup_table in Hrun.
  rewrite Ho, bind_Ok_l in Hrun. cbv zeta in Hrun.
  run Hrun as dates Hdates. run Hrun as years Hyears.
  run Hrun as first Hfirst. run Hrun as ok Hok.
  run Hrun as fr Hfr. run Hrun as fr' Hfr'.
  run Hrun as d1 Hd1. run Hrun as d2 Hd2. run Hrun as d3 Hd3.
  injection Hrun as <-.
  unfold getattr in Hdates.
  destruct (columns (convert_to_date (fix_eia_na o_df)) !! "report_date")
    as [dates'|] eqn:Edates; [|discriminate].
  injection Hdates as ->.
  unfold getcol in Hfr. destruct (Hdate (fix_eia_na o_df)) as [_ Hcol].
  rewrite Hcol in Hfr. unfold fix_eia_na, applymap in Hfr.
  cbn [columns] in Hfr. rewrite lookup_fmap, Hfraction in Hfr.
  injection Hfr as <-.
  apply rescale_2011_lookup in Hfr' as [Hlen Hat].
  apply astype_int_column_touches in Hd1 as [_ Hk1], Hd2 as [_ Hk2],
    Hd3 as [_ Hk3].
  exists d3, dates, years, fr'.
  split; [apply lookup_insert_eq|]. split; [done|]. split; [done|].
  split.
  { rewrite Hk3, Hk2, Hk1; [apply setcol_lookup|..];
      rewrite list_elem_of_In; simpl; intuition discriminate. }
  split; [by rewrite Hlen, length_fmap|].
  intros i y v x Hy Hv Hx.
  assert (fix_eia_na_cell v = v) as Hsame by (by destruct v).
  specialize (Hat i y v Hy). rewrite list_lookup_fmap, Hv in Hat.
  simpl in Hat. rewrite Hsame in Hat. destruct (Hat eq_refl) as [H11 Hother].
  split; [|done]. intros Hy11. destruct (H11 Hy11) as (v' & Hdiv & ->).
  destruct v; simpl in *; congruence.
Qed.

End Ownership.

Lemma ownership_asserts_iff_early_year_witness :
  let o_df :=
    frame [0; 1]
      [("report_date", [Date 2012 1 1; Date 2010 1 1]);
       ("fraction_owned", [Num 0.5; Int 50]);
       ("owner_utility_id_eia", [Int 1; Int 2]);
       ("utility_id_eia", [Int 3; Int 4]);
       ("plant_id_eia", [Int 5; Int 6])] in
  ownership (H := plain_helpers) {[ "ownership" := o_df ]} ∅
  = Raise AssertionError.
Proof.
  intros o_df.
  apply (ownership_asserts_iff_early_year (H := plain_helpers)
           {[ "ownership" := o_df ]} ∅).
  exists o_df, [Date 2012 1 1; Date 2010 1 1], (Some 2012), [Some 2010].
  split; [reflexivity|]. split; [vm_compute; reflexivity|].
  split; [reflexivity|]. right. apply Exists_cons_tl, Exists_cons_hd.
  exists 2010. split; [reflexivity|lia].
Defined.

(** C5, as stated, fails: the first record of this table has no report
    date and the other is of 2012.  The smallest year the code finds is
    the missing one, the assertion fails, and no record's year is before
    2011. *)
Lemma ownership_asserts_without_early_year :
  let dates := [NA; Date 2012 1 1] in
  let o_df :=
    frame [0; 1]
      [("report_date", dates);
       ("fraction_owned", [Num 0.5; Num 0.25]);
       ("owner_utility_id_eia", [Int 1; Int 2]);
       ("utility_id_eia", [Int 3; Int 4]);
       ("plant_id_eia", [Int 5; Int 6])] in
  ownership (H := plain_helpers) {[ "ownership" := o_df ]} ∅
  = Raise AssertionError /\
  dt_year dates = Ok [None; Some 2012] /\
  ~ Exists (year_before 2011) [None; Some 2012].
Proof.
  split; [by vm_compute|]. split; [reflexivity|].
  intros Hex. apply Exists_exists in Hex as (y & Hy & z & -> & Hz).
  apply list_elem_of_In in Hy. simpl in Hy.
  destruct Hy as [Hy|[Hy|[]]]; [discriminate|]. injection Hy as <-. lia.
Qed.

#[local] Set Warnings "-inexact-float".

(** The table of the scenario: a 2011 record with 45 and a 2012 record with
    0.30. *)
Lemma ownership_fraction_rescaled_witness :
  let fraction := [Int 45; Num 0.30] in
  let o_df :=
    frame [0; 1]
      [("report_date", [Date 2011 1 1; Date 2012 1 1]);
       ("fraction_owned", fraction);
       ("owner_utility_id_eia", [Int 1; Int 2]);
       ("utility_id_eia", [Int 3; Int 4]);
       ("plant_id_eia", [Int 5; Int 6])] in
  exists acc',
    ownership (H := plain_helpers) {[ "ownership" := o_df ]} ∅ = Ok acc' /\
    exists out dates years fraction',
      acc' !! "ownership_eia860" = Some out /\
      columns (@convert_to_date plain_helpers (fix_eia_na o_df))
        !! "report_date" = Some dates /\
      dt_year dates = Ok years /\
      columns out !! "fraction_owned" = Some fraction' /\
      length fraction' = length fraction /\
      forall i y v x,
        years !! i = Some y -> fraction !! i = Some v -> number v = Some x ->
        (y = Some 2011 ->
         fraction' !! i = Some (Num (PrimFloat.div x (float_of_Z 100)))) /\
        (y <> Some 2011 -> fraction' !! i = Some v).
Proof.
  intros fraction o_df.
  exists ownership_example.
  split; [by_running|].
  eapply (ownership_fraction_rescaled (H := plain_helpers)
            {[ "ownership" := o_df ]} ∅ _ o_df fraction).
  - apply plain_bystander.
  - reflexivity.
  - reflexivity.
  - by_running.
Defined.

(** The scenario itself: 45 becomes 0.45 and 0.30 stays. *)
Example ownership_scenario :
  let o_df :=
    frame [0; 1]
      [("report_date", [Date 2011 1 1; Date 2012 1 1]);
       ("fraction_owned", [Int 45; Num 0.30]);
       ("owner_utility_id_eia", [Int 1; Int 2]);
       ("utility_id_eia", [Int 3; Int 4]);
       ("plant_id_eia", [Int 5; Int 6])] in
  (acc' ← ownership (H := plain_helpers) {[ "ownership" := o_df ]} ∅;
   mret (d ← acc' !! "ownership_eia860"; columns d !! "fraction_owned"))
  = Ok (Some [Num 0.45; Num 0.30]).
Proof. vm_compute. reflexivity. Qed.

(** ** The boolean fix *)

Lemma fix_eia_na_cell_missing (v : value) :
  isna v = true -> fix_eia_na_cell v = v.
Proof. by destruct v. Qed.

Lemma x_to_n_missing (col : list value) (i : nat) (v : value) :
  col !! i = Some v -> isna v = true -> x_to_n col !! i = Some v.
Proof.
  intros Hv Hna. unfold x_to_n, replace_where.
  rewrite list_lookup_fmap, Hv. simpl. by destruct v.
Qed.

Lemma boolean_fix_missing (col : list value) (i : nat) (v : value) :
  col !! i = Some v -> isna v = true ->
  (yes_no <$> fillna (Str "False") col) !! i = Some (Str "False").
Proof.
  intros Hv Hna. unfold fillna. rewrite !list_lookup_fmap, Hv. simpl.
  by rewrite Hna.
Qed.

Section Plants.
Context `{Helpers}.

Lemma astype_str_column_touches c (df df' : DataFrame) :
  astype_str_column c df = Ok df' -> touches [c] df df'.
Proof.
  unfold astype_str_column. intros (col & _ & ->)%update_col_inv.
  apply setcol_touches.
Qed.

(** A step of [x_to_n] on any column leaves the missing cells of every
    column where they are. *)
Lemma x_to_n_step_missing c c' (df df' : DataFrame) (col : list value) :
  update_attr x_to_n c' df = Ok df' ->
  columns df !! c = Some col ->
  exists col', columns df' !! c = Some col' /\
    forall i v, col !! i = Some v -> isna v = true -> col' !! i = Some v.
Proof.
  intros (colx & Hcolx & ->)%update_attr_inv Hcol.
  destruct (decide (c = c')) as [<-|Hne].
  - rewrite Hcol in Hcolx. injection Hcolx as <-.
    exists (x_to_n col). split; [apply setcol_lookup|].
    intros i v. apply x_to_n_missing.
  - exists col. split; [|done]. simpl. by rewrite lookup_insert_ne.
Qed.

(** C2, as the code has it: a cell of a boolean-fix column of [plants] that
    holds no value comes out as the text ['False'], which the replacement of
    "Y" and "N" then leaves alone. *)
Theorem plants_missing_flag_is_text (dfs acc acc' : tables) (p_df : DataFrame)
    (c : string) (col : list value) :
  bystander convert_to_date c ->
  c ∈ plants_boolean_columns ->
  dfs !! "plant" = Some p_df ->
  columns p_df !! c = Some col ->
  plants dfs acc = Ok acc' ->
  exists out col',
    acc' !! "plants_eia860" = Some out /\
    columns out !! c = Some col' /\
    forall i v, col !! i = Some v -> isna v = true ->
      col' !! i = Some (Str "False") /\ Str "False" <> Bool false.
Proof.
  intros Hdate Hc Hp Hcol Hrun. unfold plants, lookup_table in Hrun.
  rewrite Hp, bind_Ok_l in Hrun. cbv zeta in Hrun.
  run Hrun as d1 Hd1. run Hrun as d2 Hd2. run Hrun as d3 Hd3.
  run Hrun as d4 Hd4. run Hrun as d5 Hd5. run Hrun as d6 Hd6.
  run Hrun as d7 Hd7. run Hrun as d8 Hd8. injection Hrun as <-.
  assert (c ∉ ["zip_code"]) as Hzip.
  { intros ->%list_elem_of_singleton. revert Hc.
    rewrite list_elem_of_In. simpl. intuition discriminate. }
  assert ((c ∉ ["plant_id_eia"]) /\ (c ∉ ["utility_id_eia"])
          /\ (c ∉ ["primary_purpose_naics_id"])) as (Hn1 & Hn2 & Hn3).
  { repeat split; intros ->%list_elem_of_singleton; revert Hc;
      rewrite list_elem_of_In; simpl; intuition discriminate. }
  apply astype_str_column_touches in Hd1 as [_ Hk1].
  assert (columns d1 !! c = Some (fix_eia_na_cell <$> col)) as Hc1.
  { rewrite Hk1 by done. unfold fix_eia_na, applymap. cbn [columns].
    by rewrite lookup_fmap, Hcol. }
  destruct (x_to_n_step_missing c _ _ _ _ Hd2 Hc1) as (col2 & Hc2 & Hm2).
  destruct (x_to_n_step_missing c _ _ _ _ Hd3 Hc2) as (col3 & Hc3 & Hm3).
  destruct (x_to_n_step_missing c _ _ _ _ Hd4 Hc3) as (col4 & Hc4 & Hm4).
  assert (NoDup plants_boolean_columns) as Hnd
    by (apply (bool_decide_unpack _); by vm_compute).
  pose proof (for_each_fix_boolean _ _ _ c col4 Hnd Hc Hd5 Hc4) as Hc5.
  apply astype_int_column_touches in Hd6 as [_ Hk6], Hd7 as [_ Hk7],
    Hd8 as [_ Hk8].
  destruct (Hdate d8) as [_ Hk9].
  eexists _, _. split; [apply lookup_insert_eq|].
  split; [by rewrite Hk9, Hk8, Hk7, Hk6|].
  intros i v Hv Hna. split; [|done].
  apply boolean_fix_missing with (v := v); [|done].
  apply Hm4; [|done]. apply Hm3; [|done]. apply Hm2; [|done].
  rewrite list_lookup_fmap, Hv. simpl. by rewrite fix_eia_na_cell_missing.
Qed.

End Plants.

Lemma plants_missing_flag_is_text_witness :
  let col := [NA; Str "Y"; Str "X"] in
  let p_df :=
    frame [0; 1; 2]
      ([("zip_code", [Int 2139; Int 80301; Int 94110]);
        ("plant_id_eia", [Int 1; Int 2; Int 3]);
        ("utility_id_eia", [Int 4; Int 5; Int 6]);
        ("primary_purpose_naics_id", [Int 22; Int 22; Int 22]);
        ("report_date", [Date 2016 1 1; Date 2016 1 1; Date 2016 1 1])]
       ++ filled plants_boolean_columns col) in
  exists acc',
    plants (H := plain_helpers) {[ "plant" := p_df ]} ∅ = Ok acc' /\
    exists out col',
      acc' !! "plants_eia860" = Some out /\
      columns out !! "ash_impoundment_lined" = Some col' /\
      forall i v, col !! i = Some v -> isna v = true ->
        col' !! i = Some (Str "False") /\ Str "False" <> Bool false.
Proof.
  intros col p_df.
  exists plants_example.
  split; [by_running|].
  eapply (plants_missing_flag_is_text (H := plain_helpers)
            {[ "plant" := p_df ]} ∅ _ p_df "ash_impoundment_lined" col).
  - apply plain_bystander.
  - by_evaluation.
  - reflexivity.
  - reflexivity.
  - by_running.
Defined.

(** ** Stacking frames *)

Section Stacking.

Implicit Types (df acc : DataFrame) (c : string) (frames : list DataFrame).

Lemma append_frames_lookup (a b : DataFrame) c :
  columns (append_frames a b) !! c =
  match columns a !! c, columns b !! c with
  | None, None => None
  | oa, ob => Some (column_or_missing (nrows a) oa ++
                    column_or_missing (nrows b) ob)
  end.
Proof.
  unfold append_frames. cbn [columns]. rewrite lookup_merge.
  by destruct (columns a !! c), (columns b !! c).
Qed.

Lemma append_frames_nrows (a b : DataFrame) :
  nrows (append_frames a b) = (nrows a + nrows b)%nat.
Proof. unfold nrows, append_frames. cbn [index]. apply length_app. Qed.

Lemma append_frames_column (a b : DataFrame) c :
  column_or_missing (nrows (append_frames a b))
                    (columns (append_frames a b) !! c)
  = column_or_missing (nrows a) (columns a !! c) ++
    column_or_missing (nrows b) (columns b !! c).
Proof.
  rewrite append_frames_lookup, append_frames_nrows.
  destruct (columns a !! c), (columns b !! c); simpl; try done.
  apply replicate_add.
Qed.

Lemma foldl_append_index acc frames :
  index (foldl append_frames acc frames) = index acc ++ mjoin (index <$> frames).
Proof.
  revert acc. induction frames as [|f frames IH]; intros acc; simpl.
  - by rewrite app_nil_r.
  - rewrite IH. cbn [append_frames index]. by rewrite <- app_assoc.
Qed.

Lemma foldl_append_column acc frames c :
  column_or_missing (nrows (foldl append_frames acc frames))
                    (columns (foldl append_frames acc frames) !! c)
  = column_or_missing (nrows acc) (columns acc !! c) ++ stacked c frames.
Proof.
  revert acc. induction frames as [|f frames IH]; intros acc; simpl.
  - by rewrite app_nil_r.
  - rewrite IH, append_frames_column. by rewrite <- app_assoc.
Qed.

Lemma foldl_append_present acc frames c :
  is_Some (columns acc !! c) ->
  is_Some (columns (foldl append_frames acc frames) !! c).
Proof.
  revert acc. induction frames as [|f frames IH]; intros acc Hc; simpl; [done|].
  apply IH. rewrite append_frames_lookup.
  destruct Hc as [col ->]. by destruct (columns f !! c).
Qed.

(** A column of the stack, when the stack has it. *)
Lemma concat_lookup frames c col :
  columns (concat frames) !! c = Some col -> col = stacked c frames.
Proof.
  intros Hcol. pose proof (foldl_append_column empty_frame frames c) as Hst.
  unfold concat in Hcol. rewrite Hcol in Hst. simpl in Hst.
  by rewrite lookup_empty in Hst.
Qed.

Lemma concat_index frames : index (concat frames) = mjoin (index <$> frames).
Proof. unfold concat. by rewrite foldl_append_index. Qed.

Lemma stacked_length frames c :
  Forall well_formed frames ->
  length (stacked c frames) = length (mjoin (index <$> frames)).
Proof.
  induction 1 as [|f frames Hf _ IH]; simpl; [done|].
  rewrite !length_app, IH. f_equal.
  destruct (columns f !! c) as [col|] eqn:Hcol; simpl.
  - by apply (Hf c col).
  - apply length_replicate.
Qed.

(** *** Row selection *)

Lemma select_length {A : Type} (mask : list bool) (l : list A) :
  length mask = length l ->
  (length (select mask l) + length (List.filter negb mask) = length l)%nat.
Proof.
  revert l. induction mask as [|b mask IH]; intros [|x l]; simpl; try done.
  intros [= Hlen]. specialize (IH l Hlen). destruct b; simpl; lia.
Qed.

Lemma select_Forall {A : Type} (P : A -> Prop) (mask : list bool) (l : list A) :
  Forall P l -> Forall P (select mask l).
Proof.
  intros Hall. revert mask.
  induction Hall as [|x l Hx _ IH]; intros [|b mask]; simpl; try done.
  destruct b; [by constructor|done].
Qed.

Lemma zip_with_true (mask : list bool) :
  zip_with andb (replicate (length mask) true) mask = mask.
Proof. induction mask as [|b mask IH]; simpl; [done|]. by rewrite IH. Qed.

Lemma notna_mask_pair (gids pids : list value) :
  notna_mask [gids; pids] (length gids)
  = zip_with (fun g p => negb (isna g) && negb (isna p)) gids pids.
Proof.
  unfold notna_mask. simpl.
  rewrite <- (length_fmap (fun v => negb (isna v)) gids), zip_with_true.
  revert pids. induction gids as [|g gids IH]; intros [|p pids]; simpl;
    try done.
  by rewrite IH.
Qed.

End Stacking.

(** ** [generators] *)

Section Generators.
Context `{Helpers}.

Implicit Types (df : DataFrame) (c : string).

Lemma getcol_inv df c col : getcol df c = Ok col -> columns df !! c = Some col.
Proof. unfold getcol. destruct (columns df !! c); by intros [= ->]. Qed.

Lemma dropna_identifiers df df' :
  dropna ["generator_id"; "plant_id_eia"] df = Ok df' ->
  exists gids pids,
    columns df !! "generator_id" = Some gids /\
    columns df !! "plant_id_eia" = Some pids /\
    df' = loc_rows (notna_mask [gids; pids] (nrows df)) df.
Proof.
  unfold dropna. intros Hrun. run Hrun as cols Hcols.
  injection Hrun as <-. simpl in Hcols.
  run Hcols as gids Hgids. run Hcols as rest Hrest.
  run Hrest as pids Hpids. injection Hrest as <-. injection Hcols as <-.
  apply getcol_inv in Hgids, Hpids. eauto.
Qed.

Lemma update_col_touches (f : list value -> list value) c df df' :
  update_col f c df = Ok df' -> touches [c] df df'.
Proof. intros (col & _ & ->)%update_col_inv. apply setcol_touches. Qed.

Lemma update_attr_touches (f : list value -> list value) c df df' :
  update_attr f c df = Ok df' -> touches [c] df df'.
Proof. intros (col & _ & ->)%update_attr_inv. apply setcol_touches. Qed.

Lemma setattr_touches df c col : touches [c] df (setattr df c col).
Proof.
  unfold setattr. destruct (columns df !! c);
    [apply setcol_touches|apply touches_refl].
Qed.

(** The stacked table: the identified rows of the stack, in the order of
    the stack, every cell through the missing-data rewrite; only the
    numeric columns of [columns_to_fix] are rewritten further. *)
Lemma generators_stacked_inv (gp_df ge_df gr_df : DataFrame) df :
  generators_stacked gp_df ge_df gr_df = Ok df ->
  let stack := concat (tagged gp_df ge_df gr_df) in
  exists gids pids,
    columns stack !! "generator_id" = Some gids /\
    columns stack !! "plant_id_eia" = Some pids /\
    let mask := notna_mask [gids; pids] (nrows stack) in
    index df = select mask (index stack) /\
    forall c, c ∉ columns_to_fix ->
      columns df !! c
      = (fun col : list value => fix_eia_na_cell <$> select mask col)
          <$> columns stack !! c.
Proof.
  unfold generators_stacked. intros Hrun. cbv zeta in *.
  set (stack := concat (tagged gp_df ge_df gr_df)) in *.
  run Hrun as d1 Hd1.
  apply dropna_identifiers in Hd1 as (gids & pids & Hg & Hp & ->).
  exists gids, pids. split; [done|]. split; [done|].
  set (mask := notna_mask [gids; pids] (nrows stack)) in *.
  apply (for_each_touches _ _ _ _
           (update_col_touches (replace_where blank_or_zero NA))) in Hrun
    as [Hi Hk].
  split; [by rewrite Hi|]. intros c Hc. rewrite Hk by done.
  unfold fix_eia_na, applymap, loc_rows. cbn [columns].
  rewrite !lookup_fmap. by destruct (columns stack !! c).
Qed.

Lemma x_to_n_twice (col : list value) : x_to_n (x_to_n col) = x_to_n col.
Proof.
  unfold x_to_n, replace_where. rewrite <- list_fmap_compose.
  apply list_fmap_ext. intros i v _. simpl.
  by destruct (equals_str "X" v) eqn:Hx; [|rewrite Hx].
Qed.

Lemma for_each_fix_boolean_present (cols : list string) df df' c :
  for_each fix_boolean_column cols df = Ok df' -> c ∈ cols ->
  is_Some (columns df !! c).
Proof.
  revert df. induction cols as [|c0 cols IH]; intros df Hrun Hc;
    [by inversion Hc|].
  simpl in Hrun. run Hrun as d Hd.
  apply fix_boolean_column_inv in Hd as (col & Hcol & ->).
  destruct (decide (c = c0)) as [->|Hne]; [by eexists|].
  assert (c ∈ cols) as Hin by (by apply elem_of_cons in Hc as [?|?]).
  destruct (IH _ Hrun Hin) as [colc Hcolc]. exists colc.
  by rewrite <- Hcolc; cbn [setcol columns]; rewrite lookup_insert_ne.
Qed.

(** The flag rewrites keep the rows, write to boolean-fix columns only, and
    leave in [syncronized_transmission_grid] the boolean fix of the bypass
    column with "X" read as "N". *)
Lemma generators_flags_inv df df' :
  generators_flags df = Ok df' ->
  touches generators_boolean_columns df df' /\
  exists bypass,
    columns df !! "heat_bypass_recovery" = Some bypass /\
    columns df' !! "syncronized_transmission_grid"
    = Some (yes_no <$> fillna (Str "False") (x_to_n bypass)).
Proof.
  unfold generators_flags. intros Hrun.
  run Hrun as d1 Hd1. run Hrun as d2 Hd2. run Hrun as bypass Hbypass.
  run Hrun as d4 Hd4. run Hrun as d5 Hd5.
  set (d3 := setattr d2 "syncronized_transmission_grid" (x_to_n bypass)) in *.
  assert (NoDup generators_boolean_columns) as Hnd by by_evaluation.
  pose proof (update_attr_touches _ _ _ _ Hd1) as T1.
  pose proof (update_attr_touches _ _ _ _ Hd2) as T2.
  pose proof (setattr_touches d2 "syncronized_transmission_grid"
                (x_to_n bypass)) as T3. fold d3 in T3.
  pose proof (update_attr_touches _ _ _ _ Hd4) as T4.
  pose proof (update_attr_touches _ _ _ _ Hd5) as T5.
  pose proof (for_each_touches _ _ _ _ fix_boolean_column_touches Hrun) as T6.
  split.
  { eapply touches_trans; [|exact T6].
    eapply touches_trans; [|eapply touches_weaken; [|exact T5]].
    eapply touches_trans; [|eapply touches_weaken; [|exact T4]].
    eapply touches_trans; [|eapply touches_weaken; [|exact T3]].
    eapply touches_trans; [|eapply touches_weaken; [|exact T2]].
    eapply touches_weaken; [|exact T1].
    all: intros c ->%list_elem_of_singleton; by_evaluation. }
  apply update_attr_inv in Hd2 as (b0 & Hb0 & Ed2).
  destruct T1 as [_ K1]. rewrite K1 in Hb0 by by_evaluation.
  exists b0. split; [done|].
  assert (bypass = x_to_n b0) as ->.
  { unfold getattr in Hbypass. rewrite Ed2, setcol_lookup in Hbypass.
    by injection Hbypass. }
  destruct (for_each_fix_boolean_present _ _ _
              "syncronized_transmission_grid" Hrun) as [sync Hsync];
    [by_evaluation|].
  rewrite (for_each_fix_boolean _ d5 df' _ sync Hnd);
    [|by_evaluation|done|done].
  destruct T5 as [_ K5], T4 as [_ K4].
  rewrite K5, K4 in Hsync by by_evaluation.
  unfold d3, setattr in Hsync.
  destruct (columns d2 !! "syncronized_transmission_grid") eqn:E2.
  - rewrite setcol_lookup in Hsync. injection Hsync as <-.
    by rewrite x_to_n_twice.
  - by rewrite E2 in Hsync.
Qed.

(** The finishing steps keep the rows and every column they do not own. *)
Lemma generators_finish_keeps c df df' :
  finishing_bystander c ->
  c ∉ ["fuel_type_code_pudl"; "plant_id_eia"; "generator_id";
       "utility_id_eia"] ->
  generators_finish df = Ok df' ->
  index df' = index df /\ columns df' !! c = columns df !! c.
Proof.
  intros (Hmonth & Hstrip & Hdate) Hc. unfold generators_finish.
  intros Hrun. cbv zeta in Hrun.
  run Hrun as codes Hcodes. run Hrun as d1 Hd1. run Hrun as d2 Hd2.
  run Hrun as d3 Hd3. injection Hrun as <-.
  destruct (Hdate d3) as [I5 K5].
  apply astype_int_column_touches in Hd3 as [I4 K4].
  apply astype_str_column_touches in Hd2 as [I3 K3].
  apply astype_int_column_touches in Hd1 as [I2 K2].
  match type of I2 with
  | _ = index (strip_lower ?d _) => destruct (Hstrip d) as [I1 K1]
  end.
  destruct (Hmonth df) as [I0 K0].
  assert (c <> "fuel_type_code_pudl" /\ (c ∉ ["plant_id_eia"]) /\
          (c ∉ ["generator_id"]) /\ (c ∉ ["utility_id_eia"]))
    as (N1 & N2 & N3 & N4).
  { repeat split; [intros ->|intros ->%list_elem_of_singleton..];
      apply Hc; by_evaluation. }
  split.
  - rewrite I5, I4, I3, I2, I1. cbn [setcol index]. apply I0.
  - rewrite K5, K4, K3, K2, K1 by done. cbn [setcol columns].
    rewrite lookup_insert_ne by done. apply K0.
Qed.

Lemma setcol_scalar_well_formed df c (v : value) :
  well_formed df -> well_formed (setcol_scalar df c v).
Proof.
  intros Hwf c' col. unfold setcol_scalar, setcol. cbn [columns].
  destruct (decide (c = c')) as [->|Hne].
  - rewrite lookup_insert_eq. intros [= <-]. apply length_replicate.
  - rewrite lookup_insert_ne by done. apply Hwf.
Qed.

Lemma stacked_tagged (gp_df ge_df gr_df : DataFrame) c :
  c <> "operational_status_code" ->
  stacked c (tagged gp_df ge_df gr_df) = stacked c [ge_df; gp_df; gr_df].
Proof.
  intros Hc. unfold tagged, stacked, setcol_scalar, setcol, nrows.
  cbn [foldr index columns]. by rewrite !lookup_insert_ne.
Qed.

Lemma stacked_status (gp_df ge_df gr_df : DataFrame) :
  columns (concat (tagged gp_df ge_df gr_df)) !! "operational_status_code"
  = Some (stacked_tags gp_df ge_df gr_df).
Proof.
  unfold concat, tagged. cbn [foldl]. rewrite !append_frames_lookup.
  unfold setcol_scalar. rewrite !setcol_lookup. cbn [empty_frame columns].
  rewrite lookup_empty. cbn [column_or_missing default].
  unfold stacked_tags, nrows. cbn [setcol index empty_frame]. simpl.
  by rewrite <- app_assoc.
Qed.

Lemma stacked_tags_fixed (gp_df ge_df gr_df : DataFrame) (mask : list bool) :
  fix_eia_na_cell <$> select mask (stacked_tags gp_df ge_df gr_df)
  = select mask (stacked_tags gp_df ge_df gr_df).
Proof.
  rewrite <- (list_fmap_id (select mask _)) at 2.
  apply Forall_fmap_ext_1, select_Forall. unfold stacked_tags.
  rewrite !Forall_app. repeat split; by apply Forall_replicate.
Qed.

(** Under well-formed inputs the stacked table holds the identified rows of
    the three sub-tables: existing, then proposed, then retired. *)
Lemma generators_stacked_rows (gp_df ge_df gr_df : DataFrame) df :
  well_formed gp_df -> well_formed ge_df -> well_formed gr_df ->
  generators_stacked gp_df ge_df gr_df = Ok df ->
  let keep := identified [ge_df; gp_df; gr_df] in
  index df = select keep (index ge_df ++ index gp_df ++ index gr_df) /\
  length keep = length (index ge_df ++ index gp_df ++ index gr_df) /\
  forall c, c ∉ columns_to_fix ->
    columns df !! c
    = (fun col : list value => fix_eia_na_cell <$> select keep col)
        <$> columns (concat (tagged gp_df ge_df gr_df)) !! c.
Proof.
  intros Wp We Wr Hd1.
  apply generators_stacked_inv in Hd1 as (gids & pids & Hg & Hpid & Hi1 & Hk1).
  apply concat_lookup in Hg, Hpid.
  rewrite stacked_tagged in Hg, Hpid by done.
  set (stack := concat (tagged gp_df ge_df gr_df)) in *.
  assert (index stack = index ge_df ++ index gp_df ++ index gr_df) as Hstack.
  { unfold stack. rewrite concat_index. unfold tagged, setcol_scalar.
    cbn [fmap list_fmap setcol index mjoin]. simpl. by rewrite app_nil_r. }
  assert (Forall well_formed [ge_df; gp_df; gr_df]) as Hwf
    by (by repeat constructor).
  assert (nrows stack = length gids) as Hn.
  { unfold nrows. rewrite Hstack, Hg, (stacked_length _ _ Hwf). simpl.
    by rewrite app_nil_r. }
  rewrite Hn, notna_mask_pair in Hi1, Hk1. rewrite Hg, Hpid in Hi1, Hk1.
  fold (identified [ge_df; gp_df; gr_df]) in Hi1, Hk1.
  cbv zeta. split; [by rewrite Hi1, Hstack|]. split; [|done].
  unfold identified. rewrite length_zip_with.
  rewrite !(stacked_length _ _ Hwf). simpl. rewrite app_nil_r. lia.
Qed.

(** C6: the output of [generators] is the stack of the three sub-tables,
    existing then proposed then retired, without the rows that lack a
    generator or plant identifier; each remaining row carries the tag of
    the sub-table it comes from, and the rows kept and the rows dropped add
    up to the rows of the three inputs. *)
Theorem generators_union (dfs acc acc' : tables) (gp_df ge_df gr_df : DataFrame) :
  finishing_bystander "operational_status_code" ->
  well_formed gp_df -> well_formed ge_df -> well_formed gr_df ->
  dfs !! "generator_proposed" = Some gp_df ->
  dfs !! "generator_existing" = Some ge_df ->
  dfs !! "generator_retired" = Some gr_df ->
  generators dfs acc = Ok acc' ->
  exists out,
    let keep := identified [ge_df; gp_df; gr_df] in
    acc' !! "generators_eia860" = Some out /\
    index out = select keep (index ge_df ++ index gp_df ++ index gr_df) /\
    columns out !! "operational_status_code"
    = Some (select keep (stacked_tags gp_df ge_df gr_df)) /\
    (nrows out + length (List.filter negb keep)
     = nrows gp_df + nrows ge_df + nrows gr_df)%nat.
Proof.
  intros Hby Wp We Wr Hp He Hr Hrun. unfold generators, lookup_table in Hrun.
  rewrite Hp, He, Hr, !bind_Ok_l in Hrun.
  run Hrun as d1 Hd1. run Hrun as d2 Hd2. run Hrun as d3 Hd3.
  injection Hrun as <-.
  apply generators_stacked_rows in Hd1 as (Hi1 & Hlen & Hk1); [|done..].
  set (keep := identified [ge_df; gp_df; gr_df]) in *.
  apply generators_flags_inv in Hd2 as [[Hi2 Hk2] _].
  apply (generators_finish_keeps "operational_status_code") in Hd3
    as [Hi3 Hk3]; [|done|by_evaluation].
  exists d3. cbv zeta. split; [apply lookup_insert_eq|].
  assert (index d3 = select keep (index ge_df ++ index gp_df ++ index gr_df))
    as Hindex by (by rewrite Hi3, Hi2, Hi1).
  split; [done|]. split.
  - rewrite Hk3, Hk2, Hk1 by by_evaluation.
    rewrite stacked_status. cbn [fmap option_fmap option_map].
    by rewrite stacked_tags_fixed.
  - unfold nrows. rewrite Hindex.
    rewrite select_length by done. rewrite !length_app. lia.
Qed.

End Generators.

Lemma lower_columns_bystander (c : string) (cols : list string) :
  c ∉ cols -> bystander (fun df => lower_columns df cols) c.
Proof.
  intros Hc df. unfold lower_columns. revert df.
  induction cols as [|c0 cols IH]; intros df; [done|].
  apply not_elem_of_cons in Hc as [Hne Hc].
  cbn [foldl]. destruct (IH Hc
    (match columns df !! c0 with
     | Some col => setcol df c0 (str_method (fun s => lower (strip s)) <$> col)
     | None => df
     end)) as [Hi Hk].
  rewrite Hi, Hk. destruct (columns df !! c0); [|done].
  split; [done|]. cbn [setcol columns]. by apply lookup_insert_ne.
Qed.

Lemma plain_finishing_bystander (c : string) :
  c ∉ ["rto_iso_lmp_node_id"; "rto_iso_location_wholesale_reporting_id"] ->
  @finishing_bystander plain_helpers c.
Proof.
  intros Hc. split; [by intros df|]. split; [|by intros df].
  by apply lower_columns_bystander.
Qed.

Lemma generators_union_witness :
  let gp_df := generator_page [0; 1] [Str "P1"; NA] [Int 1; Int 2]
                 [Str "Y"; Str "N"] [Str "N"; Str "N"] in
  let ge_df := generator_page [0; 1; 2] [Str "E1"; Str "E2"; Str "E3"]
                 [Int 1; NA; Int 3] [Str "Y"; Str "X"; NA]
                 [Str "N"; Str "N"; Str "Y"] in
  let gr_df := generator_page [0] [Str "R1"] [Int 5] [Str "X"] [Str "Y"] in
  let dfs : tables := {[ "generator_proposed" := gp_df;
                         "generator_existing" := ge_df;
                         "generator_retired" := gr_df ]} in
  exists acc',
    generators (H := plain_helpers) dfs ∅ = Ok acc' /\
    exists out,
      let keep := identified [ge_df; gp_df; gr_df] in
      acc' !! "generators_eia860" = Some out /\
      index out = select keep (index ge_df ++ index gp_df ++ index gr_df) /\
      columns out !! "operational_status_code"
      = Some (select keep (stacked_tags gp_df ge_df gr_df)) /\
      (nrows out + length (List.filter negb keep)
       = nrows gp_df + nrows ge_df + nrows gr_df)%nat.
Proof.
  intros gp_df ge_df gr_df dfs.
  exists generators_example.
  split; [by_running|].
  eapply (generators_union (H := plain_helpers) dfs ∅ _ gp_df ge_df gr_df).
  - apply plain_finishing_bystander. by_evaluation.
  - by_evaluation.
  - by_evaluation.
  - by_evaluation.
  - reflexivity.
  - reflexivity.
  - reflexivity.
  - by_running.
Defined.

(** ** Frames that differ in one column *)

Section SameBut.
Variable c : string.

Implicit Types (a b : DataFrame).

Lemma same_but_refl a : same_but c a a.
Proof. by repeat split. Qed.

Lemma same_but_nrows a b : same_but c a b -> nrows a = nrows b.
Proof. intros (Hi & _). unfold nrows. by rewrite Hi. Qed.

Lemma same_but_setcol a b c' (col : list value) :
  same_but c a b -> same_but c (setcol a c' col) (setcol b c' col).
Proof.
  intros (Hi & Hk & Hp). split; [done|]. cbn [setcol columns]. split.
  - intros k Hkc. destruct (decide (c' = k)) as [->|Hne].
    + by rewrite !lookup_insert_eq.
    + rewrite !lookup_insert_ne by done. by apply Hk.
  - destruct (decide (c' = c)) as [->|Hne].
    + rewrite !lookup_insert_eq. split; eauto.
    + by rewrite !lookup_insert_ne.
Qed.

Lemma same_but_setcol_scalar a b c' (v : value) :
  same_but c a b -> same_but c (setcol_scalar a c' v) (setcol_scalar b c' v).
Proof.
  intros Hab. unfold setcol_scalar. rewrite (same_but_nrows a b Hab).
  by apply same_but_setcol.
Qed.

Lemma same_but_append a b a' b' :
  same_but c a b -> same_but c a' b' ->
  same_but c (append_frames a a') (append_frames b b').
Proof.
  intros Hab Hab'.
  pose proof (same_but_nrows _ _ Hab) as Hn.
  pose proof (same_but_nrows _ _ Hab') as Hn'.
  destruct Hab as (Hi & Hk & Hp), Hab' as (Hi' & Hk' & Hp').
  split; [cbn [append_frames index]; by rewrite Hi, Hi'|]. split.
  - intros k Hkc. rewrite !append_frames_lookup, Hn, Hn'.
    by rewrite (Hk k Hkc), (Hk' k Hkc).
  - rewrite !append_frames_lookup.
    destruct (columns a !! c), (columns a' !! c), (columns b !! c),
      (columns b' !! c); split; intros [? ?]; try (by eexists);
      try (by apply is_Some_None in Hp); try (by apply is_Some_None in Hp');
      first [ by (destruct Hp as [Hp _]; destruct Hp; eauto)
            | by (destruct Hp as [_ Hp]; destruct Hp; eauto)
            | by (destruct Hp' as [Hp' _]; destruct Hp'; eauto)
            | by (destruct Hp' as [_ Hp']; destruct Hp'; eauto) ].
Qed.

Lemma same_but_loc_rows (mask : list bool) a b :
  same_but c a b -> same_but c (loc_rows mask a) (loc_rows mask b).
Proof.
  intros (Hi & Hk & Hp). split; [cbn [loc_rows index]; by rewrite Hi|].
  cbn [loc_rows columns]. split.
  - intros k Hkc. by rewrite !lookup_fmap, (Hk k Hkc).
  - rewrite !lookup_fmap, !fmap_is_Some. done.
Qed.

Lemma same_but_applymap (f : value -> value) a b :
  same_but c a b -> same_but c (applymap f a) (applymap f b).
Proof.
  intros (Hi & Hk & Hp). split; [done|]. cbn [applymap columns]. split.
  - intros k Hkc. by rewrite !lookup_fmap, (Hk k Hkc).
  - rewrite !lookup_fmap, !fmap_is_Some. done.
Qed.

Lemma same_but_setattr a b (col : list value) :
  same_but c a b -> setattr a c col = setattr b c col.
Proof.
  destruct a as [ia ca], b as [ib cb]. intros (Hi & Hk & Hp).
  cbn [index columns] in *. subst ib. unfold setattr, setcol.
  cbn [index columns].
  destruct (ca !! c) as [x|] eqn:Ea, (cb !! c) as [y|] eqn:Eb.
  - f_equal. apply map_eq. intros k.
    destruct (decide (c = k)) as [<-|Hne].
    + by rewrite !lookup_insert_eq.
    + rewrite !lookup_insert_ne by done. by apply Hk.
  - destruct Hp as [Hp _]. by destruct Hp.
  - destruct Hp as [_ Hp]. by destruct Hp.
  - f_equal. apply map_eq. intros k.
    destruct (decide (k = c)) as [->|Hne]; [congruence|by apply Hk].
Qed.

Lemma alike_bind (r1 r2 : result DataFrame)
    (f1 f2 : DataFrame -> result DataFrame) :
  alike c r1 r2 ->
  (forall a b, same_but c a b -> alike c (f1 a) (f2 b)) ->
  alike c (r1 ≫= f1) (r2 ≫= f2).
Proof. destruct r1, r2; simpl; try done. intros Hab Hf. by apply Hf. Qed.

Lemma alike_bind_eq {B : Type} (r1 r2 : result DataFrame)
    (f1 f2 : DataFrame -> result B) :
  alike c r1 r2 ->
  (forall a b, same_but c a b -> f1 a = f2 b) ->
  r1 ≫= f1 = r2 ≫= f2.
Proof.
  destruct r1, r2; simpl; try done; [|congruence].
  intros Hab Hf. by apply Hf.
Qed.

Lemma alike_update_col (f : list value -> list value) c' a b :
  c' <> c -> same_but c a b ->
  alike c (update_col f c' a) (update_col f c' b).
Proof.
  intros Hne Hab. unfold update_col, getcol.
  destruct Hab as (Hi & Hk & Hp). rewrite (Hk c' Hne).
  destruct (columns b !! c'); simpl; [|done].
  by apply same_but_setcol.
Qed.

Lemma alike_update_attr (f : list value -> list value) c' a b :
  c' <> c -> same_but c a b ->
  alike c (update_attr f c' a) (update_attr f c' b).
Proof.
  intros Hne Hab. unfold update_attr, getattr, setattr.
  pose proof Hab as (Hi & Hk & Hp). rewrite (Hk c' Hne).
  destruct (columns b !! c'); simpl; [|done].
  by apply same_but_setcol.
Qed.

Lemma alike_for_each_update (f : list value -> list value)
    (cols : list string) a b :
  c ∉ cols -> same_but c a b ->
  alike c (for_each (update_col f) cols a) (for_each (update_col f) cols b).
Proof.
  revert a b. induction cols as [|c' cols IH]; intros a b Hc Hab; [done|].
  cbn [for_each]. apply alike_bind.
  - apply alike_update_col; [|done]. intros ->. apply Hc. left.
  - intros a' b' Hab'. apply IH; [|done]. intros Hin. apply Hc. by right.
Qed.

Lemma alike_dropna (g p : string) a b :
  g <> c -> p <> c -> same_but c a b ->
  alike c (dropna [g; p] a) (dropna [g; p] b).
Proof.
  intros Hg Hp Hab. unfold dropna.
  rewrite (same_but_nrows a b Hab).
  assert (mapM (getcol a) [g; p] = mapM (getcol b) [g; p]) as ->.
  { destruct Hab as (_ & Hk & _). cbn. unfold getcol.
    by rewrite (Hk g Hg), (Hk p Hp). }
  destruct (mapM (getcol b) [g; p]) as [cols|e]; simpl; [|done].
  by apply same_but_loc_rows.
Qed.

End SameBut.

(** ** The synchronisation flag of [generators] *)

Section GridFlag.
Context `{Helpers}.

Lemma generators_stacked_alike (gp_df ge_df gr_df gp' ge' gr' : DataFrame) :
  same_but "syncronized_transmission_grid" gp_df gp' ->
  same_but "syncronized_transmission_grid" ge_df ge' ->
  same_but "syncronized_transmission_grid" gr_df gr' ->
  alike "syncronized_transmission_grid"
        (generators_stacked gp_df ge_df gr_df)
        (generators_stacked gp' ge' gr').
Proof.
  intros Hp He Hr. unfold generators_stacked. cbv zeta. apply alike_bind.
  - apply alike_dropna; [done..|].
    unfold concat, tagged. cbn [foldl].
    repeat apply same_but_append; try by apply same_but_setcol_scalar.
    apply same_but_refl.
  - intros a b Hab. apply alike_for_each_update; [by_evaluation|].
    by apply same_but_applymap.
Qed.

Lemma generators_flags_same (df df' : DataFrame) :
  same_but "syncronized_transmission_grid" df df' ->
  generators_flags df = generators_flags df'.
Proof.
  intros Hsame. unfold generators_flags.
  eapply (alike_bind_eq "syncronized_transmission_grid");
    [by apply alike_update_attr|].
  intros a1 b1 H1.
  eapply (alike_bind_eq "syncronized_transmission_grid");
    [by apply alike_update_attr|].
  intros a2 b2 H2. unfold getattr.
  pose proof H2 as (_ & Hk & _).
  rewrite (Hk "heat_bypass_recovery") by done.
  destruct (columns b2 !! "heat_bypass_recovery") as [bypass|]; [|done].
  rewrite !bind_Ok_l. cbv zeta.
  by rewrite (same_but_setattr _ a2 b2 _ H2).
Qed.

(** What the transformer makes of one cell of the bypass column on its way
    to the synchronisation flag. *)
Lemma grid_cell (v : value) :
  let out := yes_no (if isna (if equals_str "X" (fix_eia_na_cell v)
                              then Str "N" else fix_eia_na_cell v)
                     then Str "False"
                     else if equals_str "X" (fix_eia_na_cell v)
                          then Str "N" else fix_eia_na_cell v) in
  (v = Str "Y" -> out = Bool true) /\
  (v = Str "N" \/ v = Str "X" -> out = Bool false) /\
  (isna (fix_eia_na_cell v) = true -> out = Str "False") /\
  (isna (fix_eia_na_cell v) = false ->
   v <> Str "Y" -> v <> Str "N" -> v <> Str "X" -> out = v).
Proof.
  cbv zeta. split; [by intros ->|]. split; [by intros [->| ->]|]. split.
  - intros Hna. destruct (fix_eia_na_cell v) as [|t| | | |]; try done.
    simpl in *. by rewrite Hna.
  - intros Hna Hy Hn Hx. destruct v as [|s| | | |]; try done; simpl in *.
    + destruct (is_eia_na s); [done|]. simpl.
      destruct (String.eqb_spec s "X") as [->|_]; [done|]. simpl.
      unfold yes_no, equals_str.
      destruct (String.eqb_spec s "Y") as [->|_]; [done|].
      by destruct (String.eqb_spec s "N") as [->|_].
    + by rewrite Hna.
Qed.

(** C10: every cell of the output column [syncronized_transmission_grid]
    comes from the cell of the bypass column in the same identified row:
    "Y" gives true, "N" and "X" give false, a missing cell or a
    missing-data marker gives the text "False", any other cell stays; and
    replacing the cells of the input column of that name by any others
    gives the same output. *)
Theorem generators_grid_flag_from_bypass (dfs acc acc' : tables)
    (gp_df ge_df gr_df : DataFrame) :
  finishing_bystander "syncronized_transmission_grid" ->
  well_formed gp_df -> well_formed ge_df -> well_formed gr_df ->
  dfs !! "generator_proposed" = Some gp_df ->
  dfs !! "generator_existing" = Some ge_df ->
  dfs !! "generator_retired" = Some gr_df ->
  generators dfs acc = Ok acc' ->
  (exists out grid,
     let keep := identified [ge_df; gp_df; gr_df] in
     let bypass := stacked "heat_bypass_recovery" [ge_df; gp_df; gr_df] in
     acc' !! "generators_eia860" = Some out /\
     columns out !! "syncronized_transmission_grid" = Some grid /\
     grid = yes_no <$> fillna (Str "False")
              (x_to_n (fix_eia_na_cell <$> select keep bypass)) /\
     length grid = length (select keep bypass) /\
     forall i v, select keep bypass !! i = Some v ->
       (v = Str "Y" -> grid !! i = Some (Bool true)) /\
       (v = Str "N" \/ v = Str "X" -> grid !! i = Some (Bool false)) /\
       (isna (fix_eia_na_cell v) = true -> grid !! i = Some (Str "False")) /\
       (isna (fix_eia_na_cell v) = false ->
        v <> Str "Y" -> v <> Str "N" -> v <> Str "X" ->
        grid !! i = Some v)) /\
  (forall (dfs' : tables) (gp' ge' gr' : DataFrame),
     dfs' !! "generator_proposed" = Some gp' ->
     dfs' !! "generator_existing" = Some ge' ->
     dfs' !! "generator_retired" = Some gr' ->
     same_but "syncronized_transmission_grid" gp_df gp' ->
     same_but "syncronized_transmission_grid" ge_df ge' ->
     same_but "syncronized_transmission_grid" gr_df gr' ->
     generators dfs' acc = Ok acc').
Proof.
  intros Hby Wp We Wr Hp He Hr Hrun. split.
  - unfold generators, lookup_table in Hrun.
    rewrite Hp, He, Hr, !bind_Ok_l in Hrun.
    run Hrun as d1 Hd1. run Hrun as d2 Hd2. run Hrun as d3 Hd3.
    injection Hrun as <-.
    apply generators_stacked_rows in Hd1 as (_ & _ & Hk1); [|done..].
    apply generators_flags_inv in Hd2 as (_ & bypass & Hbypass & Hgrid).
    apply (generators_finish_keeps "syncronized_transmission_grid") in Hd3
      as [_ Hk3]; [|done|by_evaluation].
    rewrite Hk1 in Hbypass by by_evaluation.
    destruct (columns (concat (tagged gp_df ge_df gr_df))
                !! "heat_bypass_recovery") as [col|] eqn:Hcol;
      [|discriminate].
    injection Hbypass as <-.
    apply concat_lookup in Hcol. rewrite stacked_tagged in Hcol by done.
    subst col. eexists d3, _. cbv zeta. split; [apply lookup_insert_eq|].
    split; [by rewrite Hk3, Hgrid|]. split; [done|].
    split; [unfold x_to_n, fillna, replace_where; by rewrite !length_fmap|].
    intros i v Hv. unfold x_to_n, fillna, replace_where.
    rewrite !list_lookup_fmap, Hv. cbn [fmap option_fmap option_map].
    destruct (grid_cell v) as (Hy & Hn & Hna & Hother).
    repeat split; intros; f_equal; auto.
  - intros dfs' gp' ge' gr' Hp' He' Hr' Sp Se Sr.
    rewrite <- Hrun. unfold generators, lookup_table.
    rewrite Hp, He, Hr, Hp', He', Hr', !bind_Ok_l.
    symmetry. eapply (alike_bind_eq "syncronized_transmission_grid");
      [by apply generators_stacked_alike|].
    intros a b Hab. by rewrite (generators_flags_same a b Hab).
Qed.

End GridFlag.

Lemma generators_grid_flag_from_bypass_witness :
  let gp_df := generator_page [0; 1] [Str "P1"; NA] [Int 1; Int 2]
                 [Str "Y"; Str "N"] [Str "N"; Str "N"] in
  let ge_df := generator_page [0; 1; 2] [Str "E1"; Str "E2"; Str "E3"]
                 [Int 1; NA; Int 3] [Str "Y"; Str "X"; NA]
                 [Str "N"; Str "N"; Str "Y"] in
  let gr_df := generator_page [0] [Str "R1"] [Int 5] [Str "X"] [Str "Y"] in
  let dfs : tables := {[ "generator_proposed" := gp_df;
                         "generator_existing" := ge_df;
                         "generator_retired" := gr_df ]} in
  exists acc',
    generators (H := plain_helpers) dfs ∅ = Ok acc' /\
    (exists out grid,
       let keep := identified [ge_df; gp_df; gr_df] in
       let bypass := stacked "heat_bypass_recovery" [ge_df; gp_df; gr_df] in
       acc' !! "generators_eia860" = Some out /\
       columns out !! "syncronized_transmission_grid" = Some grid /\
       grid = yes_no <$> fillna (Str "False")
                (x_to_n (fix_eia_na_cell <$> select keep bypass)) /\
       length grid = length (select keep bypass) /\
       forall i v, select keep bypass !! i = Some v ->
         (v = Str "Y" -> grid !! i = Some (Bool true)) /\
         (v = Str "N" \/ v = Str "X" -> grid !! i = Some (Bool false)) /\
         (isna (fix_eia_na_cell v) = true -> grid !! i = Some (Str "False")) /\
         (isna (fix_eia_na_cell v) = false ->
          v <> Str "Y" -> v <> Str "N" -> v <> Str "X" ->
          grid !! i = Some v)) /\
    (forall (dfs' : tables) (gp' ge' gr' : DataFrame),
       dfs' !! "generator_proposed" = Some gp' ->
       dfs' !! "generator_existing" = Some ge' ->
       dfs' !! "generator_retired" = Some gr' ->
       same_but "syncronized_transmission_grid" gp_df gp' ->
       same_but "syncronized_transmission_grid" ge_df ge' ->
       same_but "syncronized_transmission_grid" gr_df gr' ->
       generators (H := plain_helpers) dfs' ∅ = Ok acc').
Proof.
  intros gp_df ge_df gr_df dfs.
  exists generators_example.
  split; [by_running|].
  eapply (generators_grid_flag_from_bypass (H := plain_helpers)
            dfs ∅ _ gp_df ge_df gr_df).
  - apply plain_finishing_bystander. by_evaluation.
  - by_evaluation.
  - by_evaluation.
  - by_evaluation.
  - reflexivity.
  - reflexivity.
  - reflexivity.
  - by_running.
Defined.

(** The same table with other cells in the input column: the output does
    not move. *)
Example generators_grid_flag_example :
  let page sync :=
    generator_page [0; 1] [Str "E1"; Str "E2"] [Int 1; Int 2]
      [Str "Y"; Str "X"] sync in
  let dfs sync : tables :=
    {[ "generator_proposed" := page sync; "generator_existing" := page sync;
       "generator_retired" := page sync ]} in
  generators (H := plain_helpers) (dfs [Str "N"; Str "Y"]) ∅
  = generators (H := plain_helpers) (dfs [Str "Y"; NA]) ∅ /\
  (acc' ← generators (H := plain_helpers) (dfs [Str "N"; Str "Y"]) ∅;
   mret (d ← acc' !! "generators_eia860";
         columns d !! "syncronized_transmission_grid"))
  = Ok (Some [Bool true; Bool false; Bool true; Bool false; Bool true;
              Bool false]).
Proof.
  intros page dfs. split; [|by_running].
  transitivity (Ok generators_same_pages_example); [|symmetry]; by_running.
Qed.

(** ** Monthly expansion *)

Section MonthlyExpansion.
Context `{Regex}.

Implicit Types (df yearly monthly : DataFrame) (md : list (Z * string)).

Lemma month_step_index yearly monthly entry :
  index (month_step (yearly, monthly) entry).1 = index yearly /\
  index (month_step (yearly, monthly) entry).2 = index monthly ++ index yearly.
Proof.
  destruct entry as [m pat]. unfold month_step. cbn [fst snd].
  split; [done|]. rewrite concat_index. simpl. by rewrite app_nil_r.
Qed.

Lemma expansion_index md yearly monthly :
  index (foldl month_step (yearly, monthly) md).1 = index yearly /\
  index (foldl month_step (yearly, monthly) md).2
  = index monthly ++ mjoin (replicate (length md) (index yearly)).
Proof.
  revert yearly monthly. induction md as [|entry md IH]; intros yearly monthly.
  - simpl. by rewrite app_nil_r.
  - cbn [foldl]. destruct (month_step_index yearly monthly entry) as [Hy Hm].
    destruct (month_step (yearly, monthly) entry) as [yearly' monthly'].
    cbn [fst snd] in Hy, Hm. destruct (IH yearly' monthly') as [IHy IHm].
    rewrite IHy, IHm, Hy, Hm. split; [done|]. simpl. by rewrite <- app_assoc.
Qed.

(** How many rows of [labels] carry the label [l]. *)
Lemma positions_from_length (start : nat) (l : Z) (labels : list Z) :
  length (positions_from start l labels)
  = length (List.filter (fun x => bool_decide (x = l)) labels).
Proof.
  revert start. induction labels as [|x labels IH]; intros start; simpl;
    [done|].
  destruct (bool_decide (x = l)); simpl; by rewrite IH.
Qed.

Lemma occurrences_copies (l : Z) (labels : list Z) (n : nat) :
  NoDup labels -> l ∈ labels ->
  length (List.filter (fun x => bool_decide (x = l))
                      (mjoin (replicate n labels))) = n.
Proof.
  intros Hnd Hl.
  assert (length (List.filter (fun x => bool_decide (x = l)) labels) = 1%nat)
    as Hone.
  { induction Hnd as [|x labels Hx Hnd IH]; [by inversion Hl|]. simpl.
    case_bool_decide as Hxl.
    - subst x. simpl. f_equal.
      assert (List.filter (fun x => bool_decide (x = l)) labels = []) as ->;
        [|done].
      clear IH Hl Hnd.
      induction labels as [|y labels IH]; simpl; [done|].
      case_bool_decide as Hy; [subst y; exfalso; apply Hx; left|].
      apply IH. intros Hin. apply Hx. by right.
    - apply IH. by inversion Hl. }
  induction n as [|n IH]; simpl; [done|].
  by rewrite List.filter_app, length_app, Hone, IH.
Qed.

(** The left positions of the join, read through any column of the left
    frame: each cell, once per row of the right frame with its label. *)
Lemma join_from_take {A : Type} (d : A) (pre : list A) (left right : list Z)
    (col : list A) :
  length col = length left ->
  take_rows d (join_from (length pre) left right).*1 (pre ++ col)
  = mjoin (zip_with
             (fun l x =>
                replicate (length (positions_from 0 l right)) x) left col).
Proof.
  revert pre col. induction left as [|l left IH]; intros pre [|x col] Hlen;
    try done.
  injection Hlen as Hlen. cbn [join_from zip_with].
  change (mjoin (?a :: ?r)) with (a ++ mjoin r).
  unfold take_rows in *. rewrite fmap_app, fmap_app. f_equal.
  - rewrite <- !list_fmap_compose.
    generalize (positions_from 0 l right). intros pos.
    induction pos as [|j pos IHpos]; [done|].
    rewrite fmap_cons, IHpos. cbn [length replicate]. f_equal.
    unfold compose. cbn [fst].
    by rewrite lookup_app_r, Nat.sub_diag by done.
  - specialize (IH (pre ++ [x]) col Hlen).
    rewrite length_app, Nat.add_1_r, <- app_assoc in IH. apply IH.
Qed.

Lemma copies_of_cells {A : Type} (left right : list Z) (col : list A) (n : nat) :
  length col = length left ->
  (forall l, l ∈ left -> length (positions_from 0 l right) = n) ->
  mjoin (zip_with
           (fun l x => replicate (length (positions_from 0 l right)) x)
           left col)
  = flat_map (replicate n) col.
Proof.
  revert col. induction left as [|l left IH]; intros [|x col] Hlen Hn;
    try done.
  injection Hlen as Hlen. simpl. rewrite Hn by left. f_equal.
  apply IH; [done|]. intros l' Hl'. apply Hn. by right.
Qed.

(** A column of the left frame of the join, when every label of that frame
    is carried by [n] rows of the right frame. *)
Lemma join_take_column {A : Type} (d : A) (left right : list Z) (col : list A)
    (n : nat) :
  length col = length left ->
  (forall l, l ∈ left -> length (positions_from 0 l right) = n) ->
  take_rows d (join_pairs left right).*1 col = flat_map (replicate n) col.
Proof.
  intros Hlen Hn. unfold join_pairs.
  pose proof (join_from_take d [] left right col Hlen) as Htake.
  cbn [length app] in Htake. rewrite Htake.
  by apply copies_of_cells.
Qed.

Lemma flat_map_replicate_length {A : Type} (n : nat) (l : list A) :
  length (flat_map (replicate n) l) = (n * length l)%nat.
Proof.
  induction l as [|x l IH]; simpl; [lia|].
  rewrite length_app, length_replicate, IH. lia.
Qed.

(** *** The order of the join *)

Lemma positions_from_absent (start : nat) (l : Z) (labels : list Z) :
  l ∉ labels -> positions_from start l labels = [].
Proof.
  revert start. induction labels as [|x labels IH]; intros start Hl; [done|].
  apply not_elem_of_cons in Hl as [Hne Hl]. simpl.
  rewrite bool_decide_eq_false_2 by done. by apply IH.
Qed.

Lemma positions_from_app (start : nat) (l : Z) (a b : list Z) :
  positions_from start l (a ++ b)
  = positions_from start l a ++ positions_from (start + length a) l b.
Proof.
  revert start. induction a as [|x a IH]; intros start; simpl.
  - by rewrite Nat.add_0_r.
  - rewrite IH, <- Nat.add_succ_comm. by case_bool_decide.
Qed.

(** In a list of pairwise distinct labels, a label has one position. *)
Lemma positions_from_one (start i : nat) (l : Z) (labels : list Z) :
  NoDup labels -> labels !! i = Some l ->
  positions_from start l labels = [(start + i)%nat].
Proof.
  intros Hnd. revert start i.
  induction Hnd as [|x labels Hx Hnd IH]; intros start i Hi; [done|].
  destruct i as [|i]; simpl in Hi |- *.
  - injection Hi as ->. rewrite bool_decide_eq_true_2 by done.
    rewrite positions_from_absent by done. by rewrite Nat.add_0_r.
  - rewrite bool_decide_eq_false_2.
    + rewrite (IH (S start) i Hi). f_equal. lia.
    + intros ->. apply Hx. by eapply list_elem_of_lookup_2.
Qed.

Lemma join_from_imap (start : nat) (left right : list Z) :
  join_from start left right
  = mjoin (imap (fun i l =>
                   (fun j => ((start + i)%nat, j)) <$> positions_from 0 l right)
                left).
Proof.
  revert start. induction left as [|l left IH]; intros start; [done|].
  cbn [join_from imap]. change (mjoin (?a :: ?r)) with (a ++ mjoin r).
  rewrite Nat.add_0_r. f_equal. rewrite IH. f_equal.
  apply imap_ext. intros i x _. simpl.
  apply list_fmap_ext. intros ? j _. f_equal. lia.
Qed.

Lemma flat_map_imap {A B : Type} (g : A -> list B) (l : list A) :
  flat_map g l = mjoin (imap (fun _ x => g x) l).
Proof. induction l as [|x l IH]; [done|]. simpl. by rewrite IH. Qed.

Lemma remove_dups_fixed (l : list Z) : NoDup l -> remove_dups l = l.
Proof.
  induction 1 as [|x l Hx Hnd IH]; [done|]. simpl.
  destruct (decide_rel elem_of x l); [done|]. by rewrite IH.
Qed.

Lemma ascending_NoDup (l : list Z) : StronglySorted Z.lt l -> NoDup l.
Proof.
  induction 1 as [|x l Hs IH Hall]; constructor; [|done].
  intros Hin. rewrite Forall_forall in Hall. specialize (Hall x Hin). lia.
Qed.

Lemma ascending_sorted (l : list Z) :
  StronglySorted Z.lt l -> merge_sort Z.le l = l.
Proof.
  intros Hs. apply (StronglySorted_unique Z.le).
  - apply StronglySorted_merge_sort; apply _.
  - induction Hs as [|x l Hs IH Hall]; constructor; [done|].
    eapply Forall_impl; [exact Hall|]. simpl. lia.
  - apply merge_sort_Permutation.
Qed.

(** On a frame whose labels ascend, sorting by label changes nothing: the
    pairs come in the order of the left frame whichever path the join
    takes. *)
Lemma join_order_ascending (left right : list Z) :
  StronglySorted Z.lt left -> join_order left right = join_pairs left right.
Proof.
  intros Hs. unfold join_order. case_bool_decide; [done|].
  pose proof (ascending_NoDup _ Hs) as Hnd.
  unfold join_sorted, join_pairs.
  rewrite remove_dups_fixed, ascending_sorted by done.
  rewrite flat_map_imap, join_from_imap. f_equal.
  apply imap_ext. intros i l Hi.
  rewrite (positions_from_one 0 i l left Hnd Hi). simpl.
  by rewrite app_nil_r.
Qed.

Lemma flat_map_constant_length {A B : Type} (g : A -> list B) (l : list A)
    (n : nat) :
  (forall x, x ∈ l -> length (g x) = n) ->
  length (flat_map g l) = (length l * n)%nat.
Proof.
  induction l as [|x l IH]; intros Hg; [done|]. simpl.
  rewrite length_app, Hg by left. rewrite IH; [lia|].
  intros y Hy. apply Hg. by right.
Qed.

Lemma join_from_length (start : nat) (left right : list Z) (n : nat) :
  (forall l, l ∈ left -> length (positions_from 0 l right) = n) ->
  length (join_from start left right) = (length left * n)%nat.
Proof.
  revert start. induction left as [|l left IH]; intros start Hn; [done|].
  simpl. rewrite length_app, length_fmap, Hn by left.
  rewrite IH; [lia|]. intros l' Hl'. apply Hn. by right.
Qed.

(** The number of pairs, when the left labels are pairwise distinct and
    each is carried by [n] rows of the right frame. *)
Lemma join_order_length (left right : list Z) (n : nat) :
  NoDup left ->
  (forall l, l ∈ left -> length (positions_from 0 l right) = n) ->
  length (join_order left right) = (length left * n)%nat.
Proof.
  intros Hnd Hn. unfold join_order. case_bool_decide.
  { by apply join_from_length. }
  unfold join_sorted.
  assert (merge_sort Z.le (remove_dups left) ≡ₚ left) as Hperm.
  { rewrite merge_sort_Permutation. by rewrite remove_dups_fixed. }
  rewrite (flat_map_constant_length _ _ n).
  - by rewrite Hperm.
  - intros l Hl. rewrite Hperm in Hl.
    apply list_elem_of_lookup in Hl as [i Hi].
    rewrite (positions_from_one 0 i l left Hnd Hi). simpl.
    rewrite app_nil_r, length_fmap. apply Hn. by eapply list_elem_of_lookup_2.
Qed.

Lemma take_rows_length {A : Type} (d : A) (pos : list nat) (col : list A) :
  length (take_rows d pos col) = length pos.
Proof. unfold take_rows. by rewrite length_fmap. Qed.

(** On a table whose row labels are pairwise distinct, every row comes out
    once per entry of the month dictionary: twelve times as many rows for
    the twelve months.  When the labels ascend, as they do on a sheet as it
    is read, each row comes out under its own label, in the order of the
    table. *)
Theorem yearly_to_monthly_distinct_labels df md :
  NoDup (index df) ->
  nrows (yearly_to_monthly_eia923 df md) = (length md * nrows df)%nat /\
  (StronglySorted Z.lt (index df) ->
   index (yearly_to_monthly_eia923 df md)
   = flat_map (replicate (length md)) (index df)).
Proof.
  intros Hnd. unfold yearly_to_monthly_eia923, month_loop.
  destruct (expansion_index md df empty_frame) as [Hy Hm].
  destruct (foldl month_step (df, empty_frame) md) as [yearly monthly].
  cbn [fst snd] in Hy, Hm. cbn [empty_frame index app] in Hm.
  assert (forall l, l ∈ index df ->
            length (positions_from 0 l (index monthly)) = length md) as Hcopies.
  { intros l Hl. rewrite Hm, positions_from_length.
    by apply occurrences_copies. }
  split.
  - unfold nrows, merge_on_index. cbn [index].
    rewrite take_rows_length, length_fmap, Hy.
    rewrite (join_order_length _ _ (length md)) by done. lia.
  - intros Hs. unfold merge_on_index. cbn [index].
    rewrite Hy, join_order_ascending by done.
    by apply join_take_column.
Qed.

(** *** The columns that stay *)

Lemma month_step_unmatched yearly monthly entry c :
  search entry.2 c = false ->
  columns (month_step (yearly, monthly) entry).1 !! c = columns yearly !! c.
Proof.
  destruct entry as [m pat]. cbn [snd]. intros Hc.
  unfold month_step. cbn [fst drop_columns_of filter_columns columns].
  rewrite lookup_difference, map_lookup_filter_None_2; [done|].
  right. intros col _. cbn [fst]. by rewrite Hc.
Qed.

Lemma month_loop_unmatched md yearly monthly c :
  (forall entry, entry ∈ md -> search entry.2 c = false) ->
  columns (foldl month_step (yearly, monthly) md).1 !! c = columns yearly !! c.
Proof.
  revert yearly monthly. induction md as [|entry md IH];
    intros yearly monthly Hc; [done|].
  cbn [foldl].
  pose proof (month_step_unmatched yearly monthly entry c
                (Hc entry ltac:(left))) as Hstep.
  destruct (month_step (yearly, monthly) entry) as [yearly' monthly'].
  rewrite IH; [done|]. intros e He. apply Hc. by right.
Qed.

(** Renaming that moves no key of the map leaves the map as it is. *)
Lemma kmap_fixed {A : Type} (f : string -> string) (m : gmap string A) :
  (forall k, is_Some (m !! k) -> f k = k) ->
  kmap (M2 := gmap string) f m = m.
Proof.
  intros Hf. unfold kmap.
  rewrite <- (list_to_map_to_list m) at 2. f_equal.
  rewrite <- (list_fmap_id (map_to_list m)) at 2.
  apply list_fmap_ext. intros i [k x] Hkx. unfold prod_map. cbn [fst snd id].
  f_equal. apply Hf. exists x. apply elem_of_map_to_list.
  by eapply list_elem_of_lookup_2.
Qed.


(** On a table whose row labels ascend, a column that no month pattern
    matches comes out with each cell repeated once per month, in the order
    of the table, provided the month columns, once renamed, do not take the
    name of a column that stays. *)
Theorem yearly_to_monthly_carries_columns df md c (col : list value) :
  StronglySorted Z.lt (index df) ->
  columns df !! c = Some col ->
  length col = nrows df ->
  (forall entry, entry ∈ md -> search entry.2 c = false) ->
  columns (month_loop df md).1 ##ₘ columns (month_loop df md).2 ->
  columns (yearly_to_monthly_eia923 df md) !! c
  = Some (flat_map (replicate (length md)) col).
Proof.
  intros Hs Hcol Hlen Hc Hdisj. unfold yearly_to_monthly_eia923.
  pose proof (ascending_NoDup _ Hs) as Hnd.
  unfold month_loop in *.
  pose proof (month_loop_unmatched md df empty_frame c Hc) as Hkeep.
  destruct (expansion_index md df empty_frame) as [Hy Hm].
  destruct (foldl month_step (df, empty_frame) md) as [yearly monthly].
  cbn [fst snd] in *. cbn [empty_frame index app] in Hm.
  unfold merge_on_index. cbn [columns].
  rewrite Hy, join_order_ascending by done.
  rewrite lookup_union_l'.
  - rewrite kmap_fixed.
    + rewrite lookup_fmap, Hkeep, Hcol. cbn [fmap option_fmap option_map].
      f_equal. rewrite Hm. apply join_take_column; [done|].
      intros l Hl. rewrite positions_from_length.
      by apply occurrences_copies.
    + intros k [x Hk]. rewrite lookup_fmap in Hk.
      destruct (columns yearly !! k) as [colk|] eqn:Ek; [|done].
      unfold suffixed.
      by rewrite (map_disjoint_Some_l _ _ _ _ Hdisj Ek).
  - rewrite kmap_fixed.
    + rewrite lookup_fmap, Hkeep, Hcol. by eexists.
    + intros k [x Hk]. rewrite lookup_fmap in Hk.
      destruct (columns yearly !! k) as [colk|] eqn:Ek; [|done].
      unfold suffixed.
      by rewrite (map_disjoint_Some_l _ _ _ _ Hdisj Ek).
Qed.

(** *** The columns of the months *)

Lemma join_from_right (start : nat) (left right : list Z) :
  (join_from start left right).*2
  = flat_map (fun l => positions_from 0 l right) left.
Proof.
  revert start. induction left as [|l left IH]; intros start; [done|].
  simpl. rewrite fmap_app, IH. f_equal.
  rewrite <- list_fmap_compose. apply list_fmap_id.
Qed.

Lemma take_rows_flat_map {A B : Type} (d : A) (pos : B -> list nat)
    (l : list B) (col : list A) :
  take_rows d (flat_map pos l) col
  = flat_map (fun x => take_rows d (pos x) col) l.
Proof.
  unfold take_rows. induction l as [|x l IH]; [done|]. simpl.
  by rewrite fmap_app, IH.
Qed.

(** A column made of one block per copy of the labels, read at the
    positions of one label: the cell of that label's row in every block. *)
Lemma take_blocks {A : Type} (d : A) (left : list Z) (blocks : list (list A))
    (pre : list A) (l : Z) (i : nat) :
  NoDup left -> left !! i = Some l ->
  Forall (fun b => length b = length left) blocks ->
  take_rows d
    (positions_from (length pre) l (mjoin (replicate (length blocks) left)))
    (pre ++ mjoin blocks)
  = (fun b => default d (b !! i)) <$> blocks.
Proof.
  intros Hnd Hi. revert pre.
  induction blocks as [|b blocks IH]; intros pre Hb; [done|].
  apply Forall_cons in Hb as [Hlen Hb].
  cbn [length replicate]. change (mjoin (?a :: ?r)) with (a ++ mjoin r).
  rewrite positions_from_app, (positions_from_one _ i l left Hnd Hi).
  unfold take_rows in *. rewrite fmap_app, fmap_cons. cbn [fmap list_fmap app].
  f_equal.
  - rewrite lookup_app_r by lia.
    replace (length pre + i - length pre)%nat with i by lia.
    rewrite lookup_app_l; [done|].
    rewrite Hlen. by eapply lookup_lt_Some.
  - specialize (IH (pre ++ b) Hb).
    rewrite length_app, Hlen, <- app_assoc in IH. apply IH.
Qed.

Lemma imap_rows {A B : Type} (g : nat -> list B) (l : list A) (start : nat) :
  mjoin (imap (fun i _ => g (start + i)%nat) l)
  = flat_map g (seq start (length l)).
Proof.
  revert start. induction l as [|x l IH]; intros start; [done|].
  cbn [imap length seq flat_map]. change (mjoin (?a :: ?r)) with (a ++ mjoin r).
  rewrite Nat.add_0_r. f_equal. rewrite <- IH. f_equal.
  apply imap_ext. intros i y _. simpl. f_equal. lia.
Qed.

(** The right side of the join on labels that are pairwise distinct, when
    the right frame is made of one block of rows per copy of the labels:
    row by row of the left frame, the cells of that row in every block. *)
Lemma join_take_blocks {A : Type} (d : A) (left : list Z)
    (blocks : list (list A)) :
  NoDup left ->
  Forall (fun b => length b = length left) blocks ->
  take_rows d
    (join_pairs left (mjoin (replicate (length blocks) left))).*2
    (mjoin blocks)
  = flat_map (fun i => (fun b => default d (b !! i)) <$> blocks)
             (seq 0 (length left)).
Proof.
  intros Hnd Hb. unfold join_pairs.
  rewrite join_from_right, take_rows_flat_map, flat_map_imap.
  rewrite <- (imap_rows (fun i => (fun b => default d (b !! i)) <$> blocks)).
  f_equal. apply imap_ext. intros i l Hi. simpl.
  apply (take_blocks d left blocks [] l i Hnd Hi Hb).
Qed.

(** Stacking two frames, column by column. *)
Lemma concat_pair_column (a b : DataFrame) c :
  column_or_missing (nrows (concat [a; b])) (columns (concat [a; b]) !! c)
  = column_or_missing (nrows a) (columns a !! c)
      ++ column_or_missing (nrows b) (columns b !! c).
Proof.
  unfold concat. rewrite foldl_append_column. simpl.
  by rewrite app_nil_r.
Qed.

Lemma concat_pair_present (a b : DataFrame) c :
  is_Some (columns a !! c) \/ is_Some (columns b !! c) ->
  is_Some (columns (concat [a; b]) !! c).
Proof.
  intros Hc. unfold concat. cbn [foldl].
  rewrite append_frames_lookup.
  assert (columns (append_frames empty_frame a) !! c
          = (fun col => [] ++ col) <$> columns a !! c) as ->.
  { rewrite append_frames_lookup. cbn [empty_frame columns nrows index length].
    rewrite lookup_empty. by destruct (columns a !! c). }
  destruct (columns a !! c), (columns b !! c); simpl; try by eexists.
  destruct Hc as [[? [=]]|[? [=]]].
Qed.

Lemma month_step_monthly yearly monthly entry :
  (month_step (yearly, monthly) entry).2
  = concat [monthly; this_month_of yearly entry].
Proof. by destruct entry. Qed.

Lemma this_month_nrows yearly entry :
  nrows (this_month_of yearly entry) = nrows yearly.
Proof. done. Qed.

Lemma this_month_month yearly entry :
  columns (this_month_of yearly entry) !! "month"
  = Some (replicate (nrows yearly) (Int entry.1)).
Proof. unfold this_month_of, setcol_scalar. apply setcol_lookup. Qed.

Lemma month_loop_present md yearly monthly c :
  is_Some (columns monthly !! c) ->
  is_Some (columns (foldl month_step (yearly, monthly) md).2 !! c).
Proof.
  revert yearly monthly. induction md as [|entry md IH];
    intros yearly monthly Hc; [done|].
  cbn [foldl]. pose proof (month_step_monthly yearly monthly entry) as Hm.
  destruct (month_step (yearly, monthly) entry) as [yearly' monthly'].
  cbn [snd] in Hm. apply IH. rewrite Hm. apply concat_pair_present. by left.
Qed.

(** The month column of the stacked slices: one block per entry of the
    dictionary, holding the month number in every row. *)
Lemma month_loop_month md yearly monthly :
  let monthly' := (foldl month_step (yearly, monthly) md).2 in
  column_or_missing (nrows monthly') (columns monthly' !! "month")
  = column_or_missing (nrows monthly) (columns monthly !! "month")
      ++ mjoin ((fun entry : Z * string =>
                   replicate (nrows yearly) (Int entry.1)) <$> md).
Proof.
  revert yearly monthly. induction md as [|entry md IH];
    intros yearly monthly; cbv zeta.
  { simpl. by rewrite app_nil_r. }
  cbn [foldl]. pose proof (month_step_monthly yearly monthly entry) as Hm.
  destruct (month_step_index yearly monthly entry) as [Hy _].
  destruct (month_step (yearly, monthly) entry) as [yearly' monthly'].
  cbn [fst snd] in Hm, Hy. specialize (IH yearly' monthly'). cbv zeta in IH.
  assert (nrows yearly' = nrows yearly) as Hn by (unfold nrows; by rewrite Hy).
  rewrite IH, Hm, concat_pair_column, this_month_month, Hn.
  rewrite fmap_cons. change (mjoin (?a :: ?r)) with (a ++ mjoin r).
  by rewrite <- app_assoc.
Qed.

(** On a table whose row labels ascend, the rows of one annual record carry
    the month numbers of the dictionary, in the order of the dictionary. *)
Theorem yearly_to_monthly_month_numbers df md :
  StronglySorted Z.lt (index df) ->
  md <> [] ->
  columns (month_loop df md).1 ##ₘ columns (month_loop df md).2 ->
  columns (yearly_to_monthly_eia923 df md) !! "month"
  = Some (flat_map (fun _ => (fun entry : Z * string => Int entry.1) <$> md)
                   (index df)).
Proof.
  intros Hs Hmd Hdisj. unfold yearly_to_monthly_eia923.
  pose proof (ascending_NoDup _ Hs) as Hnd.
  unfold month_loop in *.
  destruct (expansion_index md df empty_frame) as [Hy Hm].
  pose proof (month_loop_month md df empty_frame) as Hmonth.
  assert (is_Some (columns (foldl month_step (df, empty_frame) md).2
                     !! "month")) as [mcol Hmcol].
  { destruct md as [|entry md]; [done|]. cbn [foldl].
    pose proof (month_step_monthly df empty_frame entry) as Hstep.
    destruct (month_step (df, empty_frame) entry) as [yearly' monthly'].
    cbn [snd] in Hstep. apply month_loop_present. rewrite Hstep.
    apply concat_pair_present. right. rewrite this_month_month. by eexists. }
  cbv zeta in Hmonth. rewrite Hmcol in Hmonth.
  destruct (foldl month_step (df, empty_frame) md) as [yearly monthly].
  cbn [fst snd] in *. cbn [empty_frame index app] in Hm.
  cbn [empty_frame columns] in Hmonth. rewrite lookup_empty in Hmonth.
  change (mcol = mjoin ((fun entry : Z * string =>
                           replicate (nrows df) (Int entry.1)) <$> md))
    in Hmonth.
  unfold merge_on_index. cbn [columns].
  rewrite Hy, join_order_ascending by done.
  rewrite lookup_union_r.
  2:{ rewrite kmap_fixed.
      - rewrite lookup_fmap.
        by rewrite (map_disjoint_Some_r _ _ _ _ Hdisj Hmcol).
      - intros k [x Hk]. rewrite lookup_fmap in Hk.
        destruct (columns yearly !! k) as [colk|] eqn:Ek; [|done].
        unfold suffixed. by rewrite (map_disjoint_Some_l _ _ _ _ Hdisj Ek). }
  rewrite kmap_fixed.
  2:{ intros k [x Hk]. rewrite lookup_fmap in Hk.
      destruct (columns monthly !! k) as [colk|] eqn:Ek; [|done].
      unfold suffixed. by rewrite (map_disjoint_Some_r _ _ _ _ Hdisj Ek). }
  rewrite lookup_fmap, Hmcol. cbn [fmap option_fmap option_map]. f_equal.
  rewrite Hmonth, Hm. rewrite <- (length_fmap
    (fun entry : Z * string => replicate (nrows df) (Int entry.1)) md).
  rewrite join_take_blocks; [|done|].
  2:{ apply Forall_fmap, Forall_forall. intros entry _. simpl.
      apply length_replicate. }
  rewrite <- (imap_rows _ (index df) 0), flat_map_imap. f_equal.
  apply imap_ext. intros i l Hi. simpl.
  rewrite <- list_fmap_compose. apply list_fmap_ext. intros j entry _. simpl.
  rewrite lookup_replicate_2; [done|]. by eapply lookup_lt_Some.
Qed.

(** *** The fields of the months *)



Lemma kmap_lookup_unique {A : Type} (f : string -> string)
    (m : gmap string A) (k : string) (x : A) :
  m !! k = Some x ->
  (forall k' x', m !! k' = Some x' -> f k' = f k -> k' = k) ->
  kmap (M2 := gmap string) f m !! f k = Some x.
Proof.
  intros Hk Huniq. unfold kmap. apply elem_of_list_to_map_1'.
  - intros y Hy. apply list_elem_of_fmap in Hy as ([k' x'] & Heq & Hin).
    unfold prod_map in Heq. cbn [fst snd id] in Heq. injection Heq as Hf ->.
    apply elem_of_map_to_list in Hin.
    rewrite (Huniq k' x' Hin (eq_sym Hf)) in Hin. congruence.
  - apply list_elem_of_fmap. exists (k, x). split; [done|].
    by apply elem_of_map_to_list.
Qed.

Lemma remainder_start df : remainder df [] df.
Proof. by split. Qed.

Lemma remainder_step df earlier yearly monthly entry :
  remainder df earlier yearly ->
  remainder df (earlier ++ [entry]) (month_step (yearly, monthly) entry).1.
Proof.
  intros (Hkeep & Hsub & Hn). split; [|split].
  - intros c [He Hc]%Forall_app. rewrite Forall_singleton in Hc.
    rewrite month_step_unmatched; [by apply Hkeep|exact Hc].
  - etrans; [|exact Hsub]. destruct entry as [m pat].
    unfold month_step. cbn [fst drop_columns_of columns].
    by apply map_subseteq_difference_l.
  - destruct (month_step_index yearly monthly entry) as [Hy _].
    unfold nrows in *. by rewrite Hy.
Qed.

Lemma this_month_field df base earlier yearly entry field :
  base <> "month" ->
  remainder df earlier yearly ->
  month_field df base earlier entry field ->
  columns (this_month_of yearly entry) !! base = Some field.2.
Proof.
  intros Hbase (Hkeep & Hsub & _) (Hcol & _ & Hs & Hd & Huniq & Hearlier).
  unfold this_month_of, setcol_scalar, setcol. cbn [columns].
  rewrite lookup_insert_ne by done.
  unfold rename_columns, filter_columns. cbn [columns].
  rewrite <- Hd. apply kmap_lookup_unique.
  - apply map_lookup_filter_Some. split; [|done].
    by rewrite Hkeep.
  - intros k' x' [Hk' Hs']%map_lookup_filter_Some Hf. cbn [fst] in Hs'.
    eapply (Huniq k' x'); [|done|congruence].
    by eapply lookup_weaken.
Qed.

Lemma month_loop_fields df base md fields earlier yearly monthly :
  base <> "month" ->
  remainder df earlier yearly ->
  month_fields df base earlier md fields ->
  let monthly' := (foldl month_step (yearly, monthly) md).2 in
  column_or_missing (nrows monthly') (columns monthly' !! base)
  = column_or_missing (nrows monthly) (columns monthly !! base)
      ++ mjoin fields.*2 /\
  (md <> [] -> is_Some (columns monthly' !! base)).
Proof.
  intros Hbase. revert fields earlier yearly monthly.
  induction md as [|entry md IH]; intros [|field fields] earlier yearly monthly
    Hrem Hfields; try done; cbv zeta.
  { split; [|done]. simpl. by rewrite app_nil_r. }
  destruct Hfields as [Hfield Hfields]. cbn [foldl].
  pose proof (month_step_monthly yearly monthly entry) as Hm.
  pose proof (remainder_step _ _ _ monthly entry Hrem) as Hrem'.
  pose proof (this_month_field _ _ _ _ _ _ Hbase Hrem Hfield) as Hthis.
  destruct (month_step (yearly, monthly) entry) as [yearly' monthly'].
  cbn [fst snd] in Hm, Hrem'.
  destruct (IH fields _ yearly' monthly' Hrem' Hfields) as [Hcol Hsome].
  split.
  - rewrite Hcol, Hm, concat_pair_column, Hthis.
    rewrite fmap_cons. change (mjoin (?a :: ?r)) with (a ++ mjoin r).
    cbn [column_or_missing default]. by rewrite <- app_assoc.
  - intros _. apply month_loop_present. rewrite Hm.
    apply concat_pair_present. right. rewrite Hthis. by eexists.
Qed.

Lemma month_fields_length df base earlier md fields :
  month_fields df base earlier md fields ->
  length fields = length md /\
  Forall (fun col : list value => length col = nrows df) fields.*2.
Proof.
  revert earlier fields. induction md as [|entry md IH];
    intros earlier [|field fields]; try done.
  intros [Hfield Hfields]. destruct (IH _ _ Hfields) as [Hlen Hall].
  split; [simpl; by rewrite Hlen|]. constructor; [|done].
  by destruct Hfield as (_ & ? & _).
Qed.

(** On a table whose row labels ascend, the month fields of one quantity
    come out as one column under the name they share: row by row of the
    table, the cells of that row in the fields of the months, in the order
    of the dictionary. *)
Theorem yearly_to_monthly_month_fields df md base
    (fields : list (string * list value)) :
  StronglySorted Z.lt (index df) ->
  base <> "month" ->
  md <> [] ->
  month_fields df base [] md fields ->
  columns (month_loop df md).1 ##ₘ columns (month_loop df md).2 ->
  columns (yearly_to_monthly_eia923 df md) !! base
  = Some (flat_map (fun i => (fun field : string * list value =>
                                default NA (field.2 !! i)) <$> fields)
                   (seq 0 (nrows df))).
Proof.
  intros Hs Hbase Hmd Hfields Hdisj. unfold yearly_to_monthly_eia923.
  pose proof (ascending_NoDup _ Hs) as Hnd.
  unfold month_loop in *.
  destruct (expansion_index md df empty_frame) as [Hy Hm].
  destruct (month_loop_fields df base md fields [] df empty_frame Hbase
              (remainder_start df) Hfields) as [Hcol Hsome].
  destruct (month_fields_length _ _ _ _ _ Hfields) as [Hlen Hall].
  cbv zeta in Hcol. destruct (Hsome Hmd) as [mcol Hmcol].
  rewrite Hmcol in Hcol.
  destruct (foldl month_step (df, empty_frame) md) as [yearly monthly].
  cbn [fst snd] in *. cbn [empty_frame index app] in Hm.
  cbn [empty_frame columns] in Hcol. rewrite lookup_empty in Hcol.
  change (mcol = mjoin fields.*2) in Hcol.
  unfold merge_on_index. cbn [columns].
  rewrite Hy, join_order_ascending by done.
  rewrite lookup_union_r.
  2:{ rewrite kmap_fixed.
      - rewrite lookup_fmap.
        by rewrite (map_disjoint_Some_r _ _ _ _ Hdisj Hmcol).
      - intros k [x Hk]. rewrite lookup_fmap in Hk.
        destruct (columns yearly !! k) as [colk|] eqn:Ek; [|done].
        unfold suffixed. by rewrite (map_disjoint_Some_l _ _ _ _ Hdisj Ek). }
  rewrite kmap_fixed.
  2:{ intros k [x Hk]. rewrite lookup_fmap in Hk.
      destruct (columns monthly !! k) as [colk|] eqn:Ek; [|done].
      unfold suffixed. by rewrite (map_disjoint_Some_r _ _ _ _ Hdisj Ek). }
  rewrite lookup_fmap, Hmcol. cbn [fmap option_fmap option_map]. f_equal.
  rewrite Hcol, Hm.
  assert (length md = length fields.*2) as -> by (by rewrite length_fmap).
  rewrite join_take_blocks by done.
  unfold nrows. apply flat_map_ext. intros i.
  by rewrite <- list_fmap_compose.
Qed.

End MonthlyExpansion.

Lemma yearly_to_monthly_distinct_labels_witness :
  let t := annual [0; 1] [Int 3; Int 4] [Num 1; Num 2] in
  nrows (yearly_to_monthly_eia923 (H := literal_regex) t month_dict)
  = (length month_dict * nrows t)%nat /\
  index (yearly_to_monthly_eia923 (H := literal_regex) t month_dict)
  = flat_map (replicate (length month_dict)) (index t).
Proof.
  intros t.
  destruct (yearly_to_monthly_distinct_labels (H := literal_regex) t month_dict)
    as [Hrows Hindex]; [by_evaluation|].
  split; [exact Hrows|]. apply Hindex. by_evaluation.
Defined.

Lemma annual_columns_apart :
  let t := annual [0; 1] [Int 3; Int 4] [Num 1; Num 2] in
  columns (month_loop (H := literal_regex) t month_dict).1
    ##ₘ columns (month_loop (H := literal_regex) t month_dict).2.
Proof.
  intros t.
  assert (columns (month_loop (H := literal_regex) t month_dict).1
          = {[ "plant_id" := [Int 3; Int 4] ]}) as -> by by_running.
  apply map_disjoint_singleton_l_2. by_running.
Qed.

Lemma yearly_to_monthly_carries_columns_witness :
  let t := annual [0; 1] [Int 3; Int 4] [Num 1; Num 2] in
  columns (yearly_to_monthly_eia923 (H := literal_regex) t month_dict)
    !! "plant_id"
  = Some (flat_map (replicate (length month_dict)) [Int 3; Int 4]).
Proof.
  intros t.
  apply (yearly_to_monthly_carries_columns (H := literal_regex) t month_dict).
  - by_evaluation.
  - reflexivity.
  - reflexivity.
  - intros entry Hin. apply list_elem_of_In in Hin. simpl in Hin.
    intuition (subst; reflexivity).
  - apply annual_columns_apart.
Defined.

Lemma yearly_to_monthly_month_numbers_witness :
  let t := annual [0; 1] [Int 3; Int 4] [Num 1; Num 2] in
  columns (yearly_to_monthly_eia923 (H := literal_regex) t month_dict)
    !! "month"
  = Some (flat_map (fun _ => (fun entry : Z * string => Int entry.1)
                               <$> month_dict) (index t)).
Proof.
  intros t.
  apply (yearly_to_monthly_month_numbers (H := literal_regex) t month_dict).
  - by_evaluation.
  - discriminate.
  - apply annual_columns_apart.
Defined.

Lemma yearly_to_monthly_month_fields_witness :
  let t := quarter [0; 1] [Int 3; Int 4]
             [[Num 1; Num 2]; [Num 3; Num 4]; [Num 5; Num 6]] in
  let fields := [("netgen_january", [Num 1; Num 2]);
                 ("netgen_february", [Num 3; Num 4]);
                 ("netgen_march", [Num 5; Num 6])] in
  columns (yearly_to_monthly_eia923 (H := literal_regex) t (take 3 month_dict))
    !! "netgen"
  = Some (flat_map (fun i => (fun field : string * list value =>
                                default NA (field.2 !! i)) <$> fields)
                   (seq 0 (nrows t))).
Proof.
  intros t fields.
  apply (yearly_to_monthly_month_fields (H := literal_regex) t
           (take 3 month_dict) "netgen" fields).
  - by_evaluation.
  - discriminate.
  - discriminate.
  - simpl. unfold month_field. cbn [fst snd].
    repeat split; try reflexivity; by_evaluation.
  - assert (columns (month_loop (H := literal_regex) t (take 3 month_dict)).1
            = {[ "plant_id" := [Int 3; Int 4] ]}) as -> by by_running.
    apply map_disjoint_singleton_l_2. by_running.
Defined.

(** The scenario: two plants and the first three months.  Each plant's
    three cells follow one another, next to the month numbers. *)
Example yearly_to_monthly_scenario :
  let t := quarter [0; 1] [Int 3; Int 4]
             [[Num 1; Num 2]; [Num 3; Num 4]; [Num 5; Num 6]] in
  let out := yearly_to_monthly_eia923 (H := literal_regex) t
               (take 3 month_dict) in
  index out = [0; 0; 0; 1; 1; 1] /\
  columns out !! "plant_id"
  = Some [Int 3; Int 3; Int 3; Int 4; Int 4; Int 4] /\
  columns out !! "month"
  = Some [Int 1; Int 2; Int 3; Int 1; Int 2; Int 3] /\
  columns out !! "netgen"
  = Some [Num 1; Num 3; Num 5; Num 2; Num 4; Num 6].
Proof. repeat split; by_running. Qed.

(** ** Column names *)

Lemma all_chars_impl (p q : ascii -> bool) (s : string) :
  (forall c, p c = true -> q c = true) ->
  all_chars p s = true -> all_chars q s = true.
Proof.
  intros Hpq. induction s as [|c r IH]; simpl; [done|].
  intros [Hc Hr]%andb_true_iff. by rewrite (Hpq _ Hc), IH.
Qed.

Lemma all_chars_map_chars (p : ascii -> bool) (f : ascii -> ascii) (s : string) :
  all_chars p (map_chars f s) = all_chars (fun c => p (f c)) s.
Proof. induction s as [|c r IH]; simpl; [done|]. by rewrite IH. Qed.

Lemma squash_word_chars (b : bool) (s : string) :
  all_chars word_char (squash_non_alnum b s) = true.
Proof.
  revert b. induction s as [|c r IH]; intros b; simpl; [done|].
  destruct (isalnum c) eqn:Hc; simpl.
  - unfold word_char at 1. by rewrite Hc, IH.
  - destruct b; simpl; by rewrite IH.
Qed.

Lemma squash_no_double (b : bool) (s : string) :
  no_double " " (squash_non_alnum b s) = true /\
  (b = true -> starts_with_char " " (squash_non_alnum b s) = false).
Proof.
  revert b. induction s as [|c r IH]; intros b; simpl; [done|].
  destruct (isalnum c) eqn:Hc.
  - destruct (IH false) as [Hn _]. split.
    + simpl. destruct (squash_non_alnum false r) as [|a q] eqn:Hs; [done|].
      rewrite Hn. assert (Ascii.eqb c " " = false) as ->; [|done].
      apply Ascii.eqb_neq. intros ->. discriminate.
    + intros _. simpl. apply Ascii.eqb_neq. intros ->. discriminate.
  - destruct b.
    + apply IH.
    + destruct (IH true) as [Hn Hs]. split; [|done].
      simpl. destruct (squash_non_alnum true r) as [|a q] eqn:Hq; [done|].
      specialize (Hs eq_refl). simpl in Hs.
      change (negb (Ascii.eqb " " " " && Ascii.eqb a " ")
              && no_double " " (String a q) = true).
      by rewrite Hs, andb_false_r.
Qed.

Lemma all_chars_lstrip (p : ascii -> bool) (s : string) :
  all_chars p s = true -> all_chars p (lstrip s) = true.
Proof.
  induction s as [|c r IH]; simpl; [done|].
  intros Hs. destruct (isspace c); [|done].
  apply andb_true_iff in Hs as [_ Hr]. by apply IH.
Qed.

Lemma rstrip_cons (c : ascii) (r : string) :
  rstrip (String c r) = EmptyString \/
  rstrip (String c r) = String c (rstrip r).
Proof.
  simpl. destruct (rstrip r) eqn:Hr; [|by right].
  destruct (isspace c); [by left|by right].
Qed.

Lemma all_chars_rstrip (p : ascii -> bool) (s : string) :
  all_chars p s = true -> all_chars p (rstrip s) = true.
Proof.
  induction s as [|c r IH]; [done|].
  intros [Hc Hr]%andb_true_iff.
  destruct (rstrip_cons c r) as [-> | ->]; [done|].
  simpl. by rewrite Hc, IH.
Qed.

Lemma no_double_tail (c a : ascii) (r : string) :
  no_double c (String a r) = true -> no_double c r = true.
Proof. simpl. destruct r; [done|]. by intros [_ ?]%andb_true_iff. Qed.

Lemma no_double_lstrip (c : ascii) (s : string) :
  no_double c s = true -> no_double c (lstrip s) = true.
Proof.
  induction s as [|a r IH]; [done|].
  intros Hs. simpl lstrip. destruct (isspace a); [|done].
  apply IH. by eapply no_double_tail.
Qed.

Lemma no_double_rstrip (c : ascii) (s : string) :
  no_double c s = true -> no_double c (rstrip s) = true.
Proof.
  induction s as [|a r IH]; [done|].
  intros Hs. destruct (rstrip_cons a r) as [-> | Hq]; [done|].
  rewrite Hq. pose proof (IH (no_double_tail _ _ _ Hs)) as IH'.
  destruct r as [|b r']; [done|].
  destruct (rstrip_cons b r') as [Hb | Hb]; rewrite Hb; [done|].
  rewrite Hb in IH'. simpl in Hs |- *.
  apply andb_true_iff in Hs as [-> _]. done.
Qed.

Lemma lstrip_head (s : string) :
  starts_with_char " " (lstrip s) = false.
Proof.
  induction s as [|a r IH]; [done|]. simpl.
  destruct (isspace a) eqn:Ha; [done|]. simpl.
  apply Ascii.eqb_neq. intros ->. discriminate.
Qed.

Lemma rstrip_head (c : ascii) (s : string) :
  starts_with_char c s = false -> starts_with_char c (rstrip s) = false.
Proof.
  destruct s as [|a r]; [done|]. intros Hs.
  by destruct (rstrip_cons a r) as [-> | ->].
Qed.

Lemma rstrip_last (s : string) :
  endswith_char " " (rstrip s) = false.
Proof.
  induction s as [|a r IH]; [done|]. simpl rstrip.
  destruct (rstrip r) as [|b r'] eqn:Hr.
  - destruct (isspace a) eqn:Ha; [done|]. simpl.
    apply Ascii.eqb_neq. intros ->. discriminate.
  - done.
Qed.

Lemma strip_separated (s : string) :
  no_double " " s = true -> separated_by " " (strip s) = true.
Proof.
  intros Hs. unfold separated_by, strip.
  rewrite rstrip_head by apply lstrip_head.
  rewrite rstrip_last. simpl.
  by apply no_double_rstrip, no_double_lstrip.
Qed.

Lemma to_name_char (c : ascii) : word_char c = true -> name_char (to_name c) = true.
Proof. destruct c as [[] [] [] [] [] [] [] []]; vm_compute; congruence. Qed.

Lemma to_name_sep (c : ascii) :
  word_char c = true -> Ascii.eqb (to_name c) "_" = Ascii.eqb c " ".
Proof. destruct c as [[] [] [] [] [] [] [] []]; vm_compute; congruence. Qed.

Lemma map_chars_compose (f g : ascii -> ascii) (s : string) :
  map_chars f (map_chars g s) = map_chars (fun c => f (g c)) s.
Proof. induction s as [|c r IH]; simpl; [done|]. by rewrite IH. Qed.

Lemma map_separated (f : ascii -> ascii) (p : ascii -> bool) (a b : ascii)
    (s : string) :
  (forall c, p c = true -> Ascii.eqb (f c) b = Ascii.eqb c a) ->
  all_chars p s = true ->
  separated_by b (map_chars f s) = separated_by a s.
Proof.
  intros Hf Hs. unfold separated_by.
  assert (starts_with_char b (map_chars f s) = starts_with_char a s) as ->.
  { destruct s as [|c r]; [done|]. simpl in *.
    apply andb_true_iff in Hs as [Hc _]. by apply Hf. }
  assert (endswith_char b (map_chars f s) = endswith_char a s) as ->.
  { induction s as [|c r IH]; [done|].
    apply andb_true_iff in Hs as [Hc Hr]. simpl.
    destruct r as [|c' r']; [by apply Hf|]. by apply IH. }
  f_equal. induction s as [|c r IH]; [done|].
  apply andb_true_iff in Hs as [Hc Hr].
  destruct r as [|c' r']; [done|].
  change (negb (Ascii.eqb (f c) b && Ascii.eqb (f c') b)
            && no_double b (map_chars f (String c' r'))
          = negb (Ascii.eqb c a && Ascii.eqb c' a) && no_double a (String c' r')).
  rewrite IH by done. rewrite (Hf c Hc).
  simpl in Hr. apply andb_true_iff in Hr as [Hc' _]. by rewrite (Hf c' Hc').
Qed.

Lemma clean_column_name_unfold (s : string) :
  clean_column_name s = map_chars to_name (strip (squash_non_alnum false s)).
Proof. unfold clean_column_name, lower. by rewrite map_chars_compose. Qed.

Lemma cleaned_name_tidy (s : string) :
  tidy_name (clean_column_name s) = true.
Proof.
  rewrite clean_column_name_unfold. unfold tidy_name.
  assert (all_chars word_char (strip (squash_non_alnum false s)) = true) as Hw.
  { apply all_chars_rstrip, all_chars_lstrip, squash_word_chars. }
  apply andb_true_iff. split.
  - rewrite all_chars_map_chars.
    revert Hw. apply all_chars_impl, to_name_char.
  - rewrite (map_separated to_name word_char " " "_") by (done || apply to_name_sep).
    apply strip_separated, squash_no_double.
Qed.

Lemma squash_tidy (b : bool) (s : string) :
  all_chars name_char s = true ->
  no_double "_" s = true ->
  (b = true -> starts_with_char "_" s = false) ->
  squash_non_alnum b s = map_chars to_space s.
Proof.
  revert b. induction s as [|c r IH]; intros b Hs Hn Hb; [done|].
  apply andb_true_iff in Hs as [Hc Hr]. simpl.
  destruct (isalnum c) eqn:Ha.
  - rewrite (IH false); [|done|by eapply no_double_tail|done].
    f_equal. unfold to_space.
    destruct (Ascii.eqb_spec c "_") as [->|]; [discriminate|done].
  - assert (c = "_"%char) as ->.
    { revert Hc Ha. destruct c as [[] [] [] [] [] [] [] []]; vm_compute; congruence. }
    destruct b; [by specialize (Hb eq_refl)|].
    rewrite (IH true); [done|done|by eapply no_double_tail|].
    intros _. destruct r as [|c' r']; [done|].
    simpl in Hn. apply andb_true_iff in Hn as [Hn _].
    simpl in Hn |- *. by destruct (Ascii.eqb c' "_").
Qed.

Lemma lstrip_fixed (s : string) :
  starts_with_char " " s = false -> all_chars word_char s = true -> lstrip s = s.
Proof.
  destruct s as [|c r]; [done|]. simpl. intros Hc [Hw _]%andb_true_iff.
  assert (isspace c = false) as ->; [|done].
  revert Hc Hw. destruct c as [[] [] [] [] [] [] [] []]; vm_compute; congruence.
Qed.

Lemma rstrip_fixed (s : string) :
  endswith_char " " s = false -> all_chars word_char s = true -> rstrip s = s.
Proof.
  induction s as [|c r IH]; [done|].
  intros He [Hw Hr]%andb_true_iff. simpl.
  destruct r as [|c' r'].
  - simpl in *. assert (isspace c = false) as ->; [|done].
    revert He Hw. destruct c as [[] [] [] [] [] [] [] []]; vm_compute; congruence.
  - rewrite IH by done. done.
Qed.

Lemma to_space_word (c : ascii) : name_char c = true -> word_char (to_space c) = true.
Proof. destruct c as [[] [] [] [] [] [] [] []]; vm_compute; congruence. Qed.

Lemma to_space_sep (c : ascii) :
  name_char c = true -> Ascii.eqb (to_space c) " " = Ascii.eqb c "_".
Proof. destruct c as [[] [] [] [] [] [] [] []]; vm_compute; congruence. Qed.

Lemma to_name_to_space (c : ascii) : name_char c = true -> to_name (to_space c) = c.
Proof. destruct c as [[] [] [] [] [] [] [] []]; vm_compute; congruence. Qed.

Lemma tidy_name_fixed (s : string) :
  tidy_name s = true -> clean_column_name s = s.
Proof.
  unfold tidy_name, separated_by.
  intros [Hc [[Hh He]%andb_true_iff Hn]%andb_true_iff]%andb_true_iff.
  apply negb_true_iff in Hh, He.
  rewrite clean_column_name_unfold.
  rewrite (squash_tidy false) by done.
  assert (all_chars word_char (map_chars to_space s) = true) as Hw.
  { rewrite all_chars_map_chars. revert Hc. apply all_chars_impl, to_space_word. }
  assert (separated_by " " (map_chars to_space s) = separated_by "_" s) as Hsep.
  { by apply (map_separated to_space name_char); [apply to_space_sep|]. }
  unfold separated_by in Hsep. rewrite Hh, He, Hn in Hsep. simpl in Hsep.
  apply andb_true_iff in Hsep as [[Hh' He']%andb_true_iff _].
  apply negb_true_iff in Hh', He'.
  unfold strip. rewrite lstrip_fixed, rstrip_fixed by done.
  rewrite map_chars_compose. apply map_chars_fixed.
  revert Hc. apply all_chars_impl. intros c Hc.
  rewrite to_name_to_space by done. apply Ascii.eqb_refl.
Qed.

(** A cleaned column name is made of lower-case letters, digits and
    underscores, and no underscore stands first, last, or next to another
    one. *)
Theorem clean_column_name_tidy (s : string) :
  tidy_name (clean_column_name s) = true.
Proof. apply cleaned_name_tidy. Qed.

(** Cleaning a cleaned column name changes nothing: a name of that shape is
    its own cleaned form. *)
Theorem clean_column_name_idempotent (s : string) :
  clean_column_name (clean_column_name s) = clean_column_name s.
Proof. apply tidy_name_fixed, cleaned_name_tidy. Qed.

(** ** The column map *)

Lemma invert_from_lookup (d : list (string * string)) (m : gmap string string)
    (k v : string) :
  foldl (fun m kv => <[kv.2 := kv.1]> m) m d !! v = Some k ->
  (k, v) ∈ d \/ m !! v = Some k.
Proof.
  revert m. induction d as [|[k0 v0] d IH]; intros m; simpl; [by right|].
  intros [Hin | Hm]%IH.
  - left. by right.
  - destruct (decide (v0 = v)) as [->|Hne].
    + rewrite lookup_insert_eq in Hm. injection Hm as ->. left. by left.
    + rewrite lookup_insert_ne in Hm by done. by right.
Qed.

Lemma invert_from_later (d : list (string * string)) (m : gmap string string)
    (k v : string) :
  v ∉ d.*2 -> foldl (fun m kv => <[kv.2 := kv.1]> m) m d !! v = m !! v.
Proof.
  revert m. induction d as [|[k0 v0] d IH]; intros m; simpl; [done|].
  intros [Hne Hv]%not_elem_of_cons. rewrite IH by done.
  by apply lookup_insert_ne.
Qed.

Lemma invert_from_member (d : list (string * string)) (m : gmap string string)
    (k v : string) :
  NoDup d.*2 -> (k, v) ∈ d ->
  foldl (fun m kv => <[kv.2 := kv.1]> m) m d !! v = Some k.
Proof.
  revert m. induction d as [|[k0 v0] d IH]; intros m; simpl.
  - intros _ Hin. by apply elem_of_nil in Hin.
  - intros [Hv0 Hnd]%NoDup_cons [Heq | Hin]%elem_of_cons.
    + injection Heq as -> ->. rewrite (invert_from_later d _ k0) by done.
      apply lookup_insert_eq.
    + by apply IH.
Qed.

Section ColumnMap.
Context `{Constants}.

(** The column map that [get_eia923_column_map] returns inverts the
    dictionary of the page and year: it sends a name only to a canonical
    name that the dictionary lists with it, and when no two canonical
    names share a name that year, it sends the name of every canonical
    name back to it. *)
Theorem get_eia923_column_map_inverts (page : string) (year sheetname skiprows : Z)
    (column_map : gmap string string) :
  get_eia923_column_map page year = Ok (sheetname, skiprows, column_map) ->
  exists d,
    page_map_eia923 page year = Some d /\
    (forall k v, column_map !! v = Some k -> (k, v) ∈ d) /\
    (NoDup d.*2 -> forall k v, (k, v) ∈ d -> column_map !! v = Some k).
Proof.
  unfold get_eia923_column_map, lookup_or_KeyError. intros Hrun.
  destruct (tab_map_eia923 year page); [|done].
  destruct (skiprows_eia923 year page); [|done]. simpl in Hrun.
  destruct (bool_decide (page ∈ known_pages)); [|done]. simpl in Hrun.
  destruct (page_map_eia923 page year) as [d|]; [|done]. simpl in Hrun.
  injection Hrun as _ _ <-. exists d. split; [done|]. split.
  - intros k v [Hin | Hm]%invert_from_lookup; [done|].
    by rewrite lookup_empty in Hm.
  - intros Hnd k v Hin. by apply invert_from_member.
Qed.

End ColumnMap.

(** ** What [get_eia923_page] needs to return *)

Lemma foldl_min_le (x : Z) (rest : list Z) :
  foldl Z.min x rest <= x /\ Forall (fun y => foldl Z.min x rest <= y) rest.
Proof.
  revert x. induction rest as [|y rest IH]; intros x; simpl; [split; [lia|done]|].
  destruct (IH (Z.min x y)) as [Hle Hall]. split; [lia|].
  constructor; [lia|done].
Qed.

Section PageNeeds.
Context `{Constants} `{Excel}.

Lemma canonical_sheet_needs page (books : gmap Z workbook) yr sheet :
  canonical_sheet page books yr = Ok sheet ->
  page ∈ known_pages /\ is_Some (books !! yr).
Proof.
  unfold canonical_sheet. intros Hrun.
  apply bind_Ok in Hrun as ([[sheetname skiprows] column_map] & Hmap & Hrun).
  apply bind_Ok in Hrun as (book & Hbook & _).
  split.
  - unfold get_eia923_column_map in Hmap.
    apply bind_Ok in Hmap as (? & _ & Hmap).
    apply bind_Ok in Hmap as (? & _ & Hmap).
    apply bind_Ok in Hmap as (? & Hpage & _).
    destruct (decide (page ∈ known_pages)) as [|Hno]; [done|].
    by rewrite (bool_decide_eq_false_2 _ Hno) in Hpage.
  - unfold lookup_or_KeyError in Hbook. by destruct (books !! yr).
Qed.

Lemma read_years_needs page (books : gmap Z workbook) years df df' :
  read_years page books df years = Ok df' ->
  Forall (fun yr => page ∈ known_pages /\ is_Some (books !! yr)) years.
Proof.
  revert df. induction years as [|yr rest IH]; intros df; simpl; [done|].
  intros Hrun. apply bind_Ok in Hrun as (d & Hyr & Hrest).
  constructor; [|by eapply IH].
  unfold read_year in Hyr. apply bind_Ok in Hyr as (sheet & Hsheet & _).
  by eapply canonical_sheet_needs.
Qed.

(** When [get_eia923_page] returns a table, it was asked for at least one
    year, none of them before 2009, for a page that is a column of the tab
    map, is not [year_index] and is one of the six pages of
    [get_eia923_column_map], and the dictionary of workbooks holds every
    year asked for. *)
Theorem get_eia923_page_needs page (books : gmap Z workbook) years df :
  get_eia923_page page books years = Ok df ->
  years <> [] /\
  page ∈ tab_map_columns /\ page <> "year_index" /\ page ∈ known_pages /\
  Forall (fun yr => 2009 <= yr /\ is_Some (books !! yr)) years.
Proof.
  unfold get_eia923_page. intros Hrun.
  apply bind_Ok in Hrun as (first & Hmin & Hrun).
  apply bind_Ok in Hrun as ([] & Hyear & Hrun).
  apply bind_Ok in Hrun as ([] & Hpage & Hrun).
  destruct years as [|yr rest]; [done|].
  split; [done|].
  unfold assert in Hyear, Hpage.
  destruct (2009 <=? first) eqn:Hfirst; [|done].
  apply Z.leb_le in Hfirst.
  destruct (bool_decide (page ∈ tab_map_columns)) eqn:Hcol; [|done].
  apply bool_decide_eq_true in Hcol.
  destruct (String.eqb page "year_index") eqn:Hidx; [done|].
  apply String.eqb_neq in Hidx.
  pose proof (read_years_needs _ _ _ _ _ Hrun) as Hall.
  split; [done|]. split; [done|]. split.
  - by apply Forall_cons in Hall as [[? _] _].
  - simpl in Hmin. injection Hmin as <-.
    destruct (foldl_min_le yr rest) as [Hle Hrest].
    assert (Forall (fun y => 2009 <= y) (yr :: rest)) as Hyears.
    { constructor; [lia|]. eapply Forall_impl; [exact Hrest|]. simpl. lia. }
    apply Forall_and. split; [done|].
    eapply Forall_impl; [exact Hall|]. by intros ? [_ ?].
Qed.

End PageNeeds.

(** ** [cleanstringsEIA923] with a value for the unmapped *)

Lemma text_in_unique (field : list value) (s : string) :
  Str s ∈ field -> Str s ∈ unique field.
Proof.
  induction field as [|v rest IH]; [by intros ?%elem_of_nil|].
  intros [<- | Hin]%elem_of_cons; simpl; [by left|].
  assert (v = Str s \/ same_cell v (Str s) = false) as [->|Hne].
  { destruct v as [|t| | | |]; try by right.
    destruct (decide (t = s)) as [->|Hne]; [by left|right].
    by apply String.eqb_neq. }
  - by left.
  - right. apply list_elem_of_In, filter_In. split.
    + by apply list_elem_of_In, IH.
    + by rewrite Hne.
Qed.

Lemma same_cell_text (s : string) (v : value) :
  same_cell (Str s) v = true <-> v = Str s.
Proof.
  destruct v; simpl; try (split; [done|discriminate]).
  rewrite String.eqb_eq. split; congruence.
Qed.

Lemma replace_synonyms_text (kv : string * list string) (v : value) :
  is_text v = true -> is_text (replace_synonyms kv v) = true.
Proof. destruct v; try done. simpl. by destruct (bool_decide _). Qed.

Lemma synonym_loop_keeps_text (entries : stringmap) (field : list value) :
  Forall (fun v => is_text v = true) field ->
  Forall (fun v => is_text v = true)
         (foldl (fun fld kv => replace_synonyms kv <$> fld) field entries).
Proof.
  revert field. induction entries as [|kv entries IH]; intros field Hf; [done|].
  simpl. apply IH. apply Forall_fmap. eapply Forall_impl; [exact Hf|].
  intros v. apply replace_synonyms_text.
Qed.

Lemma synonym_loop_length (entries : stringmap) (field : list value) :
  length (foldl (fun fld kv => replace_synonyms kv <$> fld) field entries)
  = length field.
Proof.
  revert field. induction entries as [|kv entries IH]; intros field; [done|].
  simpl. by rewrite IH, length_fmap.
Qed.

(** With a value for the unmapped, a column of strings comes back with as
    many cells, and each of them is a key of the map or that value. *)
Theorem cleanstrings_unmapped_keys (field : list value) (map : stringmap)
    (u : value) :
  Forall (fun v => is_text v = true) field ->
  length (cleanstringsEIA923 field map (Some u)) = length field /\
  Forall (fun v => v = u \/ is_key map.*1 v = true)
         (cleanstringsEIA923 field map (Some u)).
Proof.
  intros Hf. unfold cleanstringsEIA923.
  set (simple := regex_replace (map_chars blank_class)
                   <$> (str_method (fun s => strip (upper s)) <$> field)).
  set (mapped := foldl (fun fld kv => replace_synonyms kv <$> fld) simple map).
  assert (Forall (fun v => is_text v = true) mapped) as Hm.
  { apply synonym_loop_keeps_text. unfold simple. rewrite <- list_fmap_compose.
    apply Forall_fmap. eapply Forall_impl; [exact Hf|]. by intros []. }
  split.
  - unfold replace_where. rewrite length_fmap. unfold mapped.
    rewrite synonym_loop_length. unfold simple. by rewrite !length_fmap.
  - unfold replace_where. apply Forall_fmap, Forall_forall. intros v Hv. simpl.
    destruct (existsb _ _) eqn:Hbad; [by left|]. right.
    rewrite Forall_forall in Hm. pose proof (Hm v Hv) as Ht.
    destruct v as [|s| | | |]; try done.
    destruct (is_key map.*1 (Str s)) eqn:Hk; [done|].
    assert (existsb (same_cell (Str s)) (setdiff1d (unique mapped) map.*1) = true)
      as Habs; [|congruence].
    apply existsb_exists. exists (Str s). split; [|by apply same_cell_text].
    unfold setdiff1d. apply filter_In. split.
    + by apply list_elem_of_In, text_in_unique.
    + by rewrite Hk.
Qed.

(** ** [datadir], [get_eia923_file], [get_eia923_xlsx] *)

Lemma format_int_inj (m n : Z) : format_int m = format_int n -> m = n.
Proof.
  unfold format_int. intros Heq. apply DecimalZ.to_int_inj.
  assert (forall z, Z.to_int z <> Decimal.Pos Decimal.Nil /\
                    Z.to_int z <> Decimal.Neg Decimal.Nil) as Hnil.
  { intros [|p|p]; simpl; split; try discriminate;
      intros [= Hp]; by apply Unsigned.to_uint_nonnil in Hp. }
  destruct (Hnil m) as [Hm1 Hm2], (Hnil n) as [Hn1 Hn2].
  pose proof (NilZero.isi _ Hm1 Hm2) as Hm.
  pose proof (NilZero.isi _ Hn1 Hn2) as Hn.
  rewrite Heq in Hm. congruence.
Qed.

Lemma append_inj_r (a b1 b2 : string) :
  String.append a b1 = String.append a b2 -> b1 = b2.
Proof. induction a as [|c a IH]; simpl; [done|]. intros [= Heq]. by apply IH. Qed.

Lemma path_join_inj (a b1 b2 : string) :
  startswith "/" b1 = false -> startswith "/" b2 = false ->
  path_join a b1 = path_join a b2 -> b1 = b2.
Proof.
  unfold path_join. intros -> ->. destruct a as [|c a]; [done|].
  destruct (endswith_char "/" (String c a)).
  - apply append_inj_r.
  - intros Heq%append_inj_r. by injection Heq.
Qed.

Section Files.
Context `{Files}.

Lemma datadir_inv (year : Z) (p : string) :
  datadir year = Ok p ->
  2001 <= year <= 2016 /\
  p = path_join EIA923_DATA_DIR
        (String.append (if year <? 2008 then "f906920_" else "f923_")
                       (format_int year)).
Proof.
  unfold datadir, assert. intros Hrun.
  destruct (bool_decide_reflect (2001 <= year < 2017)) as [Hy|]; [|done].
  simpl in Hrun. split; [lia|].
  destruct (year <? 2008); by injection Hrun as <-.
Qed.

(** [datadir] returns a directory for the years 2001 to 2016 only, and no
    two years share a directory. *)
Theorem datadir_one_per_year (y1 y2 : Z) (p : string) :
  datadir y1 = Ok p -> datadir y2 = Ok p ->
  y1 = y2 /\ 2001 <= y1 <= 2016.
Proof.
  intros [Hy1 ->]%datadir_inv [Hy2 Heq]%datadir_inv. split; [|done].
  apply path_join_inj in Heq.
  - destruct (y1 <? 2008), (y2 <? 2008); simpl in Heq;
      try discriminate; injection Heq as Heq; by apply format_int_inj.
  - by destruct (y1 <? 2008).
  - by destruct (y2 <? 2008).
Qed.

Lemma datadir_years (year : Z) :
  (2001 <= year <= 2016 -> exists p, datadir year = Ok p) /\
  (~ (2001 <= year <= 2016) -> datadir year = Raise AssertionError).
Proof.
  unfold datadir, assert.
  destruct (bool_decide_reflect (2001 <= year < 2017)) as [Hy|Hy]; simpl.
  - split; [|lia]. intros _. destruct (year <? 2008); eauto.
  - split; [lia|done].
Qed.

(** [get_eia923_file] fails its assertion exactly outside the years 2009 to
    2016, the year 2008 included, and a file it returns is the first match
    of the pattern in the [f923_] directory of the year. *)
Theorem get_eia923_file_search (yr : Z) :
  (get_eia923_file yr = Raise AssertionError <-> ~ (2009 <= yr <= 2016)) /\
  (forall path, get_eia923_file yr = Ok (Item path) ->
     exists more,
       glob (path_join
               (path_join EIA923_DATA_DIR
                  (String.append "f923_" (format_int yr)))
               "*2_3_4*") = path :: more).
Proof.
  unfold get_eia923_file, datadir, assert.
  destruct (Z.ltb_spec 2008 yr) as [Hlo|Hlo]; simpl.
  - destruct (bool_decide_reflect (2001 <= yr < 2017)) as [Hy|Hy]; simpl.
    + assert ((yr <? 2008) = false) as -> by lia. simpl. split.
      * split; [done|lia].
      * intros path Hrun. destruct (glob _) as [|p more]; [done|].
        injection Hrun as ->. by exists more.
    + split; [|done]. split; [lia|done].
  - split; [|done]. split; [lia|done].
Qed.

Lemma get_eia923_file_years (yr : Z) (path : string) :
  get_eia923_file yr = Ok (Item path) -> 2009 <= yr <= 2016.
Proof.
  intros Hrun. destruct (decide (2009 <= yr <= 2016)) as [|Hno]; [done|].
  unfold get_eia923_file, datadir, assert in Hrun.
  destruct (Z.ltb_spec 2008 yr) as [Hlo|Hlo]; simpl in Hrun; [|done].
  destruct (bool_decide_reflect (2001 <= yr < 2017)) as [Hy|Hy]; [lia|done].
Qed.

Lemma get_eia923_xlsx_from_inv (years : list Z) (start books : gmap Z workbook) :
  get_eia923_xlsx_from start years = Ok (Item books) ->
  Forall (fun yr => 2009 <= yr <= 2016 /\
                    exists path, get_eia923_file yr = Ok (Item path) /\
                                 books !! yr = Some (ExcelFile path)) years /\
  forall yr, yr ∉ years -> books !! yr = start !! yr.
Proof.
  revert start. induction years as [|yr rest IH]; intros start; simpl.
  - intros [= <-]. done.
  - intros Hrun. destruct (get_eia923_file yr) as [[path|]|] eqn:Hfile;
      simpl in Hrun; [|done..].
    apply IH in Hrun as [Hall Hout]. split.
    + constructor; [|done]. split; [by eapply get_eia923_file_years|].
      exists path. split; [done|].
      destruct (decide (yr ∈ rest)) as [Hin|Hnot].
      * rewrite Forall_forall in Hall.
        destruct (Hall yr Hin) as (_ & path' & Hfile' & Hb). congruence.
      * rewrite Hout by done. apply lookup_insert_eq.
    + intros y [Hne Hy]%not_elem_of_cons. rewrite Hout by done.
      by apply lookup_insert_ne.
Qed.

(** The dictionary that [get_eia923_xlsx] returns has the years asked for
    as its keys, all of them from 2009 to 2016, and holds for each year the
    workbook of the file that [get_eia923_file] finds for it. *)
Theorem get_eia923_xlsx_years (years : list Z) (books : gmap Z workbook) :
  get_eia923_xlsx years = Ok (Item books) ->
  (forall yr, is_Some (books !! yr) <-> yr ∈ years) /\
  Forall (fun yr => 2009 <= yr <= 2016 /\
                    exists path, get_eia923_file yr = Ok (Item path) /\
                                 books !! yr = Some (ExcelFile path)) years.
Proof.
  intros [Hall Hout]%get_eia923_xlsx_from_inv. split; [|done].
  intros yr. split.
  - intros Hsome. destruct (decide (yr ∈ years)) as [|Hnot]; [done|].
    rewrite Hout, lookup_empty in Hsome by done. by destruct Hsome.
  - intros Hin. rewrite Forall_forall in Hall.
    destruct (Hall yr Hin) as (_ & path & _ & ->). by eexists.
Qed.

End Files.

(** ** How [get_eia923_page] fails *)


Section PageFailures.
Context `{Constants} `{Excel}.





End PageFailures.

Section Serving.
Context `{Constants} `{Files}.


End Serving.

(** ** [transform] *)

Lemma writes_bind {A : Type} (name : string) (m : result A)
    (k : A -> tables -> result tables) :
  (forall a, exists r, forall acc, k a acc = stores name r acc) ->
  exists r, forall acc, m ≫= (fun a => k a acc) = stores name r acc.
Proof.
  intros Hk. destruct m as [a|e].
  - destruct (Hk a) as [r Hr]. by exists r.
  - by exists (Raise e).
Qed.

Lemma writes_ret (name : string) (df : DataFrame) :
  exists r, forall acc : tables, mret (<[name := df]> acc) = stores name r acc.
Proof. by exists (Ok df). Qed.

Ltac writes_one :=
  intros ?;
  repeat (cbv zeta; first [apply writes_ret | apply writes_bind; intros ?]).

Section Transform.
Context `{Helpers} `{Duplicates}.

Lemma ownership_writes_one : writes_one "ownership_eia860" ownership.
Proof. unfold writes_one, ownership. writes_one. Qed.

Lemma generators_writes_one : writes_one "generators_eia860" generators.
Proof. unfold writes_one, generators. writes_one. Qed.

Lemma plants_writes_one : writes_one "plants_eia860" plants.
Proof. unfold writes_one, plants. writes_one. Qed.

Lemma boiler_generator_assn_writes_one :
  writes_one "boiler_generator_assn_eia860" boiler_generator_assn.
Proof. unfold writes_one, boiler_generator_assn. writes_one. Qed.

Lemma utilities_writes_one : writes_one "utilities_eia860" utilities.
Proof. unfold writes_one, utilities. writes_one. Qed.

Lemma eia860_transform_functions_write_one :
  Forall (fun entry => writes_one entry.1 entry.2) eia860_transform_functions.
Proof.
  repeat constructor; simpl.
  - apply ownership_writes_one.
  - apply generators_writes_one.
  - apply plants_writes_one.
  - apply boiler_generator_assn_writes_one.
  - apply utilities_writes_one.
Qed.

Lemma transform_loop_raised raw (eia860_tables : list string) e fs :
  foldl (transform_step raw eia860_tables) (Raise e) fs = Raise e.
Proof. induction fs as [|entry fs IH]; [done|]. simpl. apply IH. Qed.

(** The loop, over any list of transformers that write one table each. *)
Lemma transform_loop_inv raw (eia860_tables : list string) fs acc out :
  Forall (fun entry => writes_one entry.1 entry.2) fs ->
  NoDup fs.*1 ->
  foldl (transform_step raw eia860_tables) (Ok acc) fs = Ok out ->
  (forall t, t ∉ fs.*1 \/ t ∉ eia860_tables -> out !! t = acc !! t) /\
  (forall name f, (name, f) ∈ fs -> name ∈ eia860_tables ->
     exists df, f raw ∅ = Ok {[ name := df ]} /\ out !! name = Some df).
Proof.
  revert acc. induction fs as [|[name0 f0] fs IH]; intros acc Hw Hnd Hrun.
  { simpl in Hrun. injection Hrun as <-. split; [done|].
    intros ? ? Hin. by apply elem_of_nil in Hin. }
  apply Forall_cons in Hw as [Hw0 Hw]. simpl in Hw0.
  apply NoDup_cons in Hnd as [Hfresh Hnd].
  cbn [foldl] in Hrun. unfold transform_step at 2 in Hrun.
  rewrite bind_Ok_l in Hrun. cbn [fst snd] in Hrun.
  destruct (Hw0 raw) as [r Hr].
  destruct (bool_decide_reflect (name0 ∈ eia860_tables)) as [Hask|Hask].
  - rewrite Hr in Hrun. destruct r as [df|e]; simpl in Hrun;
      [|by rewrite transform_loop_raised in Hrun].
    destruct (IH _ Hw Hnd Hrun) as [Hother Hown]. split.
    + intros t Ht. rewrite Hother.
      * apply lookup_insert_ne. intros <-.
        destruct Ht as [Ht | Ht]; [|done]. apply Ht. by left.
      * destruct Ht as [Ht | Ht]; [left|by right].
        intros ?. apply Ht. by right.
    + intros name f [Heq | Hin]%elem_of_cons Hname.
      * injection Heq as -> ->. exists df. split; [by rewrite Hr|].
        rewrite Hother by (by left). apply lookup_insert_eq.
      * by apply Hown.
  - destruct (IH _ Hw Hnd Hrun) as [Hother Hown]. split.
    + intros t Ht. apply Hother. destruct Ht as [Ht | Ht]; [left|by right].
      intros ?. apply Ht. by right.
    + intros name f [Heq | Hin]%elem_of_cons Hname.
      * by injection Heq as -> ->.
      * by apply Hown.
Qed.

Lemma transform_loop_raises raw (eia860_tables : list string) fs acc e :
  Forall (fun entry => writes_one entry.1 entry.2) fs ->
  foldl (transform_step raw eia860_tables) (Ok acc) fs = Raise e ->
  exists name f, (name, f) ∈ fs /\ name ∈ eia860_tables /\ f raw ∅ = Raise e.
Proof.
  revert acc. induction fs as [|[name0 f0] fs IH]; intros acc Hw Hrun; [done|].
  apply Forall_cons in Hw as [Hw0 Hw]. simpl in Hw0.
  cbn [foldl] in Hrun. unfold transform_step at 2 in Hrun.
  rewrite bind_Ok_l in Hrun. cbn [fst snd] in Hrun.
  destruct (Hw0 raw) as [r Hr].
  destruct (bool_decide_reflect (name0 ∈ eia860_tables)) as [Hask|Hask].
  - rewrite Hr in Hrun. destruct r as [df|e0]; simpl in Hrun.
    + destruct (IH _ Hw Hrun) as (name & f & Hin & Hname & Hf).
      exists name, f. split; [by right|done].
    + rewrite transform_loop_raised in Hrun. injection Hrun as ->.
      exists name0, f0. split; [by left|]. split; [done|]. by rewrite Hr.
  - destruct (IH _ Hw Hrun) as (name & f & Hin & Hname & Hf).
    exists name, f. split; [by right|done].
Qed.

Lemma eia860_transform_functions_names :
  eia860_transform_functions.*1
  = ["ownership_eia860"; "generators_eia860"; "plants_eia860";
     "boiler_generator_assn_eia860"; "utilities_eia860"].
Proof. reflexivity. Qed.

Lemma transform_names_NoDup : NoDup eia860_transform_functions.*1.
Proof. rewrite eia860_transform_functions_names. by_evaluation. Qed.

(** [transform] returns the tables that are asked for and that it has a
    transformer for, and no other: a name it does not know is passed over,
    and so is every name when there is no raw page at all. *)
Theorem transform_tables raw (eia860_tables : list string) out :
  transform raw eia860_tables = Ok out ->
  forall t, is_Some (out !! t) <->
    raw <> ∅ /\ t ∈ eia860_tables /\
    t ∈ ["ownership_eia860"; "generators_eia860"; "plants_eia860";
         "boiler_generator_assn_eia860"; "utilities_eia860"].
Proof.
  unfold transform. intros Hrun t.
  destruct (bool_decide_reflect (raw = ∅)) as [Hraw|Hraw].
  { injection Hrun as <-. rewrite lookup_empty. split; [by intros []|].
    by intros [? _]. }
  rewrite <- eia860_transform_functions_names.
  apply transform_loop_inv in Hrun as [Hother Hown];
    [|apply eia860_transform_functions_write_one|apply transform_names_NoDup].
  split.
  - intros Hsome. split; [done|].
    destruct (decide (t ∈ eia860_tables)) as [Ht|Ht];
      [|by rewrite Hother, lookup_empty in Hsome by (by right); destruct Hsome].
    split; [done|].
    destruct (decide (t ∈ eia860_transform_functions.*1)) as [|Hno]; [done|].
    rewrite Hother, lookup_empty in Hsome by (by left). by destruct Hsome.
  - intros (_ & Hask & Hin). apply list_elem_of_fmap in Hin as ([name f] & -> & Hin).
    simpl in Hask |- *. destruct (Hown _ _ Hin Hask) as (df & _ & ->). by eexists.
Qed.

(** Each transformer that [transform] runs works as if it ran alone: the
    table [transform] returns under a name is the one the transformer of
    that name stores when it starts from an empty dictionary, and an
    exception of [transform] is the exception of one of the transformers
    asked for, run alone. *)
Theorem transform_runs_each_alone raw (eia860_tables : list string) :
  raw <> ∅ ->
  (forall out name f,
     transform raw eia860_tables = Ok out ->
     (name, f) ∈ eia860_transform_functions -> name ∈ eia860_tables ->
     exists df, f raw ∅ = Ok {[ name := df ]} /\ out !! name = Some df) /\
  (forall e,
     transform raw eia860_tables = Raise e ->
     exists name f,
       (name, f) ∈ eia860_transform_functions /\ name ∈ eia860_tables /\
       f raw ∅ = Raise e).
Proof.
  intros Hraw. unfold transform.
  rewrite (bool_decide_eq_false_2 _ Hraw). split.
  - intros out name f Hrun Hin Hname.
    apply transform_loop_inv in Hrun as [_ Hown];
      [|apply eia860_transform_functions_write_one|apply transform_names_NoDup].
    by apply Hown.
  - intros e Hrun. eapply transform_loop_raises; [|done].
    apply eia860_transform_functions_write_one.
Qed.

End Transform.

(** ** The columns the transformers write *)

Section Frames.
Implicit Types (df : DataFrame) (c : string) (col : list value).

Lemma for_each_update_col (f : list value -> list value) (cols : list string)
    df df' c col :
  NoDup cols -> c ∈ cols ->
  for_each (update_col f) cols df = Ok df' ->
  columns df !! c = Some col ->
  columns df' !! c = Some (f col).
Proof.
  intros Hnd. revert df.
  induction Hnd as [|c0 cols Hc0 Hnd IH]; intros df Hin; [by inversion Hin|].
  simpl. intros (d & Hd & Hrest)%bind_Ok Hcol.
  destruct (decide (c = c0)) as [->|Hne].
  - apply update_col_inv in Hd as (col' & Hcol' & ->).
    rewrite Hcol in Hcol'. injection Hcol' as <-.
    apply (for_each_touches _ _ _ _ (update_col_touches f)) in Hrest
      as [_ Hkeep].
    rewrite Hkeep by done. apply setcol_lookup.
  - apply elem_of_cons in Hin as [?|Hin]; [done|].
    apply IH with (df := d); [done|done|].
    apply update_col_touches in Hd as [_ Hkeep].
    rewrite Hkeep; [done|]. by intros ->%list_elem_of_singleton.
Qed.

Lemma for_each_present (step : string -> DataFrame -> result DataFrame)
    (cols : list string) df df' c :
  (forall c d d', step c d = Ok d' -> touches [c] d d' /\ is_Some (columns d !! c)) ->
  for_each step cols df = Ok df' -> c ∈ cols ->
  is_Some (columns df !! c).
Proof.
  intros Hstep. revert df. induction cols as [|c0 cols IH]; intros df Hrun Hin;
    [by inversion Hin|].
  simpl in Hrun. apply bind_Ok in Hrun as (d & Hd & Hrest).
  destruct (Hstep _ _ _ Hd) as [[_ Hkeep] Hsome].
  destruct (decide (c = c0)) as [->|Hne]; [done|].
  apply elem_of_cons in Hin as [?|Hin]; [done|].
  rewrite <- Hkeep by (by intros ->%list_elem_of_singleton).
  by apply IH.
Qed.

Lemma update_col_step (f : list value -> list value) c df df' :
  update_col f c df = Ok df' ->
  touches [c] df df' /\ is_Some (columns df !! c).
Proof.
  intros Hs. split; [by eapply update_col_touches|].
  apply update_col_inv in Hs as (col & -> & _). by eexists.
Qed.

Lemma fix_eia_na_lookup df c :
  columns (fix_eia_na df) !! c = fmap fix_eia_na_cell <$> columns df !! c.
Proof. unfold fix_eia_na, applymap. cbn [columns]. by rewrite lookup_fmap. Qed.

Lemma touches_app written written' df1 df2 df3 :
  touches written df1 df2 -> touches written' df2 df3 ->
  touches (written ++ written') df1 df3.
Proof.
  intros [Hi1 Hk1] [Hi2 Hk2]. split; [congruence|].
  intros c [Hc1 Hc2]%not_elem_of_app. by rewrite Hk2, Hk1.
Qed.

End Frames.

Section Written.
Context `{Helpers}.

(** [plants] stores the table that [convert_to_date] makes of the input
    page with its missing-data markers removed and the columns it names
    rewritten: the rows and every other column are as they were after the
    markers were removed. *)
Theorem plants_writes_named_columns (dfs acc acc' : tables) (p_df : DataFrame) :
  dfs !! "plant" = Some p_df ->
  plants dfs acc = Ok acc' ->
  exists pre,
    acc' = <["plants_eia860" := convert_to_date pre]> acc /\
    touches plants_written (fix_eia_na p_df) pre.
Proof.
  intros Hp Hrun. unfold plants, lookup_table in Hrun.
  rewrite Hp, bind_Ok_l in Hrun. cbv zeta in Hrun.
  run Hrun as d1 Hd1. run Hrun as d2 Hd2. run Hrun as d3 Hd3.
  run Hrun as d4 Hd4. run Hrun as d5 Hd5. run Hrun as d6 Hd6.
  run Hrun as d7 Hd7. run Hrun as d8 Hd8. injection Hrun as <-.
  exists d8. split; [done|].
  apply astype_str_column_touches in Hd1.
  apply update_attr_touches in Hd2, Hd3, Hd4.
  apply (for_each_touches _ _ _ _ fix_boolean_column_touches) in Hd5.
  apply astype_int_column_touches in Hd6, Hd7, Hd8.
  unfold plants_written.
  change (touches (["zip_code"] ++ ["ash_impoundment_lined"]
                     ++ ["natural_gas_storage"]
                     ++ ["liquefied_natural_gas_storage"]
                     ++ plants_boolean_columns
                     ++ ["plant_id_eia"] ++ ["utility_id_eia"]
                     ++ ["primary_purpose_naics_id"]) (fix_eia_na p_df) d8).
  repeat (eapply touches_app; [eassumption|]). done.
Qed.

(** [ownership] stores the input page, after the markers are removed and
    the dates converted, with four columns rewritten: the fraction and the
    three identifiers.  The rows and every other column are as the date
    conversion left them. *)
Theorem ownership_writes_named_columns (dfs acc acc' : tables)
    (o_df : DataFrame) :
  dfs !! "ownership" = Some o_df ->
  ownership dfs acc = Ok acc' ->
  exists out,
    acc' = <["ownership_eia860" := out]> acc /\
    touches ["fraction_owned"; "owner_utility_id_eia"; "utility_id_eia";
             "plant_id_eia"]
            (convert_to_date (fix_eia_na o_df)) out.
Proof.
  intros Ho Hrun. unfold ownership, lookup_table in Hrun.
  rewrite Ho, bind_Ok_l in Hrun. cbv zeta in Hrun.
  run Hrun as dates Hdates. run Hrun as years Hyears.
  run Hrun as first Hfirst. run Hrun as ok Hok.
  run Hrun as fraction Hfraction. run Hrun as fraction' Hfraction'.
  run Hrun as d1 Hd1. run Hrun as d2 Hd2. run Hrun as d3 Hd3.
  injection Hrun as <-. exists d3. split; [done|].
  apply astype_int_column_touches in Hd1, Hd2, Hd3.
  pose proof (setcol_touches (convert_to_date (fix_eia_na o_df))
                "fraction_owned" fraction') as Hd0.
  change (touches (["fraction_owned"] ++ ["owner_utility_id_eia"]
                     ++ ["utility_id_eia"] ++ ["plant_id_eia"])
                  (convert_to_date (fix_eia_na o_df)) d3).
  repeat (eapply touches_app; [eassumption|]). done.
Qed.

Lemma flag_cells (col : list value) :
  yes_no <$> fillna (Str "False") (fix_eia_na_cell <$> col)
  = (fun v => yes_no (if isna (fix_eia_na_cell v) then Str "False"
                      else fix_eia_na_cell v)) <$> col.
Proof.
  unfold fillna. rewrite <- !list_fmap_compose. by apply list_fmap_ext.
Qed.

(** In the output of [utilities], a cell of one of the four relationship
    flags is true for "Y", false for "N", the text "False" for a missing
    cell or a missing-data marker, and the input cell otherwise. *)
Theorem utilities_flags (dfs acc acc' : tables) (u_df : DataFrame)
    (c : string) (col : list value) :
  bystander convert_to_date c ->
  c ∈ utilities_boolean_columns ->
  dfs !! "utility" = Some u_df ->
  columns u_df !! c = Some col ->
  utilities dfs acc = Ok acc' ->
  exists out col',
    acc' !! "utilities_eia860" = Some out /\
    columns out !! c = Some col' /\
    length col' = length col /\
    forall i v, col !! i = Some v ->
      (v = Str "Y" -> col' !! i = Some (Bool true)) /\
      (v = Str "N" -> col' !! i = Some (Bool false)) /\
      (isna (fix_eia_na_cell v) = true -> col' !! i = Some (Str "False")) /\
      (isna (fix_eia_na_cell v) = false -> v <> Str "Y" -> v <> Str "N" ->
       col' !! i = Some v).
Proof.
  intros Hdate Hc Hu Hcol Hrun. unfold utilities, lookup_table in Hrun.
  rewrite Hu, bind_Ok_l in Hrun. cbv zeta in Hrun.
  run Hrun as state Hstate. run Hrun as state' Hstate'.
  run Hrun as d1 Hd1. run Hrun as d2 Hd2. injection Hrun as <-.
  assert (c <> "state" /\ c <> "utility_id_eia") as [Hs Hid].
  { split; intros ->; revert Hc; rewrite list_elem_of_In; simpl;
      intuition discriminate. }
  assert (NoDup utilities_boolean_columns) as Hnd by by_evaluation.
  eapply (for_each_fix_boolean _ _ _ c (fix_eia_na_cell <$> col) Hnd Hc) in Hd1.
  2:{ cbn [setcol columns]. rewrite !lookup_insert_ne by done.
      by rewrite fix_eia_na_lookup, Hcol. }
  apply astype_int_column_touches in Hd2 as [_ Hk2].
  destruct (Hdate d1) as [_ Hk1].
  rewrite flag_cells in Hd1.
  eexists d2, _. split; [apply lookup_insert_eq|].
  split.
  { rewrite Hk2 by (by intros ->%list_elem_of_singleton). by rewrite Hk1. }
  split; [by rewrite length_fmap|].
  intros i v Hv. rewrite list_lookup_fmap, Hv. simpl.
  repeat split.
  - by intros ->.
  - by intros ->.
  - by intros ->.
  - intros Hna Hy Hn. rewrite Hna. f_equal.
    destruct v as [|s| | | |]; try done. simpl in *.
    destruct (is_eia_na s) eqn:Hs'; [done|]. unfold yes_no, equals_str.
    destruct (String.eqb_spec s "Y") as [->|_]; [done|].
    destruct (String.eqb_spec s "N") as [->|_]; [done|]. done.
Qed.

(** In the output of [generators], in each of the numeric columns in which
    a zero stands for "not applicable", the cell of an identified row is
    missing where the input has the integer 0, and is the input integer
    where that is not 0, provided the helpers that finish the table leave
    the column as it is (as they do a capacity or a load; a month or a
    year belongs to [month_year_to_date]). *)
Theorem generators_zero_is_missing (dfs acc acc' : tables)
    (gp_df ge_df gr_df : DataFrame) (c : string) :
  finishing_bystander c ->
  c ∈ columns_to_fix ->
  well_formed gp_df -> well_formed ge_df -> well_formed gr_df ->
  dfs !! "generator_proposed" = Some gp_df ->
  dfs !! "generator_existing" = Some ge_df ->
  dfs !! "generator_retired" = Some gr_df ->
  generators dfs acc = Ok acc' ->
  exists out col',
    let keep := identified [ge_df; gp_df; gr_df] in
    let col := select keep (stacked c [ge_df; gp_df; gr_df]) in
    acc' !! "generators_eia860" = Some out /\
    columns out !! c = Some col' /\
    length col' = length col /\
    forall i v, col !! i = Some v ->
      (v = Int 0 -> col' !! i = Some NA) /\
      (forall z, v = Int z -> z <> 0 -> col' !! i = Some (Int z)).
Proof.
  intros Hby Hc Wp We Wr Hp He Hr Hrun. unfold generators, lookup_table in Hrun.
  rewrite Hp, He, Hr, !bind_Ok_l in Hrun.
  run Hrun as d1 Hd1. run Hrun as d2 Hd2. run Hrun as d3 Hd3.
  injection Hrun as <-.
  assert (c <> "operational_status_code" /\ c <> "generator_id"
          /\ c <> "plant_id_eia") as (Hn1 & Hn2 & Hn3).
  { repeat split; intros ->; revert Hc; rewrite list_elem_of_In; simpl;
      intuition discriminate. }
  (* the stacked table *)
  pose proof Hd1 as Hstack.
  unfold generators_stacked in Hstack. cbv zeta in Hstack.
  set (stack := concat (tagged gp_df ge_df gr_df)) in *.
  run Hstack as d0 Hd0.
  apply dropna_identifiers in Hd0 as (gids & pids & Hg & Hpid & ->).
  assert (NoDup columns_to_fix) as Hnd by by_evaluation.
  destruct (for_each_present _ _ _ _ c
              (update_col_step (replace_where blank_or_zero NA)) Hstack Hc)
    as [col0 Hcol0].
  pose proof (for_each_update_col _ _ _ _ c col0 Hnd Hc Hstack Hcol0) as Hcol1.
  rewrite fix_eia_na_lookup in Hcol0. unfold loc_rows in Hcol0.
  cbn [columns] in Hcol0. rewrite lookup_fmap in Hcol0.
  destruct (columns stack !! c) as [scol|] eqn:Hscol; [|done].
  simpl in Hcol0. injection Hcol0 as <-.
  pose proof (concat_lookup _ _ _ Hscol) as ->.
  apply concat_lookup in Hg, Hpid.
  rewrite stacked_tagged in Hg, Hpid, Hcol1 by done.
  rewrite stacked_tagged in Hscol by done.
  assert (Forall well_formed [ge_df; gp_df; gr_df]) as Hwf
    by (by repeat constructor).
  assert (nrows stack = length gids) as Hn.
  { unfold nrows, stack. rewrite concat_index, Hg, (stacked_length _ _ Hwf).
    unfold tagged, setcol_scalar. by cbn [fmap list_fmap setcol index]. }
  rewrite Hn, notna_mask_pair, Hg, Hpid in Hcol1.
  fold (identified [ge_df; gp_df; gr_df]) in Hcol1.
  (* the flags and the finishing steps leave the column alone *)
  apply generators_flags_inv in Hd2 as [[_ Hk2] _].
  apply (generators_finish_keeps c) in Hd3 as [_ Hk3]; [|done|].
  2:{ intros Hin. revert Hc Hin. rewrite !list_elem_of_In. simpl.
      intuition (subst; discriminate). }
  assert (c ∉ generators_boolean_columns) as Hnb.
  { intros Hin. revert Hc Hin. rewrite !list_elem_of_In. simpl.
    intuition (subst; discriminate). }
  eexists d3, _. cbv zeta. split; [apply lookup_insert_eq|].
  split; [by rewrite Hk3, Hk2|].
  split; [unfold replace_where; by rewrite !length_fmap|].
  intros i v Hv. unfold replace_where.
  rewrite !list_lookup_fmap, Hv. simpl. split.
  - by intros ->.
  - intros z -> Hz. simpl. unfold blank_or_zero. simpl.
    by rewrite (proj2 (Z.eqb_neq z 0) Hz).
Qed.

End Written.

(** ** [boiler_generator_assn] *)

Section Selections.
Implicit Types (df : DataFrame) (c : string) (col : list value).

Lemma select_sublist {A : Type} (mask : list bool) (l : list A) :
  select mask l `sublist_of` l.
Proof.
  revert l. induction mask as [|b mask IH]; intros [|x l]; simpl;
    try apply sublist_nil_l.
  destruct b; [by apply sublist_skip|by apply sublist_cons].
Qed.

Lemma select_picks {A : Type} (P : A -> Prop) (mask : list bool) (l : list A) :
  (forall i x, mask !! i = Some true -> l !! i = Some x -> P x) ->
  Forall P (select mask l).
Proof.
  revert l. induction mask as [|b mask IH]; intros [|x l] Hp; simpl; try done.
  assert (Forall P (select mask l)) as Hrest.
  { apply IH. intros i y Hm Hl. by apply (Hp (S i)). }
  destruct b; [|done]. constructor; [|done]. by apply (Hp 0%nat).
Qed.

Lemma same_names_refl df : same_names df df.
Proof. by intros c. Qed.

Lemma same_names_trans df1 df2 df3 :
  same_names df1 df2 -> same_names df2 df3 -> same_names df1 df3.
Proof. intros H1 H2 c. by rewrite (H1 c). Qed.

Lemma loc_rows_names (mask : list bool) df : same_names df (loc_rows mask df).
Proof.
  intros c. unfold loc_rows. cbn [columns]. rewrite lookup_fmap.
  by rewrite fmap_is_Some.
Qed.

Lemma setcol_names df c col :
  is_Some (columns df !! c) -> same_names df (setcol df c col).
Proof.
  intros Hc c'. cbn [setcol columns]. destruct (decide (c' = c)) as [->|Hne].
  - rewrite lookup_insert_eq. split; [by eexists|done].
  - by rewrite lookup_insert_ne.
Qed.

Lemma update_col_names (f : list value -> list value) c df df' :
  update_col f c df = Ok df' -> same_names df df'.
Proof.
  intros (col & Hcol & ->)%update_col_inv. apply setcol_names. by eexists.
Qed.

Lemma loc_rows_index (mask : list bool) df :
  index (loc_rows mask df) `sublist_of` index df.
Proof. apply select_sublist. Qed.

Lemma loc_rows_lookup (mask : list bool) df c col :
  columns (loc_rows mask df) !! c = Some col ->
  exists col0, columns df !! c = Some col0 /\ col = select mask col0.
Proof.
  unfold loc_rows. cbn [columns]. rewrite lookup_fmap.
  destruct (columns df !! c) as [col0|]; [|done]. intros [= <-]. eauto.
Qed.

Lemma getcols_inv df (cols : list string) df' :
  getcols df cols = Ok df' ->
  index df' = index df /\
  (forall c, is_Some (columns df' !! c) <-> c ∈ cols) /\
  (forall c col, columns df' !! c = Some col -> columns df !! c = Some col).
Proof.
  unfold getcols. intros (picked & Hpicked & [= <-])%bind_Ok.
  cbn [index columns]. split; [done|].
  revert picked Hpicked. induction cols as [|c0 cols IH]; intros picked Hp.
  { injection Hp as <-. simpl. split.
    - intros c. rewrite lookup_empty. split; [by intros []|by intros ?%elem_of_nil].
    - intros c col. by rewrite lookup_empty. }
  cbn [mapM] in Hp. apply bind_Ok in Hp as ([c1 col1] & Hc1 & Hp).
  apply bind_Ok in Hp as (rest & Hrest & [= <-]).
  apply bind_Ok in Hc1 as (col0 & Hcol0 & [= <- <-]).
  apply getcol_inv in Hcol0.
  destruct (IH _ Hrest) as [Hdom Hsub]. cbn [list_to_map foldr]. split.
  - intros c. destruct (decide (c = c0)) as [->|Hne].
    + rewrite lookup_insert_eq. split; [by left|by eexists].
    + rewrite lookup_insert_ne by done. rewrite Hdom, elem_of_cons.
      split; [by right|by intros [?|?]].
  - intros c col. destruct (decide (c = c0)) as [->|Hne].
    + rewrite lookup_insert_eq. by intros [= <-].
    + rewrite lookup_insert_ne by done. apply Hsub.
Qed.

Lemma getcols_missing df (cols : list string) c :
  c ∈ cols -> columns df !! c = None -> getcols df cols = Raise KeyError.
Proof.
  intros Hin Hc. unfold getcols.
  assert (mapM (fun c => col ← getcol df c; mret (c, col)) cols = Raise KeyError)
    as ->; [|done].
  induction cols as [|c0 cols IH]; [by apply elem_of_nil in Hin|].
  cbn [mapM].
  destruct (columns df !! c0) as [col0|] eqn:Hc0.
  - apply elem_of_cons in Hin as [->|Hin]; [congruence|].
    assert (getcol df c0 = Ok col0) as -> by (unfold getcol; by rewrite Hc0).
    rewrite bind_Ok_l. simpl mret. rewrite bind_Ok_l. by rewrite (IH Hin).
  - by assert (getcol df c0 = Raise KeyError) as ->
      by (unfold getcol; by rewrite Hc0).
Qed.

Lemma isnumeric_mask_inv (col : list value) (mask : list bool) :
  isnumeric_mask col = Ok mask ->
  forall i v, mask !! i = Some true -> col !! i = Some v -> digits v.
Proof.
  unfold isnumeric_mask. revert mask.
  induction col as [|v0 col IH]; intros mask Hm.
  { injection Hm as <-. by intros i v _ ?. }
  cbn [mapM] in Hm. apply bind_Ok in Hm as (b & Hb & Hm).
  apply bind_Ok in Hm as (rest & Hrest & [= <-]).
  intros [|i] v; simpl.
  - intros [= ->] [= ->]. destruct v; try done. injection Hb as Hb.
    by eexists.
  - by apply IH.
Qed.

Lemma notna_mask_from (cols : list (list value)) (mask : list bool) (i : nat) :
  foldl (fun mask col => zip_with andb mask ((fun v => negb (isna v)) <$> col))
        mask cols !! i = Some true ->
  mask !! i = Some true /\
  forall col v, col ∈ cols -> col !! i = Some v -> isna v = false.
Proof.
  revert mask. induction cols as [|col0 cols IH]; intros mask; simpl.
  { intros Hm. split; [done|]. by intros ? ? ?%elem_of_nil. }
  intros [Hz Hrest]%IH.
  apply lookup_zip_with_Some in Hz as (b1 & b2 & Hand & Hb1 & Hb2).
  symmetry in Hand. apply andb_true_iff in Hand as [-> ->]. split; [done|].
  intros col v [->|Hin]%elem_of_cons Hv; [|by eapply Hrest].
  rewrite list_lookup_fmap, Hv in Hb2. injection Hb2 as Hb2.
  by apply negb_true_iff in Hb2.
Qed.

Lemma dropna_all_cells df c col :
  columns (dropna_all df) !! c = Some col -> Forall (fun v => isna v = false) col.
Proof.
  unfold dropna_all. intros (col0 & Hcol0 & ->)%loc_rows_lookup.
  apply select_picks. intros i v Hm Hv. unfold notna_mask in Hm.
  apply notna_mask_from in Hm as [_ Hm]. apply (Hm col0); [|done].
  apply list_elem_of_fmap. exists (c, col0). split; [done|].
  by apply elem_of_map_to_list.
Qed.

End Selections.

Section AssociationTable.
Context `{Helpers} `{Duplicates}.

Lemma astype_int_column_names c (df df' : DataFrame) :
  astype_int_column c df = Ok df' -> same_names df df'.
Proof.
  unfold astype_int_column. intros (col & Hcol & Hrun)%bind_Ok.
  apply getcol_inv in Hcol.
  destruct (mapM astype_int col) as [col'|]; [|done]. injection Hrun as <-.
  apply setcol_names. by eexists.
Qed.

(** [boiler_generator_assn] stores the table that [convert_to_date] makes
    of a table with the five columns of the association and no other,
    whose rows are rows of the input page in their order, in which no cell
    is missing and every utility identifier is a string of digits. *)
Theorem boiler_generator_assn_table (dfs acc acc' : tables) (b_g_df : DataFrame) :
  dfs !! "boiler_generator_assn" = Some b_g_df ->
  boiler_generator_assn dfs acc = Ok acc' ->
  exists pre,
    acc' = <["boiler_generator_assn_eia860" := convert_to_date pre]> acc /\
    (forall c, is_Some (columns pre !! c) <-> c ∈ b_g_cols) /\
    index pre `sublist_of` index b_g_df /\
    (forall c col, columns pre !! c = Some col ->
       Forall (fun v => isna v = false) col) /\
    (forall ids, columns pre !! "utility_id_eia" = Some ids ->
       Forall digits ids).
Proof.
  intros Hb Hrun. unfold boiler_generator_assn, lookup_table in Hrun.
  rewrite Hb, bind_Ok_l in Hrun.
  run Hrun as d1 Hd1. run Hrun as d2 Hd2. run Hrun as ids Hids.
  run Hrun as mask Hmask. run Hrun as d3 Hd3. run Hrun as d4 Hd4.
  run Hrun as d5 Hd5. injection Hrun as <-.
  set (d6 := drop_duplicates d5). exists (dropna_all d6).
  split; [done|].
  apply getcols_inv in Hd1 as (Hi1 & Hdom1 & _).
  pose proof (astype_str_column_touches _ _ _ Hd2) as [Hi2 _].
  pose proof (astype_int_column_touches _ _ _ Hd3) as [Hi3 Hk3].
  pose proof (astype_str_column_touches _ _ _ Hd4) as [Hi4 Hk4].
  pose proof (astype_str_column_touches _ _ _ Hd5) as [Hi5 Hk5].
  split; [|split; [|split]].
  - assert (same_names d1 (dropna_all d6)) as Hn.
    { eapply same_names_trans; [exact (update_col_names _ _ _ _ Hd2)|].
      eapply same_names_trans; [apply (loc_rows_names mask)|].
      eapply same_names_trans; [exact (astype_int_column_names _ _ _ Hd3)|].
      eapply same_names_trans; [exact (update_col_names _ _ _ _ Hd4)|].
      eapply same_names_trans; [exact (update_col_names _ _ _ _ Hd5)|].
      eapply same_names_trans; [apply loc_rows_names|]. apply loc_rows_names. }
    intros c. rewrite <- Hdom1. symmetry. apply Hn.
  - unfold dropna_all. etrans; [apply loc_rows_index|].
    unfold d6, drop_duplicates. etrans; [apply loc_rows_index|].
    rewrite Hi5, Hi4, Hi3. etrans; [apply loc_rows_index|].
    by rewrite Hi2, Hi1.
  - intros c col. apply dropna_all_cells.
  - intros ids' Hids'. unfold dropna_all in Hids'.
    apply loc_rows_lookup in Hids' as (ids6 & Hids6 & ->).
    apply select_Forall.
    unfold d6, drop_duplicates in Hids6.
    apply loc_rows_lookup in Hids6 as (ids5 & Hids5 & ->).
    apply select_Forall.
    rewrite Hk5, Hk4, Hk3 in Hids5
      by (by intros ?%list_elem_of_singleton).
    apply loc_rows_lookup in Hids5 as (ids2 & Hids2 & ->).
    unfold getattr in Hids. rewrite Hids2 in Hids. injection Hids as <-.
    apply select_picks. by apply isnumeric_mask_inv.
Qed.

(** An input page that lacks one of the five columns of the association
    stops [boiler_generator_assn] with a [KeyError]. *)
Theorem boiler_generator_assn_missing_column (dfs acc : tables)
    (b_g_df : DataFrame) (c : string) :
  dfs !! "boiler_generator_assn" = Some b_g_df ->
  c ∈ b_g_cols ->
  columns b_g_df !! c = None ->
  boiler_generator_assn dfs acc = Raise KeyError.
Proof.
  intros Hb Hc Hnone. unfold boiler_generator_assn, lookup_table.
  rewrite Hb, bind_Ok_l. by rewrite (getcols_missing _ _ c).
Qed.

End AssociationTable.

(** ** Worked examples *)

Lemma get_eia923_column_map_inverts_witness :
  exists d,
    @page_map_eia923 small_registry "generation_fuel" 2011 = Some d /\
    (forall k v,
       ({[ "plant_id" := "plant_id" ]} : gmap string string) !! v = Some k ->
       (k, v) ∈ d) /\
    (NoDup d.*2 -> forall k v, (k, v) ∈ d ->
       ({[ "plant_id" := "plant_id" ]} : gmap string string) !! v = Some k).
Proof.
  apply (get_eia923_column_map_inverts (H := small_registry)
           "generation_fuel" 2011 0 5).
  by_running.
Defined.

Lemma get_eia923_page_needs_witness :
  [2011; 2012] <> [] /\
  "generation_fuel" ∈ @tab_map_columns small_registry /\
  "generation_fuel" <> "year_index" /\
  "generation_fuel" ∈ known_pages /\
  Forall (fun yr => 2009 <= yr /\ is_Some (two_years !! yr)) [2011; 2012].
Proof.
  apply (get_eia923_page_needs (H := small_registry) (H0 := one_sheet)
           "generation_fuel" two_years [2011; 2012] page_example).
  by_running.
Defined.

Lemma cleanstrings_unmapped_keys_witness :
  let field := [Str "bit"; Str " Wood "; Str "NG"] in
  let map := [("COAL", ["BIT"; "SUB"]); ("GAS", ["NG"])] in
  length (cleanstringsEIA923 field map (Some NA)) = length field /\
  Forall (fun v => v = NA \/ is_key map.*1 v = true)
         (cleanstringsEIA923 field map (Some NA)).
Proof.
  intros field map.
  apply (cleanstrings_unmapped_keys field map NA).
  by repeat constructor.
Defined.

(** The scenario: a synonym, a string the map does not know, a synonym. *)
Example cleanstrings_unmapped_scenario :
  cleanstringsEIA923 [Str "bit"; Str " Wood "; Str "NG"]
    [("COAL", ["BIT"; "SUB"]); ("GAS", ["NG"])] (Some NA)
  = [Str "COAL"; NA; Str "GAS"].
Proof. reflexivity. Qed.

Lemma datadir_one_per_year_witness :
  2011 = 2011 /\ 2001 <= 2011 <= 2016.
Proof.
  apply (datadir_one_per_year (H0 := small_disk) 2011 2011 "data/f923_2011");
    reflexivity.
Defined.

(** The directories of a year before 2008 and of a later one. *)
Example datadir_scenario :
  datadir (H0 := small_disk) 2005 = Ok "data/f906920_2005" /\
  datadir (H0 := small_disk) 2012 = Ok "data/f923_2012" /\
  datadir (H0 := small_disk) 2017 = Raise AssertionError.
Proof. repeat split; reflexivity. Qed.

Lemma get_eia923_xlsx_years_witness :
  (forall yr, is_Some (xlsx_example !! yr) <-> yr ∈ [2011; 2012]) /\
  Forall (fun yr => 2009 <= yr <= 2016 /\
                    exists path,
                      get_eia923_file (H0 := small_disk) yr = Ok (Item path) /\
                      xlsx_example !! yr = Some (@ExcelFile _ small_disk path))
         [2011; 2012].
Proof.
  apply (get_eia923_xlsx_years (H0 := small_disk) [2011; 2012] xlsx_example).
  by_running.
Defined.


Lemma raw_pages_not_empty : raw_pages <> ∅.
Proof.
  intros Heq. apply (f_equal (fun m : tables => m !! "utility")) in Heq.
  by vm_compute in Heq.
Qed.

Lemma transform_tables_witness :
  let asked := ["utilities_eia860"; "boiler_generator_assn_eia860";
                "plants_of_the_moon"] in
  let known := ["ownership_eia860"; "generators_eia860"; "plants_eia860";
                "boiler_generator_assn_eia860"; "utilities_eia860"] in
  (is_Some (transform_example !! "utilities_eia860") <->
   raw_pages <> ∅ /\ "utilities_eia860" ∈ asked /\
   "utilities_eia860" ∈ known) /\
  (is_Some (transform_example !! "plants_of_the_moon") <->
   raw_pages <> ∅ /\ "plants_of_the_moon" ∈ asked /\
   "plants_of_the_moon" ∈ known) /\
  (is_Some (transform_example !! "plants_eia860") <->
   raw_pages <> ∅ /\ "plants_eia860" ∈ asked /\ "plants_eia860" ∈ known).
Proof.
  intros asked known.
  split; [|split];
    apply (transform_tables (H := plain_helpers) (H0 := row_duplicates)
             raw_pages asked transform_example);
    by_running.
Defined.

Lemma transform_runs_each_alone_witness :
  let asked := ["utilities_eia860"; "boiler_generator_assn_eia860";
                "plants_of_the_moon"] in
  (forall out name f,
     transform (H := plain_helpers) (H0 := row_duplicates) raw_pages asked
     = Ok out ->
     (name, f) ∈ eia860_transform_functions (H := plain_helpers)
                   (H0 := row_duplicates) ->
     name ∈ asked ->
     exists df, f raw_pages ∅ = Ok {[ name := df ]} /\ out !! name = Some df) /\
  (forall e,
     transform (H := plain_helpers) (H0 := row_duplicates) raw_pages asked
     = Raise e ->
     exists name f,
       (name, f) ∈ eia860_transform_functions (H := plain_helpers)
                     (H0 := row_duplicates) /\
       name ∈ asked /\ f raw_pages ∅ = Raise e).
Proof.
  intros asked.
  apply (transform_runs_each_alone (H := plain_helpers) (H0 := row_duplicates)
           raw_pages asked).
  apply raw_pages_not_empty.
Defined.

(** The scenario: of the five transformers, the two that are asked for
    run, on the raw pages they read. *)
Example transform_scenario :
  transform (H := plain_helpers) (H0 := row_duplicates) raw_pages
    ["utilities_eia860"; "boiler_generator_assn_eia860"; "plants_of_the_moon"]
  = Ok transform_example /\
  transform_example !! "boiler_generator_assn_eia860"
  = association_example !! "boiler_generator_assn_eia860" /\
  transform (H := plain_helpers) (H0 := row_duplicates) ∅
    ["utilities_eia860"] = Ok ∅ /\
  transform (H := plain_helpers) (H0 := row_duplicates) raw_pages
    ["plants_eia860"] = Raise KeyError.
Proof. repeat split; by_running. Qed.

Lemma plants_writes_named_columns_witness :
  let p_df :=
    frame [0; 1; 2]
      ([("zip_code", [Int 2139; Int 80301; Int 94110]);
        ("plant_id_eia", [Int 1; Int 2; Int 3]);
        ("utility_id_eia", [Int 4; Int 5; Int 6]);
        ("primary_purpose_naics_id", [Int 22; Int 22; Int 22]);
        ("report_date", [Date 2016 1 1; Date 2016 1 1; Date 2016 1 1])]
       ++ filled plants_boolean_columns [NA; Str "Y"; Str "X"]) in
  exists pre,
    plants_example = <["plants_eia860" := @convert_to_date plain_helpers pre]> ∅ /\
    touches plants_written (fix_eia_na p_df) pre.
Proof.
  intros p_df.
  apply (plants_writes_named_columns (H := plain_helpers)
           {[ "plant" := p_df ]} ∅ plants_example p_df).
  - reflexivity.
  - by_running.
Defined.

#[local] Set Warnings "-inexact-float".

Lemma ownership_writes_named_columns_witness :
  let o_df :=
    frame [0; 1]
      [("report_date", [Date 2011 1 1; Date 2012 1 1]);
       ("fraction_owned", [Int 45; Num 0.30]);
       ("owner_utility_id_eia", [Int 1; Int 2]);
       ("utility_id_eia", [Int 3; Int 4]);
       ("plant_id_eia", [Int 5; Int 6])] in
  exists out,
    ownership_example = <["ownership_eia860" := out]> ∅ /\
    touches ["fraction_owned"; "owner_utility_id_eia"; "utility_id_eia";
             "plant_id_eia"]
            (@convert_to_date plain_helpers (fix_eia_na o_df)) out.
Proof.
  intros o_df.
  apply (ownership_writes_named_columns (H := plain_helpers)
           {[ "ownership" := o_df ]} ∅ ownership_example o_df).
  - reflexivity.
  - by_running.
Defined.

#[local] Set Warnings "+inexact-float".

Lemma utilities_flags_witness :
  let col := [Str "Y"; Str "N"; NA; Str "X"] in
  let u_df :=
    frame [0; 1; 2; 3]
      ([("state", [Str "qb"; Str "Y"; Str "tx"; Str "."]);
        ("utility_id_eia", [Int 7; Int 8; Int 9; Int 10]);
        ("report_date", [Date 2016 1 1; Date 2016 1 1; Date 2016 1 1;
                         Date 2016 1 1])]
       ++ filled utilities_boolean_columns col) in
  exists out col',
    utilities_example !! "utilities_eia860" = Some out /\
    columns out !! "plants_reported_owner" = Some col' /\
    length col' = length col /\
    forall i v, col !! i = Some v ->
      (v = Str "Y" -> col' !! i = Some (Bool true)) /\
      (v = Str "N" -> col' !! i = Some (Bool false)) /\
      (isna (fix_eia_na_cell v) = true -> col' !! i = Some (Str "False")) /\
      (isna (fix_eia_na_cell v) = false -> v <> Str "Y" -> v <> Str "N" ->
       col' !! i = Some v).
Proof.
  intros col u_df.
  apply (utilities_flags (H := plain_helpers) {[ "utility" := u_df ]} ∅
           utilities_example u_df "plants_reported_owner" col).
  - apply plain_bystander.
  - by_evaluation.
  - reflexivity.
  - reflexivity.
  - by_running.
Defined.

Lemma generators_zero_is_missing_witness :
  let gp_df := generator_page [0; 1] [Str "P1"; NA] [Int 1; Int 2]
                 [Str "Y"; Str "N"] [Str "N"; Str "N"] in
  let ge_df := generator_page [0; 1; 2] [Str "E1"; Str "E2"; Str "E3"]
                 [Int 1; NA; Int 3] [Str "Y"; Str "X"; NA]
                 [Str "N"; Str "N"; Str "Y"] in
  let gr_df := generator_page [0] [Str "R1"] [Int 5] [Str "X"] [Str "Y"] in
  exists out col',
    let keep := identified [ge_df; gp_df; gr_df] in
    let col := select keep (stacked "summer_capacity_mw"
                              [ge_df; gp_df; gr_df]) in
    generators_example !! "generators_eia860" = Some out /\
    columns out !! "summer_capacity_mw" = Some col' /\
    length col' = length col /\
    forall i v, col !! i = Some v ->
      (v = Int 0 -> col' !! i = Some NA) /\
      (forall z, v = Int z -> z <> 0 -> col' !! i = Some (Int z)).
Proof.
  intros gp_df ge_df gr_df.
  apply (generators_zero_is_missing (H := plain_helpers)
           {[ "generator_proposed" := gp_df; "generator_existing" := ge_df;
              "generator_retired" := gr_df ]} ∅ generators_example
           gp_df ge_df gr_df "summer_capacity_mw").
  - apply plain_finishing_bystander. by_evaluation.
  - by_evaluation.
  - by_evaluation.
  - by_evaluation.
  - by_evaluation.
  - reflexivity.
  - reflexivity.
  - reflexivity.
  - by_running.
Defined.

Lemma boiler_generator_assn_table_witness :
  exists pre,
    association_example
    = <["boiler_generator_assn_eia860" := @convert_to_date plain_helpers pre]> ∅ /\
    (forall c, is_Some (columns pre !! c) <-> c ∈ b_g_cols) /\
    index pre `sublist_of` index association_page /\
    (forall c col, columns pre !! c = Some col ->
       Forall (fun v => isna v = false) col) /\
    (forall ids, columns pre !! "utility_id_eia" = Some ids ->
       Forall digits ids).
Proof.
  apply (boiler_generator_assn_table (H := plain_helpers) (H0 := row_duplicates)
           raw_pages ∅ association_example association_page).
  - reflexivity.
  - by_running.
Defined.

(** The scenario: the note and the second copy of the first record are
    gone, the comment column too, and the utility identifiers are text. *)
Example boiler_generator_assn_scenario :
  (d ← association_example !! "boiler_generator_assn_eia860";
   mret (index d, map_to_list (columns d)))
  = Some ([0; 3],
          [("generator_id", [Str "G1"; Str "G2"]);
           ("utility_id_eia", [Str "7"; Str "8"]);
           ("report_year", [Int 2016; Int 2016]);
           ("boiler_id", [Str "B1"; Str "B2"]);
           ("plant_id_eia", [Int 1; Int 2])]).
Proof. by_running. Qed.

Lemma boiler_generator_assn_missing_column_witness :
  let page := frame [0] [("report_year", [Int 2016]);
                         ("utility_id_eia", [Str "7"]);
                         ("plant_id_eia", [Int 1]);
                         ("generator_id", [Str "G1"])] in
  boiler_generator_assn (H := plain_helpers) (H0 := row_duplicates)
    {[ "boiler_generator_assn" := page ]} ∅ = Raise KeyError.
Proof.
  intros page.
  apply (boiler_generator_assn_missing_column (H := plain_helpers)
           (H0 := row_duplicates) {[ "boiler_generator_assn" := page ]} ∅
           page "boiler_id").
  - reflexivity.
  - by_evaluation.
  - reflexivity.
Defined.
